(** * The healing agent: a shallow embedding of its analytical core

    The Python sources embedded here are
    - [backend/models.py]                       (enumerations and report records),
    - [backend/agents/failure_parser_agent.py]  (the bug classifier),
    - [backend/agents/score_agent.py]           (the scoring function),
    - [backend/agents/git_agent.py]             (branch names),
    - [backend/agents/fix_agent.py]             (descriptors and source fixes),
    - [backend/agents/test_agent.py]            (failure extraction),
    - [backend/agents/orchestrator.py]          (the healing loop).

    Modelling conventions.  A Python [str] is a Rocq [string]: the sequence of
    the bytes of its UTF-8 encoding.  Case mapping and the character classes
    ([\w], [\d], [\s], [str.strip], line boundaries) are the ASCII ones: a
    byte above 127 is a caseless symbol that is neither a letter, a digit nor
    white space.  Python agrees with this on ASCII text; where a statement
    depends on it, it is made for ASCII text ([is_ascii]).  A Python [int]
    is a [Z].  Logging is dropped. *)

From stdpp Require Import gmap strings list pretty.
From Stdlib Require Import ZArith Ascii String Lia.

Local Open Scope string_scope.
Local Open Scope list_scope.
Local Open Scope Z_scope.

(** ** Python string operations *)

Module PyStr.

Definition code (c : ascii) : N := N_of_ascii c.

Definition in_range (lo hi : N) (c : ascii) : bool :=
  ((lo <=? code c) && (code c <=? hi))%N.

(** A character of the ASCII range. *)
Definition is_ascii : ascii -> bool := in_range 0 127.

Definition is_upper : ascii -> bool := in_range 65 90.
Definition is_lower : ascii -> bool := in_range 97 122.
Definition is_digit : ascii -> bool := in_range 48 57.
Definition is_alpha (c : ascii) : bool := is_upper c || is_lower c.

(** [\w] of the [re] module, on ASCII. *)
Definition is_word (c : ascii) : bool :=
  is_alpha c || is_digit c || (code c =? 95)%N.

(** [str.isspace], which is also [\s]: tab to carriage return, the four
    separators 28 to 31, and the blank. *)
Definition is_space (c : ascii) : bool :=
  in_range 9 13 c || in_range 28 31 c || (code c =? 32)%N.

Definition lf : ascii := "010"%char.
Definition cr : ascii := "013"%char.
Definition dquote : ascii := "034"%char.
Definition squote : ascii := "039"%char.

Definition char_lower (c : ascii) : ascii :=
  if is_upper c then ascii_of_N (code c + 32) else c.

Definition char_upper (c : ascii) : ascii :=
  if is_lower c then ascii_of_N (code c - 32) else c.

Fixpoint map_chars (f : ascii -> ascii) (s : string) : string :=
  match s with
  | EmptyString => EmptyString
  | String c s' => String (f c) (map_chars f s')
  end.

(** [s.lower()] and [s.upper()]. *)
Definition lower : string -> string := map_chars char_lower.
Definition upper : string -> string := map_chars char_upper.

(** [s.startswith(p)]. *)
Definition startswith (s p : string) : bool := String.prefix p s.

(** [sub in s]. *)
Fixpoint contains (sub s : string) : bool :=
  String.prefix sub s ||
  match s with
  | EmptyString => false
  | String _ s' => contains sub s'
  end.

Fixpoint all_chars (p : ascii -> bool) (s : string) : bool :=
  match s with
  | EmptyString => true
  | String c s' => p c && all_chars p s'
  end.

Fixpoint filter_chars (p : ascii -> bool) (s : string) : string :=
  match s with
  | EmptyString => EmptyString
  | String c s' => if p c then String c (filter_chars p s') else filter_chars p s'
  end.

Fixpoint count_char (x : ascii) (s : string) : Z :=
  match s with
  | EmptyString => 0
  | String c s' => (if Ascii.eqb c x then 1 else 0) + count_char x s'
  end.

(** [s.lstrip()], [s.rstrip()], [s.strip()] and their one-argument forms,
    the argument given as a predicate on characters. *)
Fixpoint lstrip_by (p : ascii -> bool) (s : string) : string :=
  match s with
  | EmptyString => EmptyString
  | String c s' => if p c then lstrip_by p s' else s
  end.

Fixpoint rstrip_by (p : ascii -> bool) (s : string) : string :=
  match s with
  | EmptyString => EmptyString
  | String c s' =>
      match rstrip_by p s' with
      | EmptyString => if p c then EmptyString else String c EmptyString
      | r => String c r
      end
  end.

Definition strip_by (p : ascii -> bool) (s : string) : string :=
  rstrip_by p (lstrip_by p s).

Definition lstrip : string -> string := lstrip_by is_space.
Definition rstrip : string -> string := rstrip_by is_space.
Definition strip : string -> string := strip_by is_space.

(** [s.endswith(p)]. *)
Definition endswith (s p : string) : bool :=
  let n := String.length s in
  let k := String.length p in
  (k <=? n)%nat && String.eqb (String.substring (n - k) k s) p.

(** [s[n:]]. *)
Fixpoint drop (n : nat) (s : string) : string :=
  match n, s with
  | O, _ => s
  | S _, EmptyString => EmptyString
  | S n', String _ s' => drop n' s'
  end.

(** [s.split(sep)] for a one-character separator: never empty. *)
Fixpoint split (sep : ascii) (s : string) : list string :=
  match s with
  | EmptyString => [EmptyString]
  | String c s' =>
      if Ascii.eqb c sep then EmptyString :: split sep s'
      else match split sep s' with
           | [] => [String c EmptyString]
           | w :: ws => String c w :: ws
           end
  end.

(** [sep.join(l)]. *)
Fixpoint join (sep : string) (l : list string) : string :=
  match l with
  | [] => EmptyString
  | [x] => x
  | x :: l' => x +:+ sep +:+ join sep l'
  end.

(** The one-character line boundaries of [str.splitlines] below 128:
    line feed, vertical tab, form feed, carriage return and the
    separators 28 to 30. *)
Definition is_linebreak (c : ascii) : bool :=
  in_range 10 13 c || in_range 28 30 c.

(** [s.splitlines(keepends)]; [cur] is the line read so far.  A carriage
    return directly followed by a line feed is one boundary. *)
Fixpoint splitlines_go (keepends : bool) (cur s : string) : list string :=
  match s with
  | EmptyString => if String.eqb cur EmptyString then [] else [cur]
  | String c s' =>
      if is_linebreak c then
        match s' with
        | String c2 s'' =>
            if Ascii.eqb c cr && Ascii.eqb c2 lf then
              (if keepends then cur +:+ String c (String c2 EmptyString) else cur)
                :: splitlines_go keepends EmptyString s''
            else
              (if keepends then cur +:+ String c EmptyString else cur)
                :: splitlines_go keepends EmptyString s'
        | EmptyString =>
            (if keepends then cur +:+ String c EmptyString else cur)
              :: splitlines_go keepends EmptyString s'
        end
      else splitlines_go keepends (cur +:+ String c EmptyString) s'
  end.

Definition splitlines (keepends : bool) (s : string) : list string :=
  splitlines_go keepends EmptyString s.

(** [str(n)] for an [int]. *)
Definition str_of_int (n : Z) : string := pretty n.

(** [int(s)] for a string of decimal digits, as the patterns capture (the
    interpreter's bound on the number of digits is not modelled). *)
Definition digit_val (c : ascii) : Z := Z.of_N (code c - 48).

Fixpoint int_of_digits_go (acc : Z) (s : string) : Z :=
  match s with
  | EmptyString => acc
  | String c s' => int_of_digits_go (10 * acc + digit_val c) s'
  end.

Definition int_of_digits : string -> Z := int_of_digits_go 0.

(** [' ' * n]. *)
Fixpoint spaces (n : nat) : string :=
  match n with
  | O => EmptyString
  | S n' => String " "%char (spaces n')
  end.

(** [c * n] for an [int] n: empty when [n] is not positive. *)
Fixpoint repeat_char (c : ascii) (n : nat) : string :=
  match n with
  | O => EmptyString
  | S n' => String c (repeat_char c n')
  end.

End PyStr.

(** ** [models.py] *)

Inductive RunStatus := RUNNING | PASSED | FAILED.

Inductive BugType := LINTING | SYNTAX | LOGIC | TYPE_ERROR | IMPORT | INDENTATION.

Inductive FixStatus := FIXED | FIX_FAILED.

Global Instance RunStatus_eq_dec : EqDecision RunStatus.
Proof. solve_decision. Defined.
Global Instance BugType_eq_dec : EqDecision BugType.
Proof. solve_decision. Defined.
Global Instance FixStatus_eq_dec : EqDecision FixStatus.
Proof. solve_decision. Defined.

(** [bug_type.value]. *)
Definition BugType_value (b : BugType) : string :=
  match b with
  | LINTING => "LINTING"
  | SYNTAX => "SYNTAX"
  | LOGIC => "LOGIC"
  | TYPE_ERROR => "TYPE_ERROR"
  | IMPORT => "IMPORT"
  | INDENTATION => "INDENTATION"
  end.

(** ** [failure_parser_agent.py] *)

Module FailureParserAgent.
Import PyStr.

Record ParsedFailure := {
  pf_file : string;
  pf_line_number : Z;
  pf_bug_type : BugType;
  pf_raw_message : string;
  pf_error_type : string
}.

Definition _classify_bug_type (error_type message : string) : BugType :=
  let error_lower := lower error_type in
  let message_lower := lower message in
  if contains "importerror" error_lower || contains "modulenotfounderror" error_lower
  then IMPORT
  else if contains "import" message_lower &&
          (contains "cannot" message_lower || contains "no module" message_lower)
  then IMPORT
  else if contains "nameerror" error_lower && contains "is not defined" message_lower
  then IMPORT
  else if contains "syntaxerror" error_lower || contains "invalidsyntax" error_lower
  then SYNTAX
  else if contains "syntax" message_lower
  then SYNTAX
  else if contains "indentationerror" error_lower || contains "taberror" error_lower
  then INDENTATION
  else if contains "indent" message_lower || contains "unexpected indent" message_lower
  then INDENTATION
  else if contains "typeerror" error_lower || contains "attributeerror" error_lower
  then TYPE_ERROR
  else if contains "type" message_lower &&
          (contains "expected" message_lower || contains "got" message_lower)
  then TYPE_ERROR
  else if contains "lint" message_lower || contains "flake8" message_lower
          || contains "pylint" message_lower
  then LINTING
  else LOGIC.

Definition parse_failure (file : string) (line_number : Z)
    (message error_type : string) : ParsedFailure :=
  {| pf_file := file;
     pf_line_number := line_number;
     pf_bug_type := _classify_bug_type error_type message;
     pf_raw_message := message;
     pf_error_type := error_type |}.

(** The five rules of the classifier as the specification words them, in
    priority order, each with the category it assigns. *)
Definition rule_import (error_type message : string) : bool :=
  let e := lower error_type in
  let m := lower message in
  (contains "importerror" e || contains "modulenotfounderror" e)
  || (contains "import" m && (contains "cannot" m || contains "no module" m))
  || (contains "nameerror" e && contains "is not defined" m).

Definition rule_syntax (error_type message : string) : bool :=
  let e := lower error_type in
  (contains "syntaxerror" e || contains "invalidsyntax" e)
  || contains "syntax" (lower message).

Definition rule_indentation (error_type message : string) : bool :=
  let e := lower error_type in
  let m := lower message in
  (contains "indentationerror" e || contains "taberror" e)
  || (contains "indent" m || contains "unexpected indent" m).

Definition rule_type_error (error_type message : string) : bool :=
  let e := lower error_type in
  let m := lower message in
  (contains "typeerror" e || contains "attributeerror" e)
  || (contains "type" m && (contains "expected" m || contains "got" m)).

Definition rule_linting (error_type message : string) : bool :=
  let m := lower message in
  contains "lint" m || contains "flake8" m || contains "pylint" m.

Definition rules : list ((string -> string -> bool) * BugType) :=
  [ (rule_import, IMPORT); (rule_syntax, SYNTAX); (rule_indentation, INDENTATION);
    (rule_type_error, TYPE_ERROR); (rule_linting, LINTING) ].

(** First match wins, with a fallback. *)
Fixpoint first_match (rs : list ((string -> string -> bool) * BugType))
    (fallback : BugType) (error_type message : string) : BugType :=
  match rs with
  | [] => fallback
  | (p, b) :: rs' =>
      if p error_type message then b else first_match rs' fallback error_type message
  end.

End FailureParserAgent.

(** ** [score_agent.py] *)

Module ScoreAgent.

Record ScoreBreakdown := {
  base_score : Z;
  time_bonus : Z;
  commit_penalty : Z;
  final_score : Z
}.

Definition calculate_score (execution_time_seconds commits : Z) : ScoreBreakdown :=
  let base_score := 100 in
  let time_bonus := if execution_time_seconds <? 300 then 10 else 0 in
  let commit_penalty := if commits >? 20 then (commits - 20) * 2 else 0 in
  let final_score := Z.max (base_score + time_bonus - commit_penalty) 0 in
  {| base_score := base_score;
     time_bonus := time_bonus;
     commit_penalty := commit_penalty;
     final_score := final_score |}.

End ScoreAgent.

(** ** Exceptions and results

    The exceptions by class.  A [ValidationError] (of pydantic) is a
    [ValueError] for an [except] clause; where the code catches
    [ValueError], both are caught. *)

Inductive exn :=
| Exception (msg : string)
| ValueError (msg : string)
| ValidationError (msg : string)
| OSError (msg : string)
| OtherError (msg : string).

Inductive result (A : Type) :=
| Ok (a : A)
| Raise (e : exn).
Arguments Ok {A} a.
Arguments Raise {A} e.

(** ** The regular expressions of the sources

    A pattern is a sequence of atoms, matched from left to right with the
    backtracking order of Python's [re]: a repetition first takes as many
    characters as it can and gives them back one at a time, an alternation
    tries its branches in order.  Repetition only ever applies to a
    character class in the patterns of this program. *)

Module Re.
Import PyStr.

Inductive atom :=
| Lit (l : string)                      (* literal text *)
| Rep (c : ascii -> bool) (min : nat)   (* [c+] is [Rep c 1], [c*] is [Rep c 0] *)
| Opt (c : ascii -> bool)               (* [c?] *)
| Alt (ls : list string)                (* [(?:a|b|c)] *)
| OptAlt (ls : list string)             (* [(?:a|b)?] *)
| Open                                  (* start of a capture group *)
| Close                                 (* end of a capture group *)
| Bol                                   (* [^] *)
| Eol                                   (* [$] *)
| End.                                  (* end of the subject, for [fullmatch] *)

Definition pattern := list atom.

(** [.] without the DOTALL flag. *)
Definition dot (c : ascii) : bool := negb (Ascii.eqb c lf).
Definition chr (x : ascii) (c : ascii) : bool := Ascii.eqb c x.
Definition one_of (xs : string) (c : ascii) : bool :=
  contains (String c EmptyString) xs.
Definition quote (c : ascii) : bool := chr squote c || chr dquote c.

(** Reading a literal: the character before the new position and the
    rest of the subject. *)
Fixpoint eat (l : string) (prev : option ascii) (s : string)
    : option (option ascii * string) :=
  match l with
  | EmptyString => Some (prev, s)
  | String a l' =>
      match s with
      | String b s' => if Ascii.eqb a b then eat l' (Some b) s' else None
      | EmptyString => None
      end
  end.

(** The character before the position once [u] has been read. *)
Fixpoint last_char (prev : option ascii) (u : string) : option ascii :=
  match u with
  | EmptyString => prev
  | String c u' => last_char (Some c) u'
  end.

Definition at_bol (ml : bool) (prev : option ascii) : bool :=
  match prev with
  | None => true
  | Some c => ml && Ascii.eqb c lf
  end.

Definition at_eol (ml : bool) (s : string) : bool :=
  match s with
  | EmptyString => true
  | String c s' => Ascii.eqb c lf && (ml || String.eqb s' EmptyString)
  end.

(** What is left to match after an atom: from the character before the
    position, the rest of the subject and the position, the end position
    and the group boundaries of a match, last first. *)
Definition continuation : Type :=
  option ascii -> string -> nat -> option (nat * list nat).

(** A greedy repetition of the class [c], at least [need] times: the
    longest run is tried first, then the shorter ones. *)
Fixpoint rep (c : ascii -> bool) (next : continuation) (prev : option ascii)
    (s : string) (i need : nat) {struct s} : option (nat * list nat) :=
  match s with
  | String x s' =>
      if c x then
        match rep c next (Some x) s' (S i) (Nat.pred need) with
        | Some r => Some r
        | None => if (need =? 0)%nat then next prev s i else None
        end
      else if (need =? 0)%nat then next prev s i else None
  | EmptyString => if (need =? 0)%nat then next prev s i else None
  end.

(** An alternation of literals, tried in order; [otherwise] is what
    happens when no branch leads to a match. *)
Fixpoint alt (next : continuation) (otherwise : option (nat * list nat))
    (prev : option ascii) (s : string) (i : nat) (ls : list string)
    : option (nat * list nat) :=
  match ls with
  | [] => otherwise
  | l :: ls' =>
      match eat l prev s with
      | Some (prev', s') =>
          match next prev' s' (i + String.length l)%nat with
          | Some r => Some r
          | None => alt next otherwise prev s i ls'
          end
      | None => alt next otherwise prev s i ls'
      end
  end.

(** [run ml p prev s i marks]: match [p] at position [i], where [s] is
    what is left of the subject and [prev] the character before it; the
    answer is the end position and the group boundaries met, last first.
    [ml] is the MULTILINE flag. *)
Fixpoint run (ml : bool) (p : pattern) (prev : option ascii) (s : string)
    (i : nat) (marks : list nat) {struct p} : option (nat * list nat) :=
  match p with
  | [] => Some (i, marks)
  | a :: p' =>
      let next : continuation := fun prev s i => run ml p' prev s i marks in
      match a with
      | Lit l =>
          match eat l prev s with
          | Some (prev', s') => next prev' s' (i + String.length l)%nat
          | None => None
          end
      | Rep c min => rep c next prev s i min
      | Opt c =>
          match s with
          | String x s' =>
              if c x then
                match next (Some x) s' (S i) with
                | Some r => Some r
                | None => next prev s i
                end
              else next prev s i
          | EmptyString => next prev s i
          end
      | Alt ls => alt next None prev s i ls
      | OptAlt ls => alt next (next prev s i) prev s i ls
      | Open | Close => run ml p' prev s i (i :: marks)
      | Bol => if at_bol ml prev then next prev s i else None
      | Eol => if at_eol ml s then next prev s i else None
      | End =>
          match s with
          | EmptyString => next prev s i
          | String _ _ => None
          end
      end
  end.

(** The groups of a match, in order, from the boundaries met. *)
Fixpoint groups_of (subject : string) (marks : list nat) : list string :=
  match marks with
  | b :: e :: marks' => String.substring b (e - b) subject :: groups_of subject marks'
  | _ => []
  end.

Record Match := {
  m_start : nat;
  m_end : nat;
  m_groups : list string
}.

(** [m.group(k)], for [k] at least 1. *)
Definition group (k : nat) (m : Match) : string :=
  default EmptyString (m_groups m !! Nat.pred k).

Definition mk_match (subject : string) (start : nat) (r : nat * list nat) : Match :=
  {| m_start := start; m_end := fst r;
     m_groups := groups_of subject (rev (snd r)) |}.

(** [re.match(p, s)]. *)
Definition re_match (ml : bool) (p : pattern) (s : string) : option Match :=
  mk_match s 0 <$> run ml p None s 0 [].

(** [re.fullmatch(p, s)]. *)
Definition re_fullmatch (ml : bool) (p : pattern) (s : string) : option Match :=
  mk_match s 0 <$> run ml (p ++ [End]) None s 0 [].

(** [re.search(p, s)]: the leftmost position where [p] matches. *)
Fixpoint search_from (ml : bool) (p : pattern) (prev : option ascii) (s : string)
    (i : nat) : option (nat * (nat * list nat)) :=
  match run ml p prev s i [] with
  | Some r => Some (i, r)
  | None =>
      match s with
      | EmptyString => None
      | String x s' => search_from ml p (Some x) s' (S i)
      end
  end.

Definition re_search (ml : bool) (p : pattern) (s : string) : option Match :=
  (fun r => mk_match s (fst r) (snd r)) <$> search_from ml p None s 0.

End Re.

(** ** [git_agent.py] *)

Module GitAgent.
Import PyStr Re.

Definition underscore : ascii := "_"%char.

(** The class [[A-Z_]]. *)
Definition upper_or_underscore (c : ascii) : bool := is_upper c || chr underscore c.

(** [BRANCH_PATTERN = re.compile(r"^[A-Z_]+_AI_Fix$")]. *)
Definition BRANCH_PATTERN : pattern :=
  [Bol; Rep upper_or_underscore 1; Lit "_AI_Fix"; Eol].

Definition COMMIT_PREFIX : string := "[AI-AGENT]".

Definition PROTECTED_BRANCHES : list string := ["main"; "master"].

(** [value.replace(" ", "_")]. *)
Definition spaces_to_underscores : string -> string :=
  map_chars (fun c => if chr " "%char c then underscore else c).

(** [re.sub(r"_+", "_", s)]: an underscore followed by another one is
    dropped, so that every run of underscores leaves its last one. *)
Fixpoint collapse_underscores (s : string) : string :=
  match s with
  | EmptyString => EmptyString
  | String c s' =>
      if chr underscore c then
        match s' with
        | String c2 _ =>
            if chr underscore c2 then collapse_underscores s'
            else String c (collapse_underscores s')
        | EmptyString => String c EmptyString
        end
      else String c (collapse_underscores s')
  end.

(** [re.sub(r"[^A-Z_]", "", uppercase)] keeps the characters of [[A-Z_]]. *)
Definition _normalize (value : string) : string :=
  let uppercase := spaces_to_underscores (upper value) in
  let normalized := filter_chars upper_or_underscore uppercase in
  strip_by (chr underscore) (collapse_underscores normalized).

(** The shape of a normalized name: every underscore is followed by
    another character, which is not an underscore; [last] tells whether an
    underscore may end the string. *)
Fixpoint separated (last : bool) (s : string) : bool :=
  match s with
  | EmptyString => true
  | String c s' =>
      (if chr underscore c then
         match s' with
         | EmptyString => last
         | String c2 _ => negb (chr underscore c2)
         end
       else true)
      && separated last s'
  end.

(** Words over [[A-Z_]] whose underscores only stand between letters. *)
Definition normal (s : string) : bool :=
  all_chars upper_or_underscore s
  && negb (startswith s "_")
  && separated false s.

Definition build_branch_name (team_name leader_name : string) : string :=
  let normalized_team := _normalize team_name in
  let normalized_leader := _normalize leader_name in
  normalized_team +:+ "_" +:+ normalized_leader +:+ "_AI_Fix".

Definition validate_branch_name (branch_name : string) : bool :=
  bool_decide (is_Some (re_fullmatch false BRANCH_PATTERN branch_name))
  && endswith branch_name "_AI_Fix".

Definition validate_commit_prefix (commit_message : string) : bool :=
  startswith commit_message COMMIT_PREFIX.

Definition ensure_not_main_branch (branch_name : string) : result unit :=
  if bool_decide (lower branch_name ∈ PROTECTED_BRANCHES)
  then Raise (ValueError "Push to protected branch is not allowed")
  else Ok tt.

Definition enforce_branch_name (branch_name : string) : result unit :=
  if negb (validate_branch_name branch_name)
  then Raise (ValueError "Branch name must match TEAM_NAME_LEADER_NAME_AI_Fix format")
  else Ok tt.

Definition enforce_commit_prefix (commit_message : string) : result unit :=
  if negb (validate_commit_prefix commit_message)
  then Raise (ValueError "Commit message must start with [AI-AGENT]")
  else Ok tt.

End GitAgent.

(** Sequencing of code that may raise. *)
Global Instance result_ret : MRet result := λ A a, Ok a.
Global Instance result_bind : MBind result :=
  λ A B f m, match m with Ok a => f a | Raise e => Raise e end.

(** A Python [dict] literal with distinct keys, read with [d.get(k)]. *)
Fixpoint dict_get {K V : Type} `{EqDecision K} (k : K) (d : list (K * V)) : option V :=
  match d with
  | [] => None
  | (k', v) :: d' => if decide (k = k') then Some v else dict_get k d'
  end.

(** ** The working tree

    The files of the checked-out repository, each under the place the
    system resolves its path to: two spellings of a path that name the
    same file (through [..], a doubled slash or a link) resolve to the same
    place.  A file that cannot be opened for reading (no permission, a
    directory, bytes that are not UTF-8) is not [readable]; one that
    cannot be opened for writing is not [writable] and stays as it is.
    Opening a file for writing empties it; [write_fault] tells whether the
    write that follows goes through, or fails once that many bytes are in
    the file.  Line ends are written as they are (as on POSIX). *)

Module FileSystem.
Import PyStr.

Record node := {
  content : string;
  readable : bool;
  writable : bool;
  write_fault : option nat
}.

Abbreviation FS := (gmap string node).

(** What the system makes of a path as written when the path is looked up
    ([os.stat]): it resolves it to a place, where a file may be or not, or
    it refuses it with an [OSError] that does not mean absence (a name too
    long, a directory that may not be searched). *)
Inductive resolution :=
| Resolves (place : string)
| Refuses (e : exn).

(** [Path(repo_path) / file], as written: an absolute [file] replaces the
    root. *)
Definition path_join (repo_path file : string) : string :=
  if startswith file "/" then file else repo_path +:+ "/" +:+ file.

(** [file_path.exists()] for a path the system resolved to [place]. *)
Definition path_exists (fs : FS) (place : string) : bool :=
  bool_decide (is_Some (fs !! place)).

(** Text mode translates a carriage return, alone or before a line feed,
    to a line feed when reading. *)
Fixpoint universal_newlines (s : string) : string :=
  match s with
  | EmptyString => EmptyString
  | String c s' =>
      if Ascii.eqb c cr then
        match s' with
        | String c2 s'' =>
            if Ascii.eqb c2 lf then String lf (universal_newlines s'')
            else String lf (universal_newlines s')
        | EmptyString => String lf EmptyString
        end
      else String c (universal_newlines s')
  end.

(** [with open(path, 'r', encoding='utf-8') as f: f.read()]. *)
Definition read_text (fs : FS) (path : string) : result string :=
  match fs !! path with
  | Some n =>
      if readable n then Ok (universal_newlines (content n))
      else Raise (OSError "cannot read")
  | None => Raise (OSError "no such file")
  end.

(** [with open(path, 'w', encoding='utf-8') as f: f.write(data)]: the
    tree it leaves, and whether it raised. *)
Definition write_text (fs : FS) (path data : string) : FS * result unit :=
  match fs !! path with
  | Some n =>
      if writable n then
        match write_fault n with
        | None =>
            (<[path := {| content := data; readable := readable n; writable := true;
                          write_fault := None |}]> fs, Ok tt)
        | Some kept =>
            (<[path := {| content := String.substring 0 kept data; readable := readable n;
                          writable := true; write_fault := Some kept |}]> fs,
             Raise (OSError "cannot write"))
        end
      else (fs, Raise (OSError "cannot open for writing"))
  | None =>
      (<[path := {| content := data; readable := true; writable := true;
                    write_fault := None |}]> fs, Ok tt)
  end.

End FileSystem.

(** ** [fix_agent.py] *)

Module FixAgent.
Import PyStr Re FileSystem.

Record FixProposal := {
  fp_file : string;
  fp_line_number : Z;
  fp_bug_type : BugType;
  fp_commit_message : string;
  fp_strict_output : string
}.

(** What a caller passes as [bug_type]: a member of the enumeration, or
    an object that equals none of them, kept by its printed form. *)
Inductive bug_arg :=
| Member (b : BugType)
| Outside (printed : string).

Definition FIX_MAPPING : list (BugType * string) :=
  [ (IMPORT, "add the missing import statement");
    (SYNTAX, "add the missing colon at the correct position");
    (INDENTATION, "correct the indentation");
    (TYPE_ERROR, "correct the type usage");
    (LOGIC, "correct the return statement logic");
    (LINTING, "remove the unused import statement") ].

Definition _generate_deterministic_fix (bug_type : bug_arg) : result string :=
  match bug_type with
  | Member b =>
      match dict_get b FIX_MAPPING with
      | Some phrase => Ok phrase
      | None =>
          Raise (Exception ("Strict output format violation: Unknown bug type "
                            +:+ BugType_value b))
      end
  | Outside printed =>
      Raise (Exception ("Strict output format violation: Unknown bug type " +:+ printed))
  end.

(** The fix phrase of each category as the specification lists them. *)
Definition canonical_phrase (b : BugType) : string :=
  match b with
  | IMPORT => "add the missing import statement"
  | SYNTAX => "add the missing colon at the correct position"
  | INDENTATION => "correct the indentation"
  | TYPE_ERROR => "correct the type usage"
  | LOGIC => "correct the return statement logic"
  | LINTING => "remove the unused import statement"
  end.

(** [pattern = r"^[A-Z_]+ error in .+ line \d+ → Fix: .+$"]. *)
Definition STRICT_PATTERN : pattern :=
  [Bol; Rep GitAgent.upper_or_underscore 1; Lit " error in "; Rep dot 1; Lit " line ";
   Rep is_digit 1; Lit " → Fix: "; Rep dot 1; Eol].

Definition _validate_strict_output_format (strict_output : string) : result unit :=
  match re_match false STRICT_PATTERN strict_output with
  | None => Raise (Exception ("Strict output format violation: " +:+ strict_output))
  | Some _ => Ok tt
  end.

(** The f-string of [generate_fix]. *)
Definition strict_output_of (b : BugType) (file : string) (line_number : Z)
    (specific_fix : string) : string :=
  BugType_value b +:+ " error in " +:+ file +:+ " line " +:+ str_of_int line_number
    +:+ " → Fix: " +:+ specific_fix.

Definition generate_fix (file : string) (line_number : Z) (bug_type : bug_arg)
    (message : string) : result FixProposal :=
  specific_fix ← _generate_deterministic_fix bug_type;
  match bug_type with
  | Outside printed => Raise (OtherError "no attribute value")
  | Member b =>
      let strict_output := strict_output_of b file line_number specific_fix in
      _ ← _validate_strict_output_format strict_output;
      mret {| fp_file := file;
              fp_line_number := line_number;
              fp_bug_type := b;
              fp_commit_message :=
                "[AI-AGENT] Fix " +:+ lower (BugType_value b) +:+ " issue in " +:+ file;
              fp_strict_output := strict_output |}
  end.

Definition common_imports : list (string * string) :=
  [ ("pytest", "import pytest");
    ("unittest", "import unittest");
    ("os", "import os");
    ("sys", "import sys");
    ("json", "import json");
    ("time", "import time");
    ("datetime", "from datetime import datetime");
    ("path", "from pathlib import Path");
    ("calculator", "from calculator import Calculator");
    ("add", "from math_utils import add, multiply, divide");
    ("multiply", "from math_utils import add, multiply, divide");
    ("divide", "from math_utils import add, multiply, divide") ].

(** [no module named ['Q]?(\w+)['Q]?], Q standing for the double quote. *)
Definition NO_MODULE_PATTERN : pattern :=
  [Lit "no module named "; Opt quote; Open; Rep is_word 1; Close; Opt quote].

(** [name ['Q]?(\w+)['Q]? is not defined]. *)
Definition NAME_PATTERN : pattern :=
  [Lit "name "; Opt quote; Open; Rep is_word 1; Close; Opt quote; Lit " is not defined"].

Definition compound_keywords : list string :=
  ["def "; "class "; "if "; "elif "; "else"; "for "; "while "; "try"; "except";
   "finally"; "with "].

Definition nl : string := String lf EmptyString.

(** [lines[k]] for an index in range. *)
Definition nth_line (lines : list string) (k : Z) : string :=
  default EmptyString (lines !! Z.to_nat k).

Definition in_lines (line_number : Z) (lines : list string) : bool :=
  (0 <? line_number) && (line_number <=? Z.of_nat (List.length lines)).

(** The block of [_generate_fix_with_heuristics] for import errors:
    [Some r] when it returns [r], [None] when control leaves the block. *)
Definition import_block (original_content message_lower error_lower : string)
    : option string :=
  if contains "modulenotfounderror" error_lower
     || (contains "no module named" message_lower
         && negb (contains "import" message_lower))
  then Some EmptyString
  else
    let missing_module :=
      if contains "no module named" message_lower && contains "import" message_lower then
        match re_search false NO_MODULE_PATTERN message_lower with
        | Some m =>
            let module_name := group 1 m in
            Some ("import " +:+ module_name +:+ nl +:+ nl +:+ original_content)
        | None => None
        end
      else None in
    match missing_module with
    | Some r => Some r
    | None =>
        if contains "name" message_lower && contains "is not defined" message_lower then
          match re_search false NAME_PATTERN message_lower with
          | Some m =>
              let name := group 1 m in
              match dict_get (lower name) common_imports with
              | Some stmt => Some (stmt +:+ nl +:+ nl +:+ original_content)
              | None => None
              end
          | None => None
          end
        else None
    end.

(** The block for syntax errors, entered with [line_number] in range. *)
Definition syntax_block (lines : list string) (line_number : Z)
    (message_lower : string) : option string :=
  let line := nth_line lines (line_number - 1) in
  let missing_colon :=
    if contains "expected ':'" message_lower || contains "invalid syntax" message_lower then
      if negb (String.eqb (strip line) EmptyString)
         && negb (endswith (rstrip line) ":") then
        if existsb (fun keyword => contains keyword line) compound_keywords then
          Some (String.concat EmptyString
                  (<[Z.to_nat (line_number - 1) := rstrip line +:+ ":" +:+ nl]> lines))
        else None
      else None
    else None in
  match missing_colon with
  | Some r => Some r
  | None =>
      if contains "unclosed" message_lower || contains "unmatched" message_lower then
        let open_count := count_char "("%char line - count_char ")"%char line in
        if 0 <? open_count then
          Some (String.concat EmptyString
                  (<[Z.to_nat (line_number - 1) :=
                       rstrip line +:+ repeat_char ")"%char (Z.to_nat open_count) +:+ nl]>
                     lines))
        else None
      else None
  end.

(** The block for indentation errors, entered with [line_number] in range. *)
Definition indentation_block (lines : list string) (line_number : Z) : option string :=
  if 1 <? line_number then
    let prev_line := nth_line lines (line_number - 2) in
    let prev_indent := (String.length prev_line - String.length (lstrip prev_line))%nat in
    let current_line := nth_line lines (line_number - 1) in
    let current_content := lstrip current_line in
    Some (String.concat EmptyString
            (<[Z.to_nat (line_number - 1) := spaces prev_indent +:+ current_content]> lines))
  else None.

(** The block for type errors reads the line and ends in [pass]; the block
    for logic errors looks for the assertion and the assignment of its
    variable and only writes to the log.  Neither returns. *)
Definition type_error_block (lines : list string) (line_number : Z)
    (message_lower : string) : option string :=
  None.

Definition logic_block (lines : list string) (line_number : Z)
    (error_lower : string) : option string :=
  None.

Definition _generate_fix_with_heuristics (original_content : string) (line_number : Z)
    (bug_type : BugType) (error_type message : string) : string :=
  let lines := splitlines true original_content in
  let message_lower := lower message in
  let error_lower := lower error_type in
  let r1 :=
    if bool_decide (bug_type = IMPORT) || contains "import" error_lower
    then import_block original_content message_lower error_lower
    else None in
  match r1 with
  | Some r => r
  | None =>
      let r2 :=
        if bool_decide (bug_type = SYNTAX) && in_lines line_number lines
        then syntax_block lines line_number message_lower
        else None in
      match r2 with
      | Some r => r
      | None =>
          let r3 :=
            if bool_decide (bug_type = INDENTATION) && in_lines line_number lines
            then indentation_block lines line_number
            else None in
          match r3 with
          | Some r => r
          | None =>
              let r4 :=
                if bool_decide (bug_type = TYPE_ERROR) && in_lines line_number lines
                then type_error_block lines line_number message_lower
                else None in
              match r4 with
              | Some r => r
              | None =>
                  let r5 :=
                    if bool_decide (bug_type = LOGIC)
                    then logic_block lines line_number error_lower
                    else None in
                  match r5 with
                  | Some r => r
                  | None => EmptyString
                  end
              end
          end
      end
  end.

Definition _generate_fixed_content (original_content file_path : string)
    (line_number : Z) (bug_type : BugType) (error_type message context_str : string)
    : string :=
  _generate_fix_with_heuristics original_content line_number bug_type error_type message.

(** The three ways [ast.parse] ends: a tree, a [SyntaxError], or another
    exception (which [apply_fix] does not catch). *)
Inductive parse_outcome :=
| ParseOk
| ParseSyntaxError
| ParseRaises (e : exn).

(** The candidate [apply_fix] computes for a file it could read, and the
    line numbers it accepts for it. *)
Definition candidate (n : node) (line_number : Z) (bug_type : BugType)
    (message error_type : string) : string :=
  _generate_fix_with_heuristics (universal_newlines (content n)) line_number bug_type
    error_type message.


Section apply.
(** The Python parser is outside the program. *)
Variable ast_parse : string -> parse_outcome.

(** [apply_fix] from its first read on, for a target the system resolved
    to [place]: the working tree after the call and what it returns. *)
Definition apply_fix_at (fs : FS) (place file : string) (line_number : Z)
    (bug_type : BugType) (message error_type : string) : FS * result bool :=
  if negb (path_exists fs place) then (fs, Ok false)
  else
    match read_text fs place with
    | Raise _ => (fs, Ok false)
    | Ok original_content =>
        let original_lines := splitlines false original_content in
        if (line_number <? 1) || (Z.of_nat (List.length original_lines) <? line_number)
        then (fs, Ok false)
        else
          let fixed_content :=
            _generate_fixed_content original_content file line_number bug_type
              error_type message EmptyString in
          if String.eqb fixed_content EmptyString
             || String.eqb fixed_content original_content
          then (fs, Ok false)
          else
            match ast_parse fixed_content with
            | ParseSyntaxError => (fs, Ok false)
            | ParseRaises e => (fs, Raise e)
            | ParseOk =>
                match write_text fs place fixed_content with
                | (fs', Ok _) => (fs', Ok true)
                | (fs', Raise _) => (fs', Ok false)
                end
            end
    end.

(** [apply_fix], where [os] is what the system makes of the target path:
    [file_path.exists()] stands outside every [try], so that a path the
    system refuses ends the call with the [OSError]. *)
Definition apply_fix_on (os : string -> resolution) (fs : FS) (repo_path file : string)
    (line_number : Z) (bug_type : BugType) (message error_type : string)
    : FS * result bool :=
  let file_path := path_join repo_path file in
  match os file_path with
  | Refuses e => (fs, Raise e)
  | Resolves place =>
      apply_fix_at fs place file line_number bug_type message error_type
  end.

(** [apply_fix] on a system that takes every path as written: it refuses
    no name, and no two spellings name the same file. *)
Definition apply_fix (fs : FS) (repo_path file : string) (line_number : Z)
    (bug_type : BugType) (message error_type : string) : FS * result bool :=
  apply_fix_on Resolves fs repo_path file line_number bug_type message error_type.
End apply.

End FixAgent.

(** ** [test_agent.py] *)

Module TestAgent.
Import PyStr Re.

Record TestFailure := {
  file : string;
  line_number : Z;
  message : string;
  error_type : string;
  full_traceback : string
}.

Record TestRunResult := {
  passed : bool;
  failures : list TestFailure
}.

(** What the sandboxed test process hands back. *)
Record CompletedProcess := {
  returncode : Z;
  stdout : string;
  stderr : string
}.

Definition nl : string := String lf EmptyString.
Definition dq : string := String dquote EmptyString.

(** [re.compile(r'File Q([^Q]+)Q, line (\d+)')], Q standing for the
    double quote. *)
Definition traceback_pattern : pattern :=
  [Lit ("File " +:+ dq); Open; Rep (fun c => negb (chr dquote c)) 1; Close;
   Lit (dq +:+ ", line "); Open; Rep is_digit 1; Close].

(** The class [[\w./\\-]]. *)
Definition location_char (c : ascii) : bool := is_word c || one_of "./\-" c.

(** [re.compile(r'^([\w./\\-]+\.py):(\d+):\s+in\s+\w+', re.MULTILINE)]. *)
Definition pytest_location_pattern : pattern :=
  [Bol; Open; Rep location_char 1; Lit ".py"; Close; Lit ":"; Open; Rep is_digit 1; Close;
   Lit ":"; Rep is_space 1; Lit "in"; Rep is_space 1; Rep is_word 1].

(** [re.compile(r'^E\s+(\w+(?:Error|Exception|Failure)):\s*(.+)$', re.MULTILINE)]. *)
Definition pytest_error_pattern : pattern :=
  [Bol; Lit "E"; Rep is_space 1; Open; Rep is_word 1;
   Alt ["Error"; "Exception"; "Failure"]; Close; Lit ":"; Rep is_space 0;
   Open; Rep dot 1; Close; Eol].

(** [re.compile(r'^(\w*(?:Error|Exception|Failure)):\s*(.+)', re.MULTILINE)]. *)
Definition error_type_pattern : pattern :=
  [Bol; Open; Rep is_word 0; Alt ["Error"; "Exception"; "Failure"]; Close; Lit ":";
   Rep is_space 0; Open; Rep dot 1; Close].

(** [r'([\w./]+\.py):(\d+):']. *)
Definition setup_location_pattern : pattern :=
  [Open; Rep (fun c => is_word c || one_of "./" c) 1; Lit ".py"; Close; Lit ":";
   Open; Rep is_digit 1; Close; Lit ":"].

(** [r'E\s+(\w+(?:Error|Exception)?)\s*:\s*(.+)']. *)
Definition setup_error_pattern : pattern :=
  [Lit "E"; Rep is_space 1; Open; Rep is_word 1; OptAlt ["Error"; "Exception"]; Close;
   Rep is_space 0; Lit ":"; Rep is_space 0; Open; Rep dot 1; Close].

Definition _normalize_file_path (file_path repo_path : string) : string :=
  let file_path :=
    if startswith file_path repo_path
    then lstrip_by (chr "/"%char) (drop (String.length repo_path) file_path)
    else file_path in
  let file_path :=
    if startswith file_path "/workspace/"
    then drop (String.length "/workspace/") file_path
    else file_path in
  if startswith file_path "./" then drop 2 file_path else file_path.

(** The locals of [_parse_pytest_output] that live across the loop. *)
Record parse_state := {
  st_failures : list TestFailure;
  st_seen : gset (string * Z);
  current_file : option string;
  current_line : option Z;
  current_error_type : string;
  current_message : string;
  current_traceback : list string
}.

Definition initial_state : parse_state :=
  {| st_failures := []; st_seen := ∅; current_file := None; current_line := None;
     current_error_type := "UnknownError"; current_message := EmptyString;
     current_traceback := [] |}.

(** Truth value of [current_file and current_line]. *)
Definition file_truthy (f : option string) : bool :=
  match f with
  | Some s => negb (String.eqb s EmptyString)
  | None => false
  end.

Definition line_truthy (l : option Z) : bool :=
  match l with
  | Some n => negb (n =? 0)
  | None => false
  end.

(** [if key not in seen: seen.add(key); failures.append(f)]. *)
Definition record_once (f : TestFailure) (failures : list TestFailure)
    (seen : gset (string * Z)) : list TestFailure * gset (string * Z) :=
  let key := (file f, line_number f) in
  if bool_decide (key ∈ seen) then (failures, seen)
  else (failures ++ [f], {[key]} ∪ seen).

(** First part of the loop body: a location line sets the candidate. *)
Definition on_location (repo_path line : string) (st : parse_state) : parse_state :=
  match re_search true pytest_location_pattern line with
  | Some m =>
      {| st_failures := st_failures st; st_seen := st_seen st;
         current_file := Some (_normalize_file_path (group 1 m) repo_path);
         current_line := Some (int_of_digits (group 2 m));
         current_error_type := current_error_type st;
         current_message := current_message st;
         current_traceback := [line] |}
  | None => st
  end.

(** The candidate record of the pytest style on an error line. *)
Definition pytest_candidate (line : string) (m : Match) (st : parse_state) : TestFailure :=
  {| file := default EmptyString (current_file st);
     line_number := default 0 (current_line st);
     message := strip (group 2 m);
     error_type := group 1 m;
     full_traceback := join nl (current_traceback st ++ [line]) |}.

Definition append_traceback (line : string) (st : parse_state) : parse_state :=
  match current_traceback st with
  | [] => st
  | _ :: _ =>
      {| st_failures := st_failures st; st_seen := st_seen st;
         current_file := current_file st; current_line := current_line st;
         current_error_type := current_error_type st;
         current_message := current_message st;
         current_traceback := current_traceback st ++ [line] |}
  end.

(** Second part: an error line closes the candidate, which is recorded
    unless its key was seen, and the candidate is reset. *)
Definition on_error (line : string) (st : parse_state) : parse_state :=
  match re_search true pytest_error_pattern line with
  | Some m =>
      if file_truthy (current_file st) && line_truthy (current_line st) then
        let '(failures, seen) :=
          record_once (pytest_candidate line m st) (st_failures st) (st_seen st) in
        {| st_failures := failures; st_seen := seen;
           current_file := None; current_line := None;
           current_error_type := "UnknownError"; current_message := EmptyString;
           current_traceback := [] |}
      else append_traceback line st
  | None => append_traceback line st
  end.

(** The look-ahead of the traceback style over the next lines. *)
Fixpoint look_ahead (ahead : list string) (error_type message full_traceback : string)
    : string * string * string :=
  match ahead with
  | [] => (error_type, message, full_traceback)
  | l :: ahead' =>
      let full_traceback := full_traceback +:+ nl +:+ l in
      match re_search true error_type_pattern l with
      | Some m => (group 1 m, strip (group 2 m), full_traceback)
      | None => look_ahead ahead' error_type message full_traceback
      end
  end.

(** The candidate record of the traceback style; [ahead] holds the lines
    [lines[i+1 : i+5]]. *)
Definition traceback_candidate (repo_path line : string) (ahead : list string)
    (m : Match) : TestFailure :=
  let file_path := _normalize_file_path (group 1 m) repo_path in
  let line_number := int_of_digits (group 2 m) in
  let '(error_type, message, full_traceback) :=
    look_ahead ahead "UnknownError" "Test failure" line in
  {| file := file_path; line_number := line_number; message := message;
     error_type := error_type; full_traceback := strip full_traceback |}.

(** Third part: a traceback line is recorded at once. *)
Definition on_traceback (repo_path line : string) (ahead : list string)
    (st : parse_state) : parse_state :=
  match re_search false traceback_pattern line with
  | Some m =>
      let f := traceback_candidate repo_path line ahead m in
      if endswith (file f) ".py" then
        let '(failures, seen) := record_once f (st_failures st) (st_seen st) in
        {| st_failures := failures; st_seen := seen;
           current_file := current_file st; current_line := current_line st;
           current_error_type := current_error_type st;
           current_message := current_message st;
           current_traceback := current_traceback st |}
      else st
  | None => st
  end.

Definition loop_body (repo_path line : string) (ahead : list string)
    (st : parse_state) : parse_state :=
  on_traceback repo_path line ahead (on_error line (on_location repo_path line st)).

(** [while i < len(lines)]: [lines] is what is left from index [i] on. *)
Fixpoint parse_loop (repo_path : string) (lines : list string) (st : parse_state)
    : parse_state :=
  match lines with
  | [] => st
  | line :: rest => parse_loop repo_path rest (loop_body repo_path line (take 4 rest) st)
  end.

Definition _parse_pytest_output (output repo_path : string) : list TestFailure :=
  st_failures (parse_loop repo_path (split lf output) initial_state).

(** What the steps after the extraction need of a record: a file name
    that is not empty and has no line feed, and a line number that is not
    negative. *)
Definition well_formed (f : TestFailure) : Prop :=
  file f <> EmptyString /\ all_chars dot (file f) = true /\ 0 <= line_number f.

(** The same of the candidate the loop holds. *)
Definition candidate_ok (st : parse_state) : Prop :=
  match current_file st with
  | Some f => all_chars dot f = true
  | None => True
  end
  /\ match current_line st with
     | Some n => 0 <= n
     | None => True
     end.

(** The uniqueness key of a record. *)
Definition key (f : TestFailure) : string * Z := (file f, line_number f).

(** The deduplication as the specification words it: of the records
    matched, in order, the first one of each key is kept; [seen] holds
    the keys already taken. *)
Fixpoint keep_first (seen : gset (string * Z)) (l : list TestFailure)
    : list TestFailure :=
  match l with
  | [] => []
  | f :: l' =>
      if bool_decide (key f ∈ seen) then keep_first seen l'
      else f :: keep_first ({[key f]} ∪ seen) l'
  end.

(** The records matched at one line, pytest style first, then traceback
    style, whether or not their key was seen; [st] is the state of the
    loop before the line. *)
Definition candidates_at (repo_path line : string) (ahead : list string)
    (st : parse_state) : list TestFailure :=
  let st1 := on_location repo_path line st in
  match re_search true pytest_error_pattern line with
  | Some m =>
      if file_truthy (current_file st1) && line_truthy (current_line st1)
      then [pytest_candidate line m st1]
      else []
  | None => []
  end
  ++
  match re_search false traceback_pattern line with
  | Some m =>
      let f := traceback_candidate repo_path line ahead m in
      if endswith (file f) ".py" then [f] else []
  | None => []
  end.

(** The records matched over the lines left, in order. *)
Fixpoint candidates (repo_path : string) (lines : list string) (st : parse_state)
    : list TestFailure :=
  match lines with
  | [] => []
  | line :: rest =>
      candidates_at repo_path line (take 4 rest) st
      ++ candidates repo_path rest (loop_body repo_path line (take 4 rest) st)
  end.

(** The locals of [_parse_setup_error]. *)
Record setup_state := {
  error_file : option string;
  error_line : Z;
  su_error_type : string;
  error_message : string;
  su_full_traceback : string
}.

Definition starts_with_E (line : string) : bool := startswith (strip line) "E   ".

Definition setup_body (repo_path line : string) (st : setup_state) : setup_state :=
  let '(error_file1, error_line1) :=
    match re_search false setup_location_pattern line with
    | Some m =>
        if negb (file_truthy (error_file st))
        then (Some (_normalize_file_path (group 1 m) repo_path), int_of_digits (group 2 m))
        else (error_file st, error_line st)
    | None => (error_file st, error_line st)
    end in
  let '(error_type1, error_message1) :=
    if starts_with_E line then
      match re_search false setup_error_pattern line with
      | Some m => (group 1 m, strip (group 2 m))
      | None => (su_error_type st, error_message st)
      end
    else (su_error_type st, error_message st) in
  {| error_file := error_file1; error_line := error_line1;
     su_error_type := error_type1; error_message := error_message1;
     su_full_traceback :=
       if file_truthy error_file1 || starts_with_E line
       then su_full_traceback st +:+ line +:+ nl
       else su_full_traceback st |}.

Definition _parse_setup_error (output repo_path : string) : option TestFailure :=
  let st :=
    foldl (fun st line => setup_body repo_path line st)
      {| error_file := None; error_line := 1; su_error_type := "ImportError";
         error_message := "Setup/configuration error";
         su_full_traceback := EmptyString |}
      (split lf output) in
  if file_truthy (error_file st) then
    Some {| file := default EmptyString (error_file st);
            line_number := error_line st;
            message := error_message st;
            error_type := su_error_type st;
            full_traceback := strip (su_full_traceback st) |}
  else None.

(** What one line tells [_parse_setup_error]: a location (normalized file
    and line), and, on a line that starts with the error mark, an error
    type and message. *)
Definition setup_location (repo_path line : string) : option (string * Z) :=
  match re_search false setup_location_pattern line with
  | Some m => Some (_normalize_file_path (group 1 m) repo_path, int_of_digits (group 2 m))
  | None => None
  end.

Definition setup_error (line : string) : option (string * string) :=
  if starts_with_E line then
    match re_search false setup_error_pattern line with
    | Some m => Some (group 1 m, strip (group 2 m))
    | None => None
    end
  else None.

(** The loop of [_parse_setup_error] over some lines. *)
Definition setup_loop (repo_path : string) (lines : list string) (st : setup_state)
    : setup_state :=
  foldl (fun st line => setup_body repo_path line st) st lines.

(** [combined_output = f"{completed.stdout}\n{completed.stderr}"]. *)
Definition combined_output (completed : CompletedProcess) : string :=
  stdout completed +:+ nl +:+ stderr completed.

Definition extraction_failure : exn :=
  ValueError "Tests failed but no structured failures could be extracted from pytest output".

(** [run_tests], from what its two collaborators gave: whether the
    discovery found a test file, and the outcome of the sandboxed run
    (looked at only when a test file was found). *)
Definition run_tests (test_files_found : bool) (run_pytest : result CompletedProcess)
    (repo_path : string) : result TestRunResult :=
  if negb test_files_found
  then Raise (ValueError ("No test files found in repository " +:+ repo_path))
  else
    completed ← run_pytest;
    let combined_output := combined_output completed in
    if returncode completed =? 0 then mret {| passed := true; failures := [] |}
    else
      let setup_failure :=
        if returncode completed =? 4 then _parse_setup_error combined_output repo_path
        else None in
      match setup_failure with
      | Some f => mret {| passed := false; failures := [f] |}
      | None =>
          let failures := _parse_pytest_output combined_output repo_path in
          match failures with
          | [] => Raise extraction_failure
          | _ :: _ => mret {| passed := false; failures := failures |}
          end
      end.

End TestAgent.

(** ** [orchestrator.py] *)

Module Orchestrator.
Import PyStr FileSystem TestAgent.

Record FixRecord := {
  fr_file : string;
  fr_bug_type : BugType;
  fr_line_number : Z;
  fr_commit_message : string;
  fr_status : FixStatus;
  fr_strict_output : string
}.

Record CITimelineRecord := {
  ci_iteration : Z;
  ci_status : RunStatus;
  ci_timestamp : string
}.

Record ResultsSchema := {
  repository : string;
  team_name : string;
  leader_name : string;
  branch_name : string;
  total_failures : Z;
  total_fixes : Z;
  iterations_used : Z;
  retry_limit : Z;
  commits : Z;
  final_status : RunStatus;
  execution_time_seconds : Z;
  score : Z;
  score_base : Z;
  score_time_bonus : Z;
  score_commit_penalty : Z;
  fixes : list FixRecord;
  ci_timeline : list CITimelineRecord
}.

(** [RunState], without its two time stamps. *)
Record RunState := {
  run_id : string;
  status : RunStatus;
  results : ResultsSchema
}.

Record RunAgentRequest := {
  repo_url : string;
  req_team_name : string;
  req_leader_name : string
}.

(** [ci_agent.CIStatus] and [repo_agent.RepoInfo]. *)
Record CIStatus := {
  cs_status : string;
  cs_timestamp : string;
  cs_details : string
}.

Record RepoInfo := {
  repo_path : string;
  language : string
}.

(** The collaborators outside the core, each by what it answers.  Those
    called once per iteration take the iteration number. *)
Record Collaborators := {
  analyze_repository : string -> string -> result RepoInfo;
  existing_branches : string -> result (list string);
  git_checkout_new : string -> string -> result unit;
  test_files_found : Z -> FS -> bool;
  run_pytest : Z -> FS -> result CompletedProcess;
  os_path : string -> resolution;
  ast_parse : string -> FixAgent.parse_outcome;
  is_dirty : Z -> FS -> result bool;
  git_push : Z -> string -> result unit;
  poll_workflow_status : Z -> string -> string -> result CIStatus;
  utc_now : Z -> string;
  elapsed_seconds : Z
}.

(** The state a run works on: the working tree and the run's record. *)
Record World := {
  w_fs : FS;
  w_run : RunState
}.

(** Code that reads and writes the world and may raise; what was written
    before an exception stays written. *)
Definition M (A : Type) : Type := World -> World * result A.

Definition ret {A} (a : A) : M A := fun w => (w, Ok a).

Definition bind {A B} (m : M A) (f : A -> M B) : M B :=
  fun w =>
    match m w with
    | (w', Ok a) => f a w'
    | (w', Raise e) => (w', Raise e)
    end.

Definition lift {A} (r : result A) : M A := fun w => (w, r).

Definition get_fs : M FS := fun w => (w, Ok (w_fs w)).
Definition get_run : M RunState := fun w => (w, Ok (w_run w)).

Definition modify_results (f : ResultsSchema -> ResultsSchema) : M unit :=
  fun w =>
    ({| w_fs := w_fs w;
        w_run := {| run_id := run_id (w_run w); status := status (w_run w);
                    results := f (results (w_run w)) |} |}, Ok tt).

Definition set_status_of (s : RunStatus) (r : RunState) : RunState :=
  {| run_id := run_id r; status := s; results := results r |}.

Definition set_status (s : RunStatus) : M unit :=
  fun w => ({| w_fs := w_fs w; w_run := set_status_of s (w_run w) |}, Ok tt).

Notation "'do' x <- m ; k" := (bind m (fun x => k))
  (at level 10, x name, m at level 100, k at level 200).
Notation "m ;; k" := (bind m (fun _ => k))
  (at level 100, k at level 200, right associativity).

(** Field updates of [ResultsSchema]. *)
Definition with_branch_name (v : string) (r : ResultsSchema) : ResultsSchema :=
  {| repository := repository r; team_name := team_name r; leader_name := leader_name r;
     branch_name := v; total_failures := total_failures r;
     total_fixes := total_fixes r; iterations_used := iterations_used r;
     retry_limit := retry_limit r; commits := commits r; final_status := final_status r;
     execution_time_seconds := execution_time_seconds r; score := score r;
     score_base := score_base r; score_time_bonus := score_time_bonus r;
     score_commit_penalty := score_commit_penalty r; fixes := fixes r;
     ci_timeline := ci_timeline r |}.

Definition with_total_failures (v : Z) (r : ResultsSchema) : ResultsSchema :=
  {| repository := repository r; team_name := team_name r; leader_name := leader_name r;
     branch_name := branch_name r; total_failures := v;
     total_fixes := total_fixes r; iterations_used := iterations_used r;
     retry_limit := retry_limit r; commits := commits r; final_status := final_status r;
     execution_time_seconds := execution_time_seconds r; score := score r;
     score_base := score_base r; score_time_bonus := score_time_bonus r;
     score_commit_penalty := score_commit_penalty r; fixes := fixes r;
     ci_timeline := ci_timeline r |}.

Definition with_total_fixes (v : Z) (r : ResultsSchema) : ResultsSchema :=
  {| repository := repository r; team_name := team_name r; leader_name := leader_name r;
     branch_name := branch_name r; total_failures := total_failures r;
     total_fixes := v; iterations_used := iterations_used r;
     retry_limit := retry_limit r; commits := commits r; final_status := final_status r;
     execution_time_seconds := execution_time_seconds r; score := score r;
     score_base := score_base r; score_time_bonus := score_time_bonus r;
     score_commit_penalty := score_commit_penalty r; fixes := fixes r;
     ci_timeline := ci_timeline r |}.

Definition with_iterations_used (v : Z) (r : ResultsSchema) : ResultsSchema :=
  {| repository := repository r; team_name := team_name r; leader_name := leader_name r;
     branch_name := branch_name r; total_failures := total_failures r;
     total_fixes := total_fixes r; iterations_used := v;
     retry_limit := retry_limit r; commits := commits r; final_status := final_status r;
     execution_time_seconds := execution_time_seconds r; score := score r;
     score_base := score_base r; score_time_bonus := score_time_bonus r;
     score_commit_penalty := score_commit_penalty r; fixes := fixes r;
     ci_timeline := ci_timeline r |}.

Definition with_commits (v : Z) (r : ResultsSchema) : ResultsSchema :=
  {| repository := repository r; team_name := team_name r; leader_name := leader_name r;
     branch_name := branch_name r; total_failures := total_failures r;
     total_fixes := total_fixes r; iterations_used := iterations_used r;
     retry_limit := retry_limit r; commits := v; final_status := final_status r;
     execution_time_seconds := execution_time_seconds r; score := score r;
     score_base := score_base r; score_time_bonus := score_time_bonus r;
     score_commit_penalty := score_commit_penalty r; fixes := fixes r;
     ci_timeline := ci_timeline r |}.

Definition with_final_status (v : RunStatus) (r : ResultsSchema) : ResultsSchema :=
  {| repository := repository r; team_name := team_name r; leader_name := leader_name r;
     branch_name := branch_name r; total_failures := total_failures r;
     total_fixes := total_fixes r; iterations_used := iterations_used r;
     retry_limit := retry_limit r; commits := commits r; final_status := v;
     execution_time_seconds := execution_time_seconds r; score := score r;
     score_base := score_base r; score_time_bonus := score_time_bonus r;
     score_commit_penalty := score_commit_penalty r; fixes := fixes r;
     ci_timeline := ci_timeline r |}.

Definition with_fixes (v : list FixRecord) (r : ResultsSchema) : ResultsSchema :=
  {| repository := repository r; team_name := team_name r; leader_name := leader_name r;
     branch_name := branch_name r; total_failures := total_failures r;
     total_fixes := total_fixes r; iterations_used := iterations_used r;
     retry_limit := retry_limit r; commits := commits r; final_status := final_status r;
     execution_time_seconds := execution_time_seconds r; score := score r;
     score_base := score_base r; score_time_bonus := score_time_bonus r;
     score_commit_penalty := score_commit_penalty r; fixes := v;
     ci_timeline := ci_timeline r |}.

Definition with_ci_timeline (v : list CITimelineRecord) (r : ResultsSchema)
    : ResultsSchema :=
  {| repository := repository r; team_name := team_name r; leader_name := leader_name r;
     branch_name := branch_name r; total_failures := total_failures r;
     total_fixes := total_fixes r; iterations_used := iterations_used r;
     retry_limit := retry_limit r; commits := commits r; final_status := final_status r;
     execution_time_seconds := execution_time_seconds r; score := score r;
     score_base := score_base r; score_time_bonus := score_time_bonus r;
     score_commit_penalty := score_commit_penalty r; fixes := fixes r;
     ci_timeline := v |}.

(** The assignments of the [finally] block. *)
Definition with_final_report (elapsed : Z) (r : ResultsSchema) : ResultsSchema :=
  let score_breakdown := ScoreAgent.calculate_score elapsed (commits r) in
  {| repository := repository r; team_name := team_name r; leader_name := leader_name r;
     branch_name := branch_name r; total_failures := total_failures r;
     total_fixes := Z.of_nat (List.length (fixes r));
     iterations_used := iterations_used r;
     retry_limit := retry_limit r; commits := commits r; final_status := final_status r;
     execution_time_seconds := elapsed;
     score := ScoreAgent.final_score score_breakdown;
     score_base := ScoreAgent.base_score score_breakdown;
     score_time_bonus := ScoreAgent.time_bonus score_breakdown;
     score_commit_penalty := ScoreAgent.commit_penalty score_breakdown;
     fixes := fixes r; ci_timeline := ci_timeline r |}.

(** Construction of a [FixRecord]: the model validates [line_number >= 0]. *)
Definition new_FixRecord (file : string) (bug_type : BugType) (line_number : Z)
    (commit_message : string) (status : FixStatus) (strict_output : string)
    : result FixRecord :=
  if line_number <? 0
  then Raise (ValidationError "line_number: Input should be greater than or equal to 0")
  else Ok {| fr_file := file; fr_bug_type := bug_type; fr_line_number := line_number;
             fr_commit_message := commit_message; fr_status := status;
             fr_strict_output := strict_output |}.

(** The world once a pass of the loop has noted its number. *)
Definition entering (iteration : Z) (w : World) : World :=
  (modify_results (with_iterations_used iteration) w).1.

(** The number of records marked applied. *)
Definition count_applied (l : list FixRecord) : Z :=
  Z.of_nat (List.length (filter (fun r => fr_status r = FIXED) l)).

(** What ends one pass of the [for] loop. *)
Inductive control := Continue | Break.

Section run.
Variable env : Collaborators.
(** [self.retry_limit]. *)
Variable self_retry_limit : Z.
Variable payload : RunAgentRequest.

(** [git_agent.checkout_or_create_branch]. *)
Definition checkout_or_create_branch (repo_path branch_name : string) : M string :=
  lift (GitAgent.enforce_branch_name branch_name) ;;
  lift (GitAgent.ensure_not_main_branch branch_name) ;;
  do existing <- lift (existing_branches env repo_path) ;
  if bool_decide (branch_name ∈ existing)
  then lift (Raise (ValueError ("Branch '" +:+ branch_name +:+ "' already exists.")))
  else lift (git_checkout_new env repo_path branch_name) ;; ret branch_name.

(** [git_agent.commit_all_changes]: the commit is made when the tree is
    dirty after staging. *)
Definition commit_all_changes (iteration : Z) (commit_message : string) : M bool :=
  lift (GitAgent.enforce_commit_prefix commit_message) ;;
  do fs <- get_fs ;
  lift (is_dirty env iteration fs).

(** [_push_and_monitor_ci]. *)
Definition _push_and_monitor_ci (iteration : Z) (branch_name : string) : M CIStatus :=
  lift (GitAgent.ensure_not_main_branch branch_name) ;;
  lift (git_push env iteration branch_name) ;;
  lift (poll_workflow_status env iteration (repo_url payload) branch_name).

Definition apply_fix (repo_path : string) (parsed : FailureParserAgent.ParsedFailure)
    : M bool :=
  fun w =>
    let '(fs', r) :=
      FixAgent.apply_fix_on (ast_parse env) (os_path env) (w_fs w) repo_path
        (FailureParserAgent.pf_file parsed)
        (FailureParserAgent.pf_line_number parsed)
        (FailureParserAgent.pf_bug_type parsed)
        (FailureParserAgent.pf_raw_message parsed)
        (FailureParserAgent.pf_error_type parsed) in
    ({| w_fs := fs'; w_run := w_run w |}, r).

(** The body of [for failure in test_result.failures]; the local
    [fixes_applied] goes in and out. *)
Definition process_failure (repo_path : string) (failure : TestFailure)
    (fixes_applied : Z) : M Z :=
  let parsed :=
    FailureParserAgent.parse_failure (file failure) (line_number failure)
      (message failure) (error_type failure) in
  do fix_applied <- apply_fix repo_path parsed ;
  do proposal <-
    lift (FixAgent.generate_fix (FailureParserAgent.pf_file parsed)
            (FailureParserAgent.pf_line_number parsed)
            (FixAgent.Member (FailureParserAgent.pf_bug_type parsed))
            (FailureParserAgent.pf_raw_message parsed)) ;
  lift (GitAgent.enforce_commit_prefix (FixAgent.fp_commit_message proposal)) ;;
  let fix_status := if fix_applied then FIXED else FIX_FAILED in
  let fixes_applied := if (fix_applied : bool) then fixes_applied + 1 else fixes_applied in
  do record <-
    lift (new_FixRecord (FixAgent.fp_file proposal) (FixAgent.fp_bug_type proposal)
            (FixAgent.fp_line_number proposal) (FixAgent.fp_commit_message proposal)
            fix_status (FixAgent.fp_strict_output proposal)) ;
  modify_results (fun r => with_fixes (fixes r ++ [record]) r) ;;
  ret fixes_applied.

Fixpoint process_failures (repo_path : string) (failures : list TestFailure)
    (fixes_applied : Z) : M Z :=
  match failures with
  | [] => ret fixes_applied
  | failure :: rest =>
      do n <- process_failure repo_path failure fixes_applied ;
      process_failures repo_path rest n
  end.

Definition ci_run_status (ci_status : CIStatus) : RunStatus :=
  if String.eqb (cs_status ci_status) "PASSED" then PASSED else FAILED.

Definition append_timeline (rec : CITimelineRecord) : M unit :=
  modify_results (fun r => with_ci_timeline (ci_timeline r ++ [rec]) r).

Definition mark_passed : M unit :=
  set_status PASSED ;; modify_results (with_final_status PASSED).

Definition mark_failed : M unit :=
  set_status FAILED ;; modify_results (with_final_status FAILED).

(** The body of [for iteration in range(1, self.retry_limit + 1)]. *)
Definition iteration_body (repo_path : string) (iteration : Z) : M control :=
  modify_results (with_iterations_used iteration) ;;
  do fs <- get_fs ;
  do test_result <-
    lift (run_tests (test_files_found env iteration fs) (run_pytest env iteration fs)
            repo_path) ;
  if passed test_result then
    let is_local_repo := startswith (repo_url payload) "file://" in
    if is_local_repo then
      mark_passed ;;
      append_timeline {| ci_iteration := iteration; ci_status := PASSED;
                         ci_timestamp := utc_now env iteration |} ;;
      ret Break
    else
      do run <- get_run ;
      do ci_status <- _push_and_monitor_ci iteration (branch_name (results run)) ;
      append_timeline {| ci_iteration := iteration; ci_status := ci_run_status ci_status;
                         ci_timestamp := cs_timestamp ci_status |} ;;
      if String.eqb (cs_status ci_status) "PASSED"
      then mark_passed ;; ret Break
      else ret Continue
  else
    modify_results (fun r =>
      with_total_failures
        (total_failures r + Z.of_nat (List.length (failures test_result))) r) ;;
    do fixes_applied <- process_failures repo_path (failures test_result) 0 ;
    (if 0 <? fixes_applied then
       do committed <-
         commit_all_changes iteration
           ("[AI-AGENT] Apply " +:+ str_of_int fixes_applied +:+ " autonomous fix(es)") ;
       if (committed : bool)
       then modify_results (fun r => with_commits (commits r + 1) r)
       else ret tt
     else ret tt) ;;
    do run <- get_run ;
    do ci_status <- _push_and_monitor_ci iteration (branch_name (results run)) ;
    modify_results (fun r => with_total_fixes (Z.of_nat (List.length (fixes r))) r) ;;
    append_timeline {| ci_iteration := iteration; ci_status := ci_run_status ci_status;
                       ci_timestamp := cs_timestamp ci_status |} ;;
    if String.eqb (cs_status ci_status) "PASSED"
    then mark_passed ;; ret Break
    else ret Continue.

Fixpoint run_iterations (repo_path : string) (iterations : list Z) : M unit :=
  match iterations with
  | [] => ret tt
  | iteration :: rest =>
      do c <- iteration_body repo_path iteration ;
      match c with
      | Break => ret tt
      | Continue => run_iterations repo_path rest
      end
  end.

(** [range(1, n + 1)]. *)
Definition range_from_1 (n : Z) : list Z := Z.of_nat <$> seq 1 (Z.to_nat n).

(** The world at the start of the pass that follows [iterations], when
    each of these passes ended by going on to the next. *)
Fixpoint state_after (repo_path : string) (iterations : list Z) (w : World)
    : option World :=
  match iterations with
  | [] => Some w
  | iteration :: rest =>
      match iteration_body repo_path iteration w with
      | (w', Ok Continue) => state_after repo_path rest w'
      | _ => None
      end
  end.

(** The [try] block of [execute_run], up to the loop. *)
Definition prologue : M RepoInfo :=
  do run <- get_run ;
  do repo_info <- lift (analyze_repository env (repo_url payload) (run_id run)) ;
  do active_branch <-
    checkout_or_create_branch (repo_path repo_info) (branch_name (results run)) ;
  modify_results (with_branch_name active_branch) ;;
  modify_results (with_iterations_used 0) ;;
  ret repo_info.

(** The [try] block of [execute_run]. *)
Definition try_block : M unit :=
  do repo_info <- prologue ;
  run_iterations (repo_path repo_info) (range_from_1 self_retry_limit) ;;
  do run <- get_run ;
  if bool_decide (status run = PASSED) then ret tt else mark_failed.

(** The [finally] block; writing the report to disk is left out. *)
Definition finalize : M unit :=
  modify_results (with_final_report (elapsed_seconds env)).

(** [execute_run] on the run found in the store: the world it leaves. *)
Definition execute_run (fs : FS) (run_state : RunState) : World :=
  let w0 := {| w_fs := fs; w_run := run_state |} in
  let w1 :=
    match try_block w0 with
    | (w, Ok _) => w
    | (w, Raise _) => fst (mark_failed w)
    end in
  fst (finalize w1).

End run.

(** What a part of the run leaves of the report apart from the fix
    records: the identifier, the status and every other field. *)
Definition same_but_fixes (r r' : RunState) : Prop :=
  run_id r' = run_id r /\ status r' = status r
  /\ results r' = with_fixes (fixes (results r')) (results r).

(** What one pass of the loop does to the run, by how it ends: it notes
    its number, adds records, no more than the failures it counts, and at
    most one commit, made only when one of its records is marked applied;
    it adds one timeline entry unless it raises; the status changes only
    when the pass ends the loop, and then to PASSED. *)
Definition pass_effect (iteration : Z) (w w' : World) (r : result control) : Prop :=
  let a := results (w_run w) in
  let b := results (w_run w') in
  run_id (w_run w') = run_id (w_run w)
  /\ iterations_used b = iteration
  /\ branch_name b = branch_name a
  /\ commits a <= commits b <= commits a + 1
  /\ (exists new,
        fixes b = fixes a ++ new
        /\ total_failures a + Z.of_nat (List.length new) <= total_failures b
        /\ (commits a < commits b -> 0 < count_applied new))
  /\ match r with
     | Ok Break =>
         status (w_run w') = PASSED /\ final_status b = PASSED
         /\ exists t, ci_timeline b
                      = ci_timeline a
                        ++ [{| ci_iteration := iteration; ci_status := PASSED;
                               ci_timestamp := t |}]
     | Ok Continue =>
         status (w_run w') = status (w_run w) /\ final_status b = final_status a
         /\ exists t, ci_timeline b
                      = ci_timeline a
                        ++ [{| ci_iteration := iteration; ci_status := FAILED;
                               ci_timestamp := t |}]
     | Raise _ =>
         status (w_run w') = status (w_run w) /\ final_status b = final_status a
         /\ ci_timeline b = ci_timeline a
     end.

(** What the loop over [iterations] does to the run.  It runs the passes
    [done], a prefix of [iterations], each adding one timeline entry
    unless it raises, and ends in one of three ways: every pass went on to
    the next, the last pass run ended the loop, or the last pass run
    raised. *)
Definition loop_effect (iterations : list Z) (w w' : World) (r : result unit) : Prop :=
  let a := results (w_run w) in
  let b := results (w_run w') in
  exists (done rest : list Z) (added : list CITimelineRecord),
    iterations = done ++ rest
    /\ run_id (w_run w') = run_id (w_run w)
    /\ iterations_used b = List.last done (iterations_used a)
    /\ branch_name b = branch_name a
    /\ commits a <= commits b <= commits a + Z.of_nat (List.length done)
    /\ (exists new,
          fixes b = fixes a ++ new
          /\ total_failures a + Z.of_nat (List.length new) <= total_failures b
          /\ (commits a < commits b -> 0 < count_applied new))
    /\ ci_timeline b = ci_timeline a ++ added
    /\ ((r = Ok tt /\ rest = [] /\ ci_iteration <$> added = done
         /\ status (w_run w') = status (w_run w) /\ final_status b = final_status a
         /\ Forall (fun e => ci_status e = FAILED) added)
        \/ (r = Ok tt /\ ci_iteration <$> added = done
            /\ status (w_run w') = PASSED /\ final_status b = PASSED
            /\ exists earlier e,
                 added = earlier ++ [e] /\ ci_status e = PASSED
                 /\ Forall (fun e => ci_status e = FAILED) earlier)
        \/ (exists e k,
              r = Raise e /\ done = (ci_iteration <$> added) ++ [k]
              /\ status (w_run w') = status (w_run w) /\ final_status b = final_status a
              /\ Forall (fun e => ci_status e = FAILED) added)).

(** [start_run], given the identifier drawn for the run.  [ResultsSchema]
    validates its fields when it is built: [retry_limit] is declared
    [ge=1], the other numbers are given as 0 or left at their defaults. *)
Definition start_run (self_retry_limit : Z) (new_run_id : string)
    (payload : RunAgentRequest) : result RunState :=
  let branch_name :=
    GitAgent.build_branch_name (req_team_name payload) (req_leader_name payload) in
  if negb (GitAgent.validate_branch_name branch_name)
  then Raise (ValueError "Invalid branch format")
  else if self_retry_limit <? 1
  then Raise (ValidationError "retry_limit: Input should be greater than or equal to 1")
  else
    Ok {| run_id := new_run_id; status := RUNNING;
          results :=
            {| repository := repo_url payload; team_name := req_team_name payload;
               leader_name := req_leader_name payload; branch_name := branch_name;
               total_failures := 0; total_fixes := 0; iterations_used := 0;
               retry_limit := self_retry_limit; commits := 0; final_status := RUNNING;
               execution_time_seconds := 0; score := 0; score_base := 100;
               score_time_bonus := 0; score_commit_penalty := 0; fixes := [];
               ci_timeline := [] |} |}.

End Orchestrator.

(** ** [run_store.py]

    The registry of runs, by identifier.  The lock makes each call one
    step; a call is modelled by the registry it leaves. *)

Module RunStore.
Import Orchestrator.

Abbreviation Store := (gmap string RunState).

(** [InMemoryRunStore()]. *)
Definition empty : Store := ∅.

(** [self._runs[run_state.run_id] = run_state]. *)
Definition upsert (store : Store) (run_state : RunState) : Store :=
  <[run_id run_state := run_state]> store.

(** [self._runs.get(run_id)]. *)
Definition get (store : Store) (id : string) : option RunState := store !! id.

(** Every run is found under its own identifier, the key [upsert] uses. *)
Definition consistent (store : Store) : Prop :=
  forall (id : string) (r : RunState), get store id = Some r -> run_id r = id.

End RunStore.

(** ** [main.py] and the entry points of the orchestrator over the registry *)

Module Main.
Import PyStr Re FileSystem Orchestrator.

(** The class [[a-zA-Z0-9\s]]. *)
Definition name_char (c : ascii) : bool := is_alpha c || is_digit c || is_space c.

(** [r"^[a-zA-Z0-9\s]+$"]. *)
Definition NAME_PATTERN : pattern := [Bol; Rep name_char 1; Eol].

Definition _is_valid_name (value : string) : bool :=
  bool_decide (is_Some (re_match false NAME_PATTERN value)).

(** What the endpoint answers: a body, or an [HTTPException]. *)
Inductive http_result (A : Type) :=
| Answer (a : A)
| HTTPException (status_code : Z) (detail : string).
Arguments Answer {A} a.
Arguments HTTPException {A} status_code detail.

Record RunAgentResponse := {
  resp_run_id : string;
  resp_status : RunStatus
}.

(** [orchestrator.start_run] with its [run_store.upsert]. *)
Definition start_run (self_retry_limit : Z) (new_run_id : string)
    (payload : RunAgentRequest) (store : RunStore.Store)
    : RunStore.Store * result RunState :=
  match Orchestrator.start_run self_retry_limit new_run_id payload with
  | Ok run_state => (RunStore.upsert store run_state, Ok run_state)
  | Raise e => (store, Raise e)
  end.

Definition exn_message (e : exn) : string :=
  match e with
  | Exception m | ValueError m | ValidationError m | OSError m | OtherError m => m
  end.

(** [run_agent], up to the scheduling of the background task: the
    registry it leaves and its answer. *)
Definition run_agent (self_retry_limit : Z) (new_run_id : string)
    (payload : RunAgentRequest) (store : RunStore.Store)
    : RunStore.Store * http_result RunAgentResponse :=
  if String.eqb (repo_url payload) EmptyString
     || String.eqb (req_team_name payload) EmptyString
     || String.eqb (req_leader_name payload) EmptyString
  then (store, HTTPException 400 "Missing required fields: repo_url, team_name, leader_name")
  else if negb (_is_valid_name (req_team_name payload))
  then (store, HTTPException 400 "team_name contains invalid characters")
  else if negb (_is_valid_name (req_leader_name payload))
  then (store, HTTPException 400 "leader_name contains invalid characters")
  else
    match start_run self_retry_limit new_run_id payload store with
    | (store', Ok run_state) =>
        (store', Answer {| resp_run_id := run_id run_state; resp_status := RUNNING |})
    | (store', Raise (ValueError m)) | (store', Raise (ValidationError m)) =>
        (store', HTTPException 400 m)
    | (store', Raise e) => (store', HTTPException 500 (exn_message e))
    end.

(** [orchestrator.get_run]. *)
Definition get_run (store : RunStore.Store) (id : string) : option RunState :=
  RunStore.get store id.

(** [execute_run] from the registry: nothing happens for an unknown
    identifier; otherwise the run found is worked on and registered again
    by the [finally] block. *)
Definition execute_run (env : Collaborators) (self_retry_limit : Z)
    (payload : RunAgentRequest) (id : string) (fs : FS) (store : RunStore.Store)
    : FS * RunStore.Store :=
  match RunStore.get store id with
  | None => (fs, store)
  | Some run_state =>
      let w := Orchestrator.execute_run env self_retry_limit payload fs run_state in
      (w_fs w, RunStore.upsert store (w_run w))
  end.

End Main.

(** ** Two small runs

    A repository with one test file that uses [os] without importing it,
    and collaborators that always answer the same: the test process ends
    with the given exit code and output, the system takes every path as
    written, git and the parser accept everything, and the CI poll ends
    with the given status.  Then the data of the cases where the system or
    the parser does not go along. *)

Module Scenario.
Import PyStr FileSystem TestAgent Orchestrator.






Definition file_node (text : string) : node :=
  {| content := text; readable := true; writable := true; write_fault := None |}.

Definition source : string :=
  "def test_cwd():" +:+ nl +:+ "    assert os.getcwd()" +:+ nl.

Definition tree : FS :=
  {[ "/repo/tests/test_a.py" := file_node source ]}.

(** An undefined-name report, an assertion report, and an output with no
    report at all. *)
Definition output_undefined_os : string :=
  "tests/test_a.py:2: in test_cwd" +:+ nl +:+ "E   NameError: name 'os' is not defined".

Definition output_assertion : string :=
  "tests/test_a.py:2: in test_cwd" +:+ nl +:+ "E   AssertionError: assert 1 == 2".

Definition output_unreadable : string := "Segmentation fault (core dumped)".

(** The same location reported in both styles. *)
Definition output_both_styles : string :=
  "tests/test_a.py:2: in test_cwd" +:+ nl
  +:+ "E   NameError: name 'os' is not defined" +:+ nl
  +:+ "  File " +:+ dq +:+ "/workspace/tests/test_a.py" +:+ dq +:+ ", line 2, in test_cwd" +:+ nl
  +:+ "NameError: name 'os' is not defined".

Definition collaborators (exit_code : Z) (output ci : string) : Collaborators :=
  {| analyze_repository := fun _ _ => Ok {| repo_path := "/repo"; language := "python" |};
     existing_branches := fun _ => Ok [];
     git_checkout_new := fun _ _ => Ok tt;
     test_files_found := fun _ _ => true;
     run_pytest := fun _ _ =>
       Ok {| returncode := exit_code; stdout := output; stderr := EmptyString |};
     os_path := Resolves;
     ast_parse := fun _ => FixAgent.ParseOk;
     is_dirty := fun _ _ => Ok true;
     git_push := fun _ _ => Ok tt;
     poll_workflow_status := fun _ _ _ =>
       Ok {| cs_status := ci; cs_timestamp := "2024-01-01T00:00:00+00:00";
             cs_details := EmptyString |};
     utc_now := fun _ => "2024-01-01T00:00:00+00:00";
     elapsed_seconds := 42 |}.

(** The same collaborators over a repository that has the branches
    [existing]. *)
Definition with_existing_branches (existing : list string) (c : Collaborators)
    : Collaborators :=
  {| analyze_repository := analyze_repository c;
     existing_branches := fun _ => Ok existing;
     git_checkout_new := git_checkout_new c;
     test_files_found := test_files_found c;
     run_pytest := run_pytest c;
     os_path := os_path c;
     ast_parse := ast_parse c;
     is_dirty := is_dirty c;
     git_push := git_push c;
     poll_workflow_status := poll_workflow_status c;
     utc_now := utc_now c;
     elapsed_seconds := elapsed_seconds c |}.

Definition request : RunAgentRequest :=
  {| repo_url := "https://github.com/team/project"; req_team_name := "Team A";
     req_leader_name := "Lead" |}.

(** The same request for a repository given by a local path. *)
Definition local_request : RunAgentRequest :=
  {| repo_url := "file:///repo"; req_team_name := "Team A"; req_leader_name := "Lead" |}.

(** The run [start_run] registers for [request]. *)
Definition registered (self_retry_limit : Z) : RunState :=
  {| run_id := "run-1"; status := RUNNING;
     results :=
       {| repository := repo_url request; team_name := req_team_name request;
          leader_name := req_leader_name request; branch_name := "TEAM_A_LEAD_AI_Fix";
          total_failures := 0; total_fixes := 0; iterations_used := 0;
          retry_limit := self_retry_limit; commits := 0; final_status := RUNNING;
          execution_time_seconds := 0; score := 0; score_base := 100;
          score_time_bonus := 0; score_commit_penalty := 0; fixes := [];
          ci_timeline := [] |} |}.

(** A test process that ends with the undefined-name report, and the one
    failure extracted from it. *)
Definition completed_undefined_os : CompletedProcess :=
  {| returncode := 1; stdout := output_undefined_os; stderr := EmptyString |}.

Definition failure_undefined_os : TestFailure :=
  {| file := "tests/test_a.py"; line_number := 2;
     message := "name 'os' is not defined"; error_type := "NameError";
     full_traceback := "tests/test_a.py:2: in test_cwd" +:+ nl +:+ output_undefined_os |}.

(** The report of the run with retry limit [n]. *)
Definition report (n exit_code : Z) (output ci : string) : ResultsSchema :=
  results (w_run (execute_run (collaborators exit_code output ci) n request tree
                    (registered n))).

End Scenario.

(** * Properties *)

(** ** Strings *)

Section StringFacts.
Import PyStr.

Lemma str_app_cons (c : ascii) (s1 s2 : string) :
  String c s1 +:+ s2 = String c (s1 +:+ s2).
Proof. reflexivity. Qed.

Lemma str_app_nil_l (s : string) : EmptyString +:+ s = s.
Proof. reflexivity. Qed.

Lemma str_app_nil_r (s : string) : s +:+ EmptyString = s.
Proof.
  induction s as [|c s IH]; [reflexivity|].
  by rewrite str_app_cons, IH.
Qed.

Lemma str_app_assoc (s1 s2 s3 : string) : (s1 +:+ s2) +:+ s3 = s1 +:+ (s2 +:+ s3).
Proof.
  induction s1 as [|c s1 IH]; [reflexivity|].
  by rewrite !str_app_cons, IH.
Qed.

Lemma str_length_app (s1 s2 : string) :
  String.length (s1 +:+ s2) = (String.length s1 + String.length s2)%nat.
Proof.
  induction s1 as [|c s1 IH]; [reflexivity|].
  rewrite str_app_cons. simpl. by rewrite IH.
Qed.

Lemma map_chars_app (f : ascii -> ascii) (s1 s2 : string) :
  map_chars f (s1 +:+ s2) = map_chars f s1 +:+ map_chars f s2.
Proof.
  induction s1 as [|c s1 IH]; [reflexivity|].
  rewrite str_app_cons. simpl. by rewrite IH.
Qed.

Lemma all_chars_app (p : ascii -> bool) (s1 s2 : string) :
  all_chars p (s1 +:+ s2) = all_chars p s1 && all_chars p s2.
Proof.
  induction s1 as [|c s1 IH]; [reflexivity|].
  rewrite str_app_cons. simpl. rewrite IH. by destruct (p c).
Qed.

Lemma all_chars_filter (p : ascii -> bool) (s : string) :
  all_chars p (filter_chars p s) = true.
Proof.
  induction s as [|c s IH]; simpl; [reflexivity|].
  destruct (p c) eqn:Hc; simpl; [by rewrite Hc | exact IH].
Qed.

Lemma all_chars_lstrip_by (p q : ascii -> bool) (s : string) :
  all_chars p s = true -> all_chars p (lstrip_by q s) = true.
Proof.
  induction s as [|c s IH]; simpl; [done|].
  intros [Hc Hs]%andb_prop. destruct (q c); [by apply IH|].
  simpl. by rewrite Hc, Hs.
Qed.

Lemma all_chars_rstrip_by (p q : ascii -> bool) (s : string) :
  all_chars p s = true -> all_chars p (rstrip_by q s) = true.
Proof.
  induction s as [|c s IH]; simpl; [done|].
  intros [Hc Hs]%andb_prop. specialize (IH Hs).
  destruct (rstrip_by q s) as [|c' r].
  - destruct (q c); simpl; [done | by rewrite Hc].
  - change (all_chars p (String c (String c' r)))
      with (p c && all_chars p (String c' r)).
    by rewrite Hc, IH.
Qed.

Lemma all_chars_strip_by (p q : ascii -> bool) (s : string) :
  all_chars p s = true -> all_chars p (strip_by q s) = true.
Proof. intros H. by apply all_chars_rstrip_by, all_chars_lstrip_by. Qed.

Lemma substring_all (b : string) : String.substring 0 (String.length b) b = b.
Proof. induction b as [|c b IH]; simpl; [reflexivity | by rewrite IH]. Qed.

Lemma substring_skip (a b : string) :
  String.substring (String.length a) (String.length b) (a +:+ b) = b.
Proof.
  induction a as [|c a IH]; [apply substring_all|].
  rewrite str_app_cons. exact IH.
Qed.

Lemma endswith_app (s p : string) : endswith (s +:+ p) p = true.
Proof.
  unfold endswith. rewrite str_length_app.
  replace (String.length s + String.length p - String.length p)%nat
    with (String.length s) by lia.
  rewrite substring_skip, String.eqb_refl.
  apply andb_true_intro; split; [apply Nat.leb_le; lia | reflexivity].
Qed.

(** The decimal form of a natural number is a non-empty string of digits. *)
Lemma pretty_N_char_digit (x : N) : is_digit (pretty_N_char x) = true.
Proof. unfold pretty_N_char. by repeat case_match. Qed.

Lemma pretty_N_go_digits (x : N) (s : string) :
  all_chars is_digit s = true -> all_chars is_digit (pretty_N_go x s) = true.
Proof.
  revert s. induction (N.lt_wf_0 x) as [x _ IH]; intros s Hs.
  assert (x = 0 \/ 0 < x)%N as [->|Hx] by lia; [by rewrite pretty_N_go_0|].
  rewrite pretty_N_go_step by done. apply IH.
  - by apply N.div_lt.
  - simpl. by rewrite pretty_N_char_digit, Hs.
Qed.

Lemma pretty_N_go_length (x : N) (s : string) :
  (String.length s <= String.length (pretty_N_go x s))%nat.
Proof.
  revert s. induction (N.lt_wf_0 x) as [x _ IH]; intros s.
  assert (x = 0 \/ 0 < x)%N as [->|Hx] by lia; [by rewrite pretty_N_go_0|].
  rewrite pretty_N_go_step by done.
  etrans; [|apply IH; by apply N.div_lt]. simpl. lia.
Qed.

Lemma str_of_int_digits (n : Z) :
  0 <= n ->
  all_chars is_digit (str_of_int n) = true /\ (1 <= String.length (str_of_int n))%nat.
Proof.
  intros Hn. unfold str_of_int, pretty, pretty_Z.
  destruct n as [|q|q]; [by split | | lia].
  unfold pretty, pretty_positive, pretty, pretty_N.
  destruct (decide (N.pos q = 0%N)) as [|_]; [done|].
  split; [by apply pretty_N_go_digits|].
  rewrite pretty_N_go_step by lia.
  etrans; [|apply pretty_N_go_length]. simpl. lia.
Qed.

End StringFacts.

(** ** The pattern matcher *)

Section Matcher.
Import PyStr Re.

Lemma last_char_app (prev : option ascii) (u v : string) :
  last_char prev (u +:+ v) = last_char (last_char prev u) v.
Proof.
  revert prev. induction u as [|c u IH]; intros prev; [done|].
  rewrite str_app_cons. simpl. apply IH.
Qed.

Lemma eat_app (l : string) (prev : option ascii) (rest : string) :
  eat l prev (l +:+ rest) = Some (last_char prev l, rest).
Proof.
  revert prev. induction l as [|c l IH]; intros prev; [reflexivity|].
  rewrite str_app_cons. simpl. rewrite Ascii.eqb_refl. apply IH.
Qed.

(** A repetition finds a match as soon as some run of the class, long
    enough, can be followed by the rest of the pattern: if the longest
    run fails, giving characters back reaches that one. *)
Lemma rep_app (c : ascii -> bool) (next : continuation) (u v : string) :
  forall (prev : option ascii) (i need : nat),
    all_chars c u = true ->
    (need <= String.length u)%nat ->
    is_Some (next (last_char prev u) v (i + String.length u)%nat) ->
    is_Some (rep c next prev (u +:+ v) i need).
Proof.
  induction u as [|x u IH]; intros prev i need Hall Hneed Hnext.
  - rewrite str_app_nil_l. simpl in *. replace (i + 0)%nat with i in Hnext by lia.
    assert (need = 0%nat) as -> by lia.
    destruct v as [|y v]; simpl; [exact Hnext|].
    destruct (c y); [|exact Hnext].
    destruct (rep c next (Some y) v (S i) 0); [by eexists | exact Hnext].
  - simpl in Hall. apply andb_prop in Hall as [Hx Hall].
    rewrite str_app_cons. simpl. rewrite Hx.
    destruct (IH (Some x) (S i) (Nat.pred need)) as [r Hr].
    + exact Hall.
    + simpl in Hneed. lia.
    + simpl in Hnext. replace (S i + String.length u)%nat
        with (i + S (String.length u))%nat by lia. exact Hnext.
    + rewrite Hr. by eexists.
Qed.

Lemma run_Lit (ml : bool) (l : string) (p : pattern) (prev : option ascii)
    (rest : string) (i : nat) (marks : list nat) :
  run ml (Lit l :: p) prev (l +:+ rest) i marks
  = run ml p (last_char prev l) rest (i + String.length l)%nat marks.
Proof. simpl. by rewrite eat_app. Qed.

Lemma run_Rep (ml : bool) (c : ascii -> bool) (min : nat) (p : pattern)
    (prev : option ascii) (u v : string) (i : nat) (marks : list nat) :
  all_chars c u = true ->
  (min <= String.length u)%nat ->
  is_Some (run ml p (last_char prev u) v (i + String.length u)%nat marks) ->
  is_Some (run ml (Rep c min :: p) prev (u +:+ v) i marks).
Proof. intros Hall Hmin Hnext. simpl. by apply rep_app. Qed.

End Matcher.

(** ** Branch names *)

Section BranchNames.
Import PyStr Re GitAgent.

Lemma run_Bol_start (ml : bool) (p : pattern) (s : string) (i : nat) (marks : list nat) :
  run ml (Bol :: p) None s i marks = run ml p None s i marks.
Proof. reflexivity. Qed.

Lemma all_chars_collapse (p : ascii -> bool) (s : string) :
  all_chars p s = true -> all_chars p (collapse_underscores s) = true.
Proof.
  induction s as [|c s IH]; [done|].
  intros [Hc Hs]%andb_prop. specialize (IH Hs).
  cbn [collapse_underscores].
  destruct (chr underscore c).
  - destruct s as [|c2 s]; [by simpl; rewrite Hc|].
    destruct (chr underscore c2); [exact IH|].
    change (p c && all_chars p (collapse_underscores (String c2 s)) = true).
    by rewrite Hc, IH.
  - change (p c && all_chars p (collapse_underscores s) = true).
    by rewrite Hc, IH.
Qed.

(** A normalized component only has characters of [[A-Z_]]. *)
Lemma normalize_chars (value : string) :
  all_chars upper_or_underscore (_normalize value) = true.
Proof.
  unfold _normalize.
  apply all_chars_strip_by, all_chars_collapse, all_chars_filter.
Qed.

(** [BRANCH_PATTERN] accepts every non-empty word over [[A-Z_]] followed
    by the suffix. *)
Lemma branch_pattern_accepts (u : string) :
  all_chars upper_or_underscore u = true ->
  (1 <= String.length u)%nat ->
  is_Some (re_fullmatch false BRANCH_PATTERN (u +:+ "_AI_Fix")).
Proof.
  intros Hu Hlen. unfold re_fullmatch. apply fmap_is_Some.
  unfold BRANCH_PATTERN. cbn [app]. rewrite run_Bol_start.
  apply run_Rep; [exact Hu | exact Hlen |].
  by eexists.
Qed.

(** C9.  Building a branch name and validating it always succeeds: for
    every team and leader name, the name built from their normalized
    forms matches the branch pattern and ends with the suffix, also when
    a normalized component is empty. *)
Theorem validate_build_branch_name (team_name leader_name : string) :
  validate_branch_name (build_branch_name team_name leader_name) = true.
Proof.
  unfold build_branch_name, validate_branch_name.
  set (t := _normalize team_name). set (l := _normalize leader_name).
  replace (t +:+ "_" +:+ l +:+ "_AI_Fix") with ((t +:+ "_" +:+ l) +:+ "_AI_Fix")
    by (by rewrite !str_app_assoc).
  rewrite endswith_app, andb_true_r.
  apply bool_decide_eq_true, branch_pattern_accepts.
  - rewrite !all_chars_app. unfold t, l. by rewrite !normalize_chars.
  - rewrite !str_length_app. simpl. lia.
Qed.

End BranchNames.

(** ** Fix descriptors *)

Section Descriptors.
Import PyStr Re FixAgent.

Lemma deterministic_fix_is_canonical (b : BugType) :
  _generate_deterministic_fix (Member b) = Ok (canonical_phrase b).
Proof. by destruct b. Qed.

(** [generate_fix] on a member: the descriptor is built from the template
    and the proposal is returned exactly when the pattern accepts it. *)
Lemma generate_fix_member (file : string) (line_number : Z) (b : BugType)
    (message : string) :
  let strict_output := strict_output_of b file line_number (canonical_phrase b) in
  generate_fix file line_number (Member b) message
  = match re_match false STRICT_PATTERN strict_output with
    | None => Raise (Exception ("Strict output format violation: " +:+ strict_output))
    | Some _ =>
        Ok {| fp_file := file; fp_line_number := line_number; fp_bug_type := b;
              fp_commit_message :=
                "[AI-AGENT] Fix " +:+ lower (BugType_value b) +:+ " issue in " +:+ file;
              fp_strict_output := strict_output |}
    end.
Proof.
  intros strict_output. subst strict_output.
  unfold generate_fix. rewrite deterministic_fix_is_canonical.
  unfold mbind, result_bind, _validate_strict_output_format.
  by destruct (re_match false STRICT_PATTERN _).
Qed.

Lemma value_chars (b : BugType) :
  all_chars GitAgent.upper_or_underscore (BugType_value b) = true
  /\ (1 <= String.length (BugType_value b))%nat.
Proof. destruct b; split; (reflexivity || (simpl; lia)). Qed.

Lemma phrase_chars (b : BugType) :
  all_chars dot (canonical_phrase b) = true
  /\ (1 <= String.length (canonical_phrase b))%nat.
Proof. destruct b; split; (reflexivity || (simpl; lia)). Qed.

(** The pattern accepts the template for a file name on one line that is
    not empty and a line number that is not negative. *)
Lemma strict_pattern_accepts (b : BugType) (file : string) (line_number : Z) :
  file <> EmptyString ->
  all_chars dot file = true ->
  0 <= line_number ->
  is_Some (re_match false STRICT_PATTERN
             (strict_output_of b file line_number (canonical_phrase b))).
Proof.
  intros Hne Hfile Hline. unfold re_match. apply fmap_is_Some.
  unfold STRICT_PATTERN, strict_output_of. rewrite run_Bol_start.
  destruct (value_chars b) as [Hv Hvlen].
  destruct (phrase_chars b) as [Hp Hplen].
  destruct (str_of_int_digits line_number Hline) as [Hd Hdlen].
  apply run_Rep; [exact Hv | exact Hvlen |].
  rewrite run_Lit.
  apply run_Rep; [exact Hfile | destruct file; [done | simpl; lia] |].
  rewrite run_Lit.
  apply run_Rep; [exact Hd | exact Hdlen |].
  rewrite run_Lit.
  rewrite <- (str_app_nil_r (canonical_phrase b)).
  apply run_Rep; [exact Hp | exact Hplen |].
  by eexists.
Qed.

(** C4.  For every category of the enumeration, every file and every line
    number, the descriptor generated is the template filled with the
    category, the file, the line and the fixed phrase of the category;
    [generate_fix] returns it exactly when it matches the grammar (and
    raises otherwise), which it does whenever the file name is a non-empty
    single line and the line number is not negative; and a category
    outside the enumeration raises an exception. *)
Theorem generate_fix_descriptor :
  (forall b : BugType,
     _generate_deterministic_fix (Member b) = Ok (canonical_phrase b))
  /\ (forall (b : BugType) (file : string) (line_number : Z) (message : string)
         (p : FixProposal),
        generate_fix file line_number (Member b) message = Ok p ->
        fp_strict_output p
        = BugType_value b +:+ " error in " +:+ file +:+ " line "
            +:+ str_of_int line_number +:+ " → Fix: " +:+ canonical_phrase b
        /\ is_Some (re_match false STRICT_PATTERN (fp_strict_output p)))
  /\ (forall (b : BugType) (file : string) (line_number : Z) (message : string),
        (exists p, generate_fix file line_number (Member b) message = Ok p)
        \/ generate_fix file line_number (Member b) message
           = Raise (Exception ("Strict output format violation: "
                      +:+ strict_output_of b file line_number (canonical_phrase b))))
  /\ (forall (b : BugType) (file : string) (line_number : Z) (message : string),
        file <> EmptyString -> all_chars dot file = true -> 0 <= line_number ->
        exists p, generate_fix file line_number (Member b) message = Ok p)
  /\ (forall (printed file : string) (line_number : Z) (message : string),
        generate_fix file line_number (Outside printed) message
        = Raise (Exception ("Strict output format violation: Unknown bug type "
                   +:+ printed))).
Proof.
  split; [exact deterministic_fix_is_canonical|].
  split.
  { intros b file line_number message p. rewrite generate_fix_member. cbv zeta.
    destruct (re_match false STRICT_PATTERN _) as [m|] eqn:Hm; [|discriminate].
    intros [= <-]. cbn [fp_strict_output]. split; [reflexivity|].
    by rewrite Hm. }
  split.
  { intros b file line_number message. rewrite generate_fix_member. cbv zeta.
    destruct (re_match false STRICT_PATTERN _); [left; by eexists | right; reflexivity]. }
  split.
  { intros b file line_number message Hne Hfile Hline.
    rewrite generate_fix_member. cbv zeta.
    destruct (strict_pattern_accepts b file line_number Hne Hfile Hline) as [m ->].
    by eexists. }
  reflexivity.
Qed.

(** The validation is a real gate: an empty file name or a negative line
    number is refused. *)
Example generate_fix_empty_file :
  generate_fix EmptyString 5 (Member IMPORT) "name 'os' is not defined"
  = Raise (Exception
      "Strict output format violation: IMPORT error in  line 5 → Fix: add the missing import statement").
Proof. by vm_compute. Qed.

Example generate_fix_compliance_case :
  fp_strict_output <$>
    match generate_fix "test.py" 5 (Member IMPORT) "name 'os' is not defined" with
    | Ok p => Some p
    | Raise _ => None
    end
  = Some "IMPORT error in test.py line 5 → Fix: add the missing import statement".
Proof. by vm_compute. Qed.

End Descriptors.

(** ** Source fixes *)

Section SourceFixes.
Import PyStr Re FileSystem FixAgent.

Variable ast_parse : string -> parse_outcome.

Lemma apply_fix_at_missing (fs : FS) (place file : string) (line_number : Z)
    (bug_type : BugType) (message error_type : string) :
  fs !! place = None ->
  apply_fix_at ast_parse fs place file line_number bug_type message error_type
  = (fs, Ok false).
Proof.
  intros Hnone. unfold apply_fix_at, path_exists. rewrite Hnone.
  rewrite bool_decide_eq_false_2; [reflexivity|]. by intros [? ?].
Qed.

(** [apply_fix] on a file that exists, step by step. *)
Lemma apply_fix_at_existing (fs : FS) (place file : string) (line_number : Z)
    (bug_type : BugType) (message error_type : string) (n : node) :
  fs !! place = Some n ->
  apply_fix_at ast_parse fs place file line_number bug_type message error_type
  = if negb (readable n) then (fs, Ok false)
    else if (line_number <? 1)
            || (Z.of_nat (List.length (splitlines false (universal_newlines (content n))))
                <? line_number)
    then (fs, Ok false)
    else
      let fixed_content := candidate n line_number bug_type message error_type in
      if String.eqb fixed_content EmptyString
         || String.eqb fixed_content (universal_newlines (content n))
      then (fs, Ok false)
      else
        match ast_parse fixed_content with
        | ParseSyntaxError => (fs, Ok false)
        | ParseRaises e => (fs, Raise e)
        | ParseOk =>
            if writable n
            then
              match write_fault n with
              | None =>
                  (<[place := {| content := fixed_content; readable := readable n;
                                 writable := true; write_fault := None |}]> fs, Ok true)
              | Some kept =>
                  (<[place := {| content := String.substring 0 kept fixed_content;
                                 readable := readable n; writable := true;
                                 write_fault := Some kept |}]> fs, Ok false)
              end
            else (fs, Ok false)
        end.
Proof.
  intros Hn. unfold apply_fix_at, path_exists, read_text, write_text, candidate,
    _generate_fixed_content.
  rewrite Hn. rewrite bool_decide_eq_true_2 by (by eexists). cbn [negb].
  destruct (readable n); cbn [negb]; [|reflexivity].
  destruct ((line_number <? 1) || _); [reflexivity|]. cbv zeta.
  destruct (String.eqb _ EmptyString || _); [reflexivity|].
  destruct (ast_parse _); [|reflexivity..].
  destruct (writable n); [|reflexivity]. by destruct (write_fault n).
Qed.







Lemma dict_get_elem {K V : Type} `{EqDecision K} (k : K) (v : V) (d : list (K * V)) :
  dict_get k d = Some v -> (k, v) ∈ d.
Proof.
  induction d as [|[k' v'] d IH]; simpl; [done|].
  destruct (decide (k = k')) as [->|]; [intros [= ->]; left | right; by apply IH].
Qed.

Lemma lower_name_message (x : string) :
  lower ("name '" +:+ x +:+ "' is not defined")
  = "name '" +:+ lower x +:+ "' is not defined".
Proof. unfold lower. by rewrite !map_chars_app. Qed.

(** The heuristic returns nothing for a dependency that is not installed. *)
Lemma heuristics_not_installed (original_content : string) (line_number : Z)
    (error_type message : string) :
  contains "modulenotfounderror" (lower error_type) = true
  \/ (contains "no module named" (lower message) = true
      /\ contains "import" (lower message) = false) ->
  _generate_fix_with_heuristics original_content line_number IMPORT error_type message
  = EmptyString.
Proof.
  intros H. unfold _generate_fix_with_heuristics. cbv zeta.
  rewrite bool_decide_eq_true_2 by done. cbn [orb].
  unfold import_block.
  destruct H as [-> | [-> ->]]; [reflexivity|].
  by rewrite orb_true_r.
Qed.

(** C8.  For an IMPORT failure whose message is the bare undefined-name
    report for a name that, lowered, is one of the twelve names of the
    lookup, and whose error type is not a module-not-found error, the
    candidate is the import statement the lookup gives for that name, a
    blank line, then the original content.  For a dependency that is not
    installed (a module-not-found error type, or a message with the
    no-module phrase and no mention of an import) the candidate is empty,
    and [apply_fix] returns False and leaves the working tree as it was
    (for a target the system resolves). *)
Theorem import_fix_by_lookup :
  (forall (x name stmt original_content error_type : string) (line_number : Z),
     (name, stmt)
     ∈ [("pytest", "import pytest"); ("unittest", "import unittest");
        ("os", "import os"); ("sys", "import sys"); ("json", "import json");
        ("time", "import time"); ("datetime", "from datetime import datetime");
        ("path", "from pathlib import Path");
        ("calculator", "from calculator import Calculator");
        ("add", "from math_utils import add, multiply, divide");
        ("multiply", "from math_utils import add, multiply, divide");
        ("divide", "from math_utils import add, multiply, divide")] ->
     lower x = name ->
     contains "modulenotfounderror" (lower error_type) = false ->
     _generate_fix_with_heuristics original_content line_number IMPORT error_type
       ("name '" +:+ x +:+ "' is not defined")
     = stmt +:+ nl +:+ nl +:+ original_content)
  /\ (forall (original_content error_type message : string) (line_number : Z),
        contains "modulenotfounderror" (lower error_type) = true
        \/ (contains "no module named" (lower message) = true
            /\ contains "import" (lower message) = false) ->
        _generate_fix_with_heuristics original_content line_number IMPORT error_type message
        = EmptyString)
  /\ (forall (os : string -> resolution) (fs : FS)
         (repo_path file error_type message place : string) (line_number : Z),
        os (path_join repo_path file) = Resolves place ->
        contains "modulenotfounderror" (lower error_type) = true
        \/ (contains "no module named" (lower message) = true
            /\ contains "import" (lower message) = false) ->
        apply_fix_on ast_parse os fs repo_path file line_number IMPORT message error_type
        = (fs, Ok false)).
Proof.
  split; [|split].
  - intros x name stmt original_content error_type line_number Hin Hname Hmnf.
    unfold _generate_fix_with_heuristics. cbv zeta.
    rewrite lower_name_message, Hname.
    rewrite bool_decide_eq_true_2 by done. cbn [orb].
    unfold import_block. rewrite Hmnf.
    repeat (apply elem_of_cons in Hin as [[= -> ->] | Hin]; [by vm_compute|]).
    by apply elem_of_nil in Hin.
  - intros original_content error_type message line_number.
    apply heuristics_not_installed.
  - intros os fs repo_path file error_type message place line_number Hos H.
    unfold apply_fix_on. rewrite Hos.
    destruct (fs !! place) as [n|] eqn:Hn; [|by apply apply_fix_at_missing].
    rewrite (apply_fix_at_existing _ _ _ _ _ _ _ n Hn).
    unfold candidate. rewrite heuristics_not_installed by exact H.
    destruct (negb (readable n)); [reflexivity|].
    by destruct ((line_number <? 1) || _).
Qed.

End SourceFixes.

(** ** Failure extraction *)

Section Extraction.
Import PyStr Re TestAgent.

Implicit Types (f : TestFailure) (l failures : list TestFailure)
  (seen : gset (string * Z)) (st : parse_state).

(** Recording a list of candidates one after the other. *)
Lemma record_once_keep_first f failures seen :
  record_once f failures seen
  = (failures ++ keep_first seen [f],
     if bool_decide (key f ∈ seen) then seen else {[key f]} ∪ seen).
Proof.
  unfold record_once, keep_first. fold (key f).
  destruct (bool_decide (key f ∈ seen)); [by rewrite app_nil_r | reflexivity].
Qed.

Lemma keep_first_app seen l1 l2 :
  keep_first seen (l1 ++ l2)
  = keep_first seen l1 ++ keep_first (list_to_set (key <$> l1) ∪ seen) l2.
Proof.
  revert seen. induction l1 as [|f l1 IH]; intros seen; simpl.
  - f_equal. set_solver.
  - destruct (bool_decide (key f ∈ seen)) eqn:Hf.
    + rewrite IH. f_equal. f_equal.
      apply bool_decide_eq_true in Hf. set_solver.
    + simpl. rewrite IH. f_equal. f_equal. f_equal. set_solver.
Qed.

(** One pass of the loop records the candidates of its line. *)
Lemma loop_body_records repo_path line ahead st :
  let st' := loop_body repo_path line ahead st in
  let cands := candidates_at repo_path line ahead st in
  st_failures st' = st_failures st ++ keep_first (st_seen st) cands
  /\ st_seen st' = list_to_set (key <$> cands) ∪ st_seen st.
Proof.
  cbv zeta. unfold loop_body, candidates_at.
  set (st1 := on_location repo_path line st).
  assert (st_failures st1 = st_failures st /\ st_seen st1 = st_seen st) as [HF HS].
  { unfold st1, on_location. by destruct (re_search true pytest_location_pattern line). }
  rewrite <- HF, <- HS. clear HF HS. generalize st1. clear st st1. intros st.
  assert (forall st0, st_failures (append_traceback line st0) = st_failures st0
                      /\ st_seen (append_traceback line st0) = st_seen st0) as Happ.
  { intros st0. unfold append_traceback. by destruct (current_traceback st0). }
  (* the state after the error-line part, and what it recorded *)
  set (c1 := match re_search true pytest_error_pattern line with
             | Some m =>
                 if file_truthy (current_file st) && line_truthy (current_line st)
                 then [pytest_candidate line m st] else []
             | None => []
             end).
  assert (st_failures (on_error line st) = st_failures st ++ keep_first (st_seen st) c1
          /\ st_seen (on_error line st) = list_to_set (key <$> c1) ∪ st_seen st)
    as [HF1 HS1].
  { unfold on_error, c1.
    destruct (re_search true pytest_error_pattern line) as [m|].
    2:{ destruct (Happ st) as [-> ->]. simpl. rewrite app_nil_r. split; [done | set_solver]. }
    destruct (file_truthy (current_file st) && line_truthy (current_line st)).
    2:{ destruct (Happ st) as [-> ->]. simpl. rewrite app_nil_r. split; [done | set_solver]. }
    rewrite record_once_keep_first. cbn [st_failures st_seen].
    split; [reflexivity|].
    destruct (bool_decide (key (pytest_candidate line m st) ∈ st_seen st)) eqn:Hk;
      [apply bool_decide_eq_true in Hk|]; set_solver. }
  rewrite keep_first_app.
  unfold on_traceback.
  destruct (re_search false traceback_pattern line) as [m|].
  2:{ rewrite HF1, HS1. simpl. rewrite !app_nil_r. split; [done | set_solver]. }
  cbv zeta. set (f := traceback_candidate repo_path line ahead m).
  destruct (endswith (file f) ".py").
  2:{ rewrite HF1, HS1. simpl. rewrite !app_nil_r. split; [done | set_solver]. }
  rewrite record_once_keep_first. cbn [st_failures st_seen].
  rewrite HF1, HS1. rewrite <- app_assoc. split; [reflexivity|].
  destruct (bool_decide (key f ∈ list_to_set (key <$> c1) ∪ st_seen st)) eqn:Hk;
    [apply bool_decide_eq_true in Hk|]; set_solver.
Qed.

(** The loop records the candidates of all its lines. *)
Lemma parse_loop_records repo_path lines st :
  st_failures (parse_loop repo_path lines st)
  = st_failures st ++ keep_first (st_seen st) (candidates repo_path lines st).
Proof.
  revert st. induction lines as [|line rest IH]; intros st; simpl.
  - by rewrite app_nil_r.
  - rewrite IH.
    destruct (loop_body_records repo_path line (take 4 rest) st) as [-> ->].
    by rewrite keep_first_app, <- app_assoc.
Qed.

(** What [keep_first] keeps: no key twice, none of the keys seen, and for
    each key that was not seen, the first record with that key. *)
Lemma keep_first_keys seen l :
  NoDup (key <$> keep_first seen l)
  /\ (forall k, k ∈ key <$> keep_first seen l -> k ∉ seen).
Proof.
  revert seen. induction l as [|f l IH]; intros seen; simpl.
  - split; [constructor | set_solver].
  - destruct (bool_decide (key f ∈ seen)) eqn:Hf; [apply IH|].
    apply bool_decide_eq_false in Hf.
    destruct (IH ({[key f]} ∪ seen)) as [Hnd Hout].
    split.
    + simpl. constructor; [|exact Hnd].
      intros Hin. apply Hout in Hin. set_solver.
    + intros k. simpl. rewrite elem_of_cons. intros [-> | Hin]; [exact Hf|].
      apply Hout in Hin. set_solver.
Qed.

Lemma keep_first_head seen l (k : string * Z) :
  k ∉ seen ->
  head (filter (fun f => key f = k) (keep_first seen l))
  = head (filter (fun f => key f = k) l).
Proof.
  revert seen. induction l as [|f l IH]; intros seen Hk; [reflexivity|].
  cbn [keep_first].
  destruct (bool_decide (key f ∈ seen)) eqn:Hf.
  - apply bool_decide_eq_true in Hf.
    rewrite (filter_cons_False _ f l) by congruence.
    by apply IH.
  - destruct (decide (key f = k)) as [Heq|Hne].
    + by rewrite !filter_cons_True.
    + rewrite !filter_cons_False by done. apply IH. set_solver.
Qed.

(** C2.  For every output text, the records extracted have pairwise
    distinct (file, line) keys.  One set of seen keys serves the whole
    pass and both report styles: the result is the sequence of records
    matched by either style, in order, with every record whose key was
    met before dropped, so that for each key the record kept is the first
    one matched with that key. *)
Theorem parse_output_deduplicated (output repo_path : string) :
  let result := _parse_pytest_output output repo_path in
  let matched := candidates repo_path (split lf output) initial_state in
  NoDup (key <$> result)
  /\ result = keep_first ∅ matched
  /\ (forall k : string * Z,
        head (filter (fun f => key f = k) result)
        = head (filter (fun f => key f = k) matched)).
Proof.
  cbv zeta. unfold _parse_pytest_output.
  rewrite parse_loop_records. cbn [initial_state st_failures st_seen app].
  split; [apply keep_first_keys|].
  split; [reflexivity|].
  intros k. apply keep_first_head. set_solver.
Qed.

End Extraction.

(** ** The healing loop *)

Section Orchestration.
Import PyStr FileSystem TestAgent Orchestrator.

Variable env : Collaborators.
Variable self_retry_limit : Z.
Variable payload : RunAgentRequest.

Local Abbreviation body := (iteration_body env payload).
Local Abbreviation loop := (run_iterations env payload).

(** A failing run with nothing to extract makes [run_tests] raise. *)
Lemma run_tests_extraction_failure (completed : CompletedProcess) (repo_path : string) :
  returncode completed <> 0 ->
  (returncode completed = 4 ->
   _parse_setup_error (combined_output completed) repo_path = None) ->
  _parse_pytest_output (combined_output completed) repo_path = [] ->
  run_tests true (Ok completed) repo_path = Raise extraction_failure.
Proof.
  intros Hcode Hsetup Hnone. unfold run_tests. cbn [negb mbind result_bind].
  cbv zeta.
  destruct (Z.eqb_spec (returncode completed) 0) as [|_]; [done|].
  destruct (Z.eqb_spec (returncode completed) 4) as [H4|_].
  - rewrite (Hsetup H4), Hnone. reflexivity.
  - rewrite Hnone. reflexivity.
Qed.

(** A result of [run_tests] that is not a pass carries a failure. *)
Lemma run_tests_result_shape (found : bool) (run : result CompletedProcess)
    (repo_path : string) (r : TestRunResult) :
  run_tests found run repo_path = Ok r ->
  (passed r = true /\ failures r = []) \/ (passed r = false /\ failures r <> []).
Proof.
  unfold run_tests. destruct found; [|done]. cbn [negb].
  destruct run as [completed|e]; [|done]. cbn [mbind result_bind]. cbv zeta.
  destruct (returncode completed =? 0); [intros [= <-]; by left|].
  destruct (if returncode completed =? 4 then _ else None) as [f|].
  { intros [= <-]. by right. }
  destruct (_parse_pytest_output _ _) as [|f l]; [done|].
  intros [= <-]. by right.
Qed.

(** An exception of [run_tests] ends the pass, and the loop with it. *)
Lemma body_run_tests_raises (repo_path : string) (iteration : Z) (w : World) (e : exn) :
  run_tests (test_files_found env iteration (w_fs w)) (run_pytest env iteration (w_fs w))
    repo_path = Raise e ->
  body repo_path iteration w = (entering iteration w, Raise e).
Proof.
  intros H. unfold iteration_body, bind, modify_results, get_fs, lift, entering.
  cbn [w_fs fst]. by rewrite H.
Qed.

Lemma loop_run_tests_raises (repo_path : string) (iteration : Z) (rest : list Z)
    (w : World) (e : exn) :
  run_tests (test_files_found env iteration (w_fs w)) (run_pytest env iteration (w_fs w))
    repo_path = Raise e ->
  loop repo_path (iteration :: rest) w = (entering iteration w, Raise e).
Proof.
  intros H. cbn [run_iterations]. unfold bind at 1.
  by rewrite (body_run_tests_raises _ _ _ _ H).
Qed.

Lemma loop_after (repo_path : string) (done rest : list Z) (w w' : World) :
  state_after env payload repo_path done w = Some w' ->
  loop repo_path (done ++ rest) w = loop repo_path rest w'.
Proof.
  revert w. induction done as [|iteration done IH]; intros w; simpl.
  - by intros [= ->].
  - unfold bind at 1.
    destruct (body repo_path iteration w) as [w1 [[|]|e]]; try done.
    apply IH.
Qed.

(** C3.  When the test process ends with a non-zero exit code, no setup
    error can be read (or the exit code is not the one of setup errors)
    and no failure record can be extracted, [run_tests] raises instead of
    returning a result; and when this happens in a pass of the loop, the
    run is finalized as FAILED in that very pass: the iteration counter
    stays at that pass, and the working tree, the fix records, the commit
    count and the timeline are the ones the pass started with. *)
Theorem extraction_failure_fails_run (fs : FS) (run_state : RunState)
    (repo_info : RepoInfo) (done rest : list Z) (iteration : Z)
    (w1 w : World) (completed : CompletedProcess) :
  prologue env payload {| w_fs := fs; w_run := run_state |} = (w1, Ok repo_info) ->
  range_from_1 self_retry_limit = done ++ iteration :: rest ->
  state_after env payload (repo_path repo_info) done w1 = Some w ->
  test_files_found env iteration (w_fs w) = true ->
  run_pytest env iteration (w_fs w) = Ok completed ->
  returncode completed <> 0 ->
  (returncode completed = 4 ->
   _parse_setup_error (combined_output completed) (repo_path repo_info) = None) ->
  _parse_pytest_output (combined_output completed) (repo_path repo_info) = [] ->
  run_tests true (Ok completed) (repo_path repo_info) = Raise extraction_failure
  /\ let final := execute_run env self_retry_limit payload fs run_state in
     status (w_run final) = FAILED
     /\ final_status (results (w_run final)) = FAILED
     /\ iterations_used (results (w_run final)) = iteration
     /\ w_fs final = w_fs w
     /\ fixes (results (w_run final)) = fixes (results (w_run w))
     /\ commits (results (w_run final)) = commits (results (w_run w))
     /\ ci_timeline (results (w_run final)) = ci_timeline (results (w_run w)).
Proof.
  intros Hpro Hrange Hdone Hfound Hrun Hcode Hsetup Hnone.
  pose proof (run_tests_extraction_failure _ _ Hcode Hsetup Hnone) as Hraise.
  split; [exact Hraise|].
  assert (try_block env self_retry_limit payload {| w_fs := fs; w_run := run_state |}
          = (entering iteration w, Raise extraction_failure)) as Htry.
  { unfold try_block. unfold bind at 1. rewrite Hpro. unfold bind at 1.
    rewrite Hrange, (loop_after _ _ _ _ _ Hdone).
    rewrite (loop_run_tests_raises _ _ _ _ extraction_failure); [reflexivity|].
    by rewrite Hfound, Hrun. }
  cbv zeta. unfold execute_run. rewrite Htry.
  repeat split.
Qed.

(** Each failure processed leaves one record, and the local counter of
    applied fixes grows by the number of records marked applied. *)
Lemma process_failure_counts (repo_path : string) (failure : TestFailure)
    (n m : Z) (w w' : World) :
  process_failure env repo_path failure n w = (w', Ok m) ->
  exists record,
    fixes (results (w_run w')) = fixes (results (w_run w)) ++ [record]
    /\ m = n + count_applied [record].
Proof.
  unfold process_failure, bind, lift, ret, modify_results, Orchestrator.apply_fix.
  destruct (FixAgent.apply_fix_on _ _ _ _ _ _ _ _ _) as [fs' [applied|e]]; [|done].
  destruct (FixAgent.generate_fix _ _ _ _) as [proposal|e]; [|done].
  destruct (GitAgent.enforce_commit_prefix _) as [[]|e]; [|done].
  destruct (new_FixRecord _ _ _ _ _ _) as [record|e] eqn:Hrec; [|done].
  intros [= <- <-]. exists record. split; [reflexivity|].
  unfold new_FixRecord in Hrec.
  destruct (FixAgent.fp_line_number proposal <? 0); [done|].
  injection Hrec as <-. unfold count_applied.
  destruct applied.
  - rewrite filter_cons_True by done. simpl. lia.
  - rewrite filter_cons_False by done. simpl. lia.
Qed.

Lemma count_applied_app (l1 l2 : list FixRecord) :
  count_applied (l1 ++ l2) = count_applied l1 + count_applied l2.
Proof. unfold count_applied. rewrite filter_app, length_app. lia. Qed.

Lemma process_failures_counts (repo_path : string) (failures : list TestFailure) :
  forall (n m : Z) (w w' : World),
    process_failures env repo_path failures n w = (w', Ok m) ->
    exists records,
      fixes (results (w_run w')) = fixes (results (w_run w)) ++ records
      /\ List.length records = List.length failures
      /\ m = n + count_applied records.
Proof.
  induction failures as [|failure failures IH]; intros n m w w'; simpl.
  - unfold ret. intros [= <- <-]. exists []. rewrite app_nil_r.
    split; [reflexivity|]. split; [reflexivity|]. unfold count_applied. simpl. lia.
  - unfold bind at 1.
    destruct (process_failure env repo_path failure n w) as [w1 [n1|e]] eqn:H1; [|done].
    intros H2.
    apply process_failure_counts in H1 as (record & Hf1 & ->).
    apply IH in H2 as (records & Hf2 & Hlen & ->).
    exists (record :: records). rewrite Hf2, Hf1, <- app_assoc.
    split; [reflexivity|]. split; [simpl; by rewrite Hlen|].
    change (record :: records) with ([record] ++ records).
    rewrite count_applied_app. lia.
Qed.

End Orchestration.

Section Reports.
Import PyStr FileSystem TestAgent Orchestrator.

(** The report of a finished run. *)
Lemma final_total_fixes (env : Collaborators) (self_retry_limit : Z)
    (payload : RunAgentRequest) (fs : FS) (run_state : RunState) :
  let r := results (w_run (execute_run env self_retry_limit payload fs run_state)) in
  total_fixes r = Z.of_nat (List.length (fixes r)).
Proof.
  cbv zeta. unfold execute_run.
  by destruct (try_block env self_retry_limit payload _) as [w [[]|e]].
Qed.

(** C7, as stated, fails: a run whose only failure could not be fixed
    reports one fix, although no record is marked applied. *)
Lemma total_fixes_is_not_applied_count :
  ~ (forall (env : Collaborators) (self_retry_limit : Z) (payload : RunAgentRequest)
       (fs : FS) (run_state : RunState),
       let r := results (w_run (execute_run env self_retry_limit payload fs run_state)) in
       total_fixes r = count_applied (fixes r)).
Proof.
  intros H.
  specialize (H (Scenario.collaborators 1 Scenario.output_assertion "FAILED") 1
                Scenario.request Scenario.tree (Scenario.registered 1)).
  vm_compute in H. discriminate H.
Qed.

(** C7, amended.  Only an applied fix increments the counter of applied
    fixes that a pass keeps (the one that decides whether it commits):
    processing the failures of a pass leaves one record per failure and
    adds to the counter the number of records marked applied.  The
    reported total_fixes is the number of all records of the run, applied
    or not, hence at least the number of applied ones.  In the end-to-end
    scenario (retry limit 1, one undefined-name failure for os, a CI poll
    that does not report success) the run ends FAILED after one pass with
    exactly one record, marked applied, total_fixes = 1, and the import
    at the top of the file. *)
Theorem total_fixes_counts_all_records :
  (forall (env : Collaborators) (payload : RunAgentRequest) (repo_path : string)
     (failures : list TestFailure) (n m : Z) (w w' : World),
     process_failures env repo_path failures n w = (w', Ok m) ->
     exists records,
       fixes (results (w_run w')) = fixes (results (w_run w)) ++ records
       /\ List.length records = List.length failures
       /\ m = n + count_applied records)
  /\ (forall (env : Collaborators) (self_retry_limit : Z) (payload : RunAgentRequest)
        (fs : FS) (run_state : RunState),
        let r := results (w_run (execute_run env self_retry_limit payload fs run_state)) in
        total_fixes r = Z.of_nat (List.length (fixes r))
        /\ count_applied (fixes r) <= total_fixes r)
  /\ (let final :=
        execute_run (Scenario.collaborators 1 Scenario.output_undefined_os "FAILED") 1
          Scenario.request Scenario.tree (Scenario.registered 1) in
      let r := results (w_run final) in
      status (w_run final) = FAILED
      /\ final_status r = FAILED
      /\ iterations_used r = 1
      /\ fr_status <$> fixes r = [FIXED]
      /\ total_fixes r = 1
      /\ content <$> (w_fs final !! "/repo/tests/test_a.py")
         = Some ("import os" +:+ nl +:+ nl +:+ Scenario.source)).
Proof.
  split; [|split].
  - intros env payload repo_path failures n m w w'. apply process_failures_counts.
  - intros env self_retry_limit payload fs run_state r. subst r.
    pose proof (final_total_fixes env self_retry_limit payload fs run_state) as H.
    cbv zeta in H. split; [exact H|].
    rewrite H. unfold count_applied. apply inj_le, length_filter.
  - by vm_compute.
Qed.

(** With a CI poll that reports success, the same scenario ends PASSED. *)
Example scenario_with_passing_ci :
  let r := Scenario.report 1 1 Scenario.output_undefined_os "PASSED" in
  final_status r = PASSED /\ fr_status <$> fixes r = [FIXED] /\ total_fixes r = 1.
Proof. by vm_compute. Qed.

End Reports.

(** ** The scoring function *)

Section Scoring.
Import ScoreAgent.

Lemma time_bonus_below (t c : Z) : t < 300 -> time_bonus (calculate_score t c) = 10.
Proof. intros H. unfold calculate_score; simpl. destruct (Z.ltb_spec t 300); lia. Qed.

Lemma time_bonus_from (t c : Z) : 300 <= t -> time_bonus (calculate_score t c) = 0.
Proof. intros H. unfold calculate_score; simpl. destruct (Z.ltb_spec t 300); lia. Qed.

Lemma commit_penalty_above (t c : Z) :
  20 < c -> commit_penalty (calculate_score t c) = 2 * (c - 20).
Proof.
  intros H. unfold calculate_score; simpl.
  destruct (Z.gtb_spec c 20); lia.
Qed.

Lemma commit_penalty_upto (t c : Z) : c <= 20 -> commit_penalty (calculate_score t c) = 0.
Proof.
  intros H. unfold calculate_score; simpl.
  destruct (Z.gtb_spec c 20); lia.
Qed.

(** C5.  The score is a function of the elapsed seconds and the number of
    commits alone: the base is 100, the bonus is 10 exactly below 300
    seconds, the penalty is twice the commits beyond 20, and the final
    score is the sum floored at 0; it is 110 at (299, 5), 90 at (400, 25)
    and 110 at (10, 0).  This holds for all integers, so in particular for
    the non-negative ones. *)
Theorem calculate_score_spec :
  (forall t c : Z,
     let s := calculate_score t c in
     base_score s = 100
     /\ (t < 300 -> time_bonus s = 10) /\ (300 <= t -> time_bonus s = 0)
     /\ (20 < c -> commit_penalty s = 2 * (c - 20)) /\ (c <= 20 -> commit_penalty s = 0)
     /\ final_score s = Z.max 0 (base_score s + time_bonus s - commit_penalty s)
     /\ 0 <= final_score s)
  /\ final_score (calculate_score 299 5) = 110
  /\ final_score (calculate_score 400 25) = 90
  /\ final_score (calculate_score 10 0) = 110.
Proof.
  split; [|by vm_compute].
  intros t c s. subst s.
  split; [reflexivity|].
  split; [apply time_bonus_below|].
  split; [apply time_bonus_from|].
  split; [apply commit_penalty_above|].
  split; [apply commit_penalty_upto|].
  unfold calculate_score; simpl. lia.
Qed.

End Scoring.

(** ** The bug classifier *)

Section Classifier.
Import FailureParserAgent.

(** The nested conditionals of the source are the ordered rule list. *)
Lemma classify_is_first_match (error_type message : string) :
  _classify_bug_type error_type message = first_match rules LOGIC error_type message.
Proof.
  unfold _classify_bug_type, first_match, rules, rule_import, rule_syntax,
    rule_indentation, rule_type_error, rule_linting.
  cbv zeta.
  set (e := PyStr.lower error_type). set (m := PyStr.lower message).
  destruct (PyStr.contains "importerror" e || PyStr.contains "modulenotfounderror" e);
    [reflexivity|].
  destruct (PyStr.contains "import" m
            && (PyStr.contains "cannot" m || PyStr.contains "no module" m));
    [reflexivity|].
  destruct (PyStr.contains "nameerror" e && PyStr.contains "is not defined" m);
    [reflexivity|].
  destruct (PyStr.contains "syntaxerror" e || PyStr.contains "invalidsyntax" e);
    [reflexivity|].
  destruct (PyStr.contains "syntax" m); [reflexivity|].
  destruct (PyStr.contains "indentationerror" e || PyStr.contains "taberror" e);
    [reflexivity|].
  destruct (PyStr.contains "indent" m || PyStr.contains "unexpected indent" m);
    [reflexivity|].
  destruct (PyStr.contains "typeerror" e || PyStr.contains "attributeerror" e);
    [reflexivity|].
  destruct (PyStr.contains "type" m
            && (PyStr.contains "expected" m || PyStr.contains "got" m));
    [reflexivity|].
  reflexivity.
Qed.

(** C1.  The classifier is a total function of the error type and the
    message, and depends on them only up to letter case: it is the first
    matching rule of the priority list IMPORT, SYNTAX, INDENTATION,
    TYPE_ERROR, LINTING (keywords compared after lowering both strings),
    so a rule decides exactly when the rules before it do not match, and
    LOGIC is the answer if and only if none of the five rules matches. *)
Theorem classify_total_first_match_logic_iff (error_type message : string) :
  (exists! b : BugType, _classify_bug_type error_type message = b)
  /\ (forall error_type' message' : string,
        PyStr.lower error_type' = PyStr.lower error_type ->
        PyStr.lower message' = PyStr.lower message ->
        _classify_bug_type error_type' message' = _classify_bug_type error_type message)
  /\ _classify_bug_type error_type message = first_match rules LOGIC error_type message
  /\ (rule_import error_type message = true ->
      _classify_bug_type error_type message = IMPORT)
  /\ (rule_import error_type message = false ->
      rule_syntax error_type message = true ->
      _classify_bug_type error_type message = SYNTAX)
  /\ (rule_import error_type message = false ->
      rule_syntax error_type message = false ->
      rule_indentation error_type message = true ->
      _classify_bug_type error_type message = INDENTATION)
  /\ (rule_import error_type message = false ->
      rule_syntax error_type message = false ->
      rule_indentation error_type message = false ->
      rule_type_error error_type message = true ->
      _classify_bug_type error_type message = TYPE_ERROR)
  /\ (rule_import error_type message = false ->
      rule_syntax error_type message = false ->
      rule_indentation error_type message = false ->
      rule_type_error error_type message = false ->
      rule_linting error_type message = true ->
      _classify_bug_type error_type message = LINTING)
  /\ (_classify_bug_type error_type message = LOGIC <->
      rule_import error_type message = false
      /\ rule_syntax error_type message = false
      /\ rule_indentation error_type message = false
      /\ rule_type_error error_type message = false
      /\ rule_linting error_type message = false).
Proof.
  split.
  { exists (_classify_bug_type error_type message). split; [reflexivity|].
    intros b Hb. exact Hb. }
  split.
  { intros error_type' message' He Hm. unfold _classify_bug_type. cbv zeta.
    by rewrite He, Hm. }
  rewrite classify_is_first_match. unfold first_match, rules.
  destruct (rule_import error_type message), (rule_syntax error_type message),
    (rule_indentation error_type message), (rule_type_error error_type message),
    (rule_linting error_type message);
    repeat split; try reflexivity; try congruence; intros; try discriminate;
    try tauto; intuition congruence.
Qed.

End Classifier.

(** ** Instances *)

Section Instances.
Import PyStr FileSystem TestAgent FixAgent Orchestrator.

(** The case of the compliance test of the repository. *)
Example branch_name_compliance_case :
  GitAgent.build_branch_name "RIFT ORGANISERS" "Saiyam Kumar"
  = "RIFT_ORGANISERS_SAIYAM_KUMAR_AI_Fix"
  /\ GitAgent.validate_branch_name "RIFT_ORGANISERS_SAIYAM_KUMAR_ABC123_AI_Fix" = false
  /\ GitAgent.build_branch_name "42" "!" = "__AI_Fix".
Proof. by vm_compute. Qed.

Example classify_cases :
  FailureParserAgent._classify_bug_type "NameError" "name 'os' is not defined" = IMPORT
  /\ FailureParserAgent._classify_bug_type "SyntaxError" "expected ':'" = SYNTAX
  /\ FailureParserAgent._classify_bug_type "IndentationError" "unexpected indent"
     = INDENTATION
  /\ FailureParserAgent._classify_bug_type "TypeError" "unsupported operand" = TYPE_ERROR
  /\ FailureParserAgent._classify_bug_type "UnknownError" "flake8: E501" = LINTING
  /\ FailureParserAgent._classify_bug_type "AssertionError" "assert 1 == 2" = LOGIC
  /\ FailureParserAgent._classify_bug_type "SyntaxError" "cannot import name x" = IMPORT.
Proof. by vm_compute. Qed.

(** Two reports of different styles for one location give one record. *)
Example one_record_for_both_styles :
  (fun f => (file f, line_number f, error_type f))
    <$> _parse_pytest_output Scenario.output_both_styles "/repo"
  = [("tests/test_a.py", 2, "NameError")]
  /\ List.length (candidates "/repo" (split lf Scenario.output_both_styles) initial_state)
     = 2%nat.
Proof. by vm_compute. Qed.

Example import_os_is_prepended :
  _generate_fix_with_heuristics Scenario.source 2 IMPORT "NameError"
    "name 'os' is not defined"
  = "import os" +:+ nl +:+ nl +:+ Scenario.source
  /\ _generate_fix_with_heuristics Scenario.source 2 IMPORT "NameError"
       "name 'Path' is not defined"
     = "from pathlib import Path" +:+ nl +:+ nl +:+ Scenario.source
  /\ _generate_fix_with_heuristics Scenario.source 2 IMPORT "ModuleNotFoundError"
       "No module named 'requests'"
     = EmptyString.
Proof. by vm_compute. Qed.

(** An instance of C3: the first of three passes meets an output with
    nothing to extract. *)
Lemma extraction_failure_fails_run_witness :
  let env := Scenario.collaborators 1 Scenario.output_unreadable "FAILED" in
  let final := execute_run env 3 Scenario.request Scenario.tree (Scenario.registered 3) in
  _parse_pytest_output (Scenario.output_unreadable +:+ nl +:+ EmptyString) "/repo" = []
  /\ status (w_run final) = FAILED
  /\ final_status (results (w_run final)) = FAILED
  /\ iterations_used (results (w_run final)) = 1
  /\ fixes (results (w_run final)) = []
  /\ ci_timeline (results (w_run final)) = [].
Proof.
  intros env final.
  pose (w0 := {| w_fs := Scenario.tree; w_run := Scenario.registered 3 |}).
  pose (w1 := (prologue env Scenario.request w0).1).
  pose (completed :=
          {| returncode := 1; stdout := Scenario.output_unreadable;
             stderr := EmptyString |}).
  assert (_parse_pytest_output (combined_output completed) "/repo" = []) as Hnone
    by (vm_compute; reflexivity).
  destruct (extraction_failure_fails_run env 3 Scenario.request Scenario.tree
              (Scenario.registered 3) {| repo_path := "/repo"; language := "python" |}
              [] [2; 3] 1 w1 w1 completed) as (_ & H1 & H2 & H3 & _ & H5 & _ & H7).
  - vm_compute; reflexivity.
  - vm_compute; reflexivity.
  - reflexivity.
  - reflexivity.
  - reflexivity.
  - vm_compute; discriminate.
  - vm_compute; discriminate.
  - exact Hnone.
  - unfold final. split; [exact Hnone|].
    split; [exact H1|]. split; [exact H2|]. split; [exact H3|].
    split; [rewrite H5; vm_compute; reflexivity | rewrite H7; vm_compute; reflexivity].
Defined.





End Instances.

(** * Further properties *)

(** ** What a pattern accepts *)

Section MatcherSound.
Import PyStr Re.

Lemma eat_sound (l : string) (prev prev' : option ascii) (s s' : string) :
  eat l prev s = Some (prev', s') -> s = l +:+ s' /\ prev' = last_char prev l.
Proof.
  revert prev s. induction l as [|a l IH]; intros prev s; simpl.
  - by intros [= <- <-].
  - destruct s as [|b s]; [done|].
    destruct (Ascii.eqb_spec a b) as [<-|]; [|done].
    intros H. apply IH in H as [-> ->]. by rewrite str_app_cons.
Qed.

(** A match of a repetition splits the subject into a run of the class,
    long enough, and what the rest of the pattern matched. *)
Lemma rep_sound (c : ascii -> bool) (next : continuation) (s : string) :
  forall (prev : option ascii) (i need : nat) (r : nat * list nat),
    rep c next prev s i need = Some r ->
    exists u v,
      s = u +:+ v /\ all_chars c u = true /\ (need <= String.length u)%nat
      /\ next (last_char prev u) v (i + String.length u)%nat = Some r.
Proof.
  induction s as [|x s IH]; intros prev i need r; simpl.
  - destruct (Nat.eqb_spec need 0) as [->|]; [|done].
    intros H. exists EmptyString, EmptyString. simpl.
    replace (i + 0)%nat with i by lia. done.
  - assert ((if (need =? 0)%nat then next prev (String x s) i else None) = Some r ->
            exists u v, String x s = u +:+ v /\ all_chars c u = true
                        /\ (need <= String.length u)%nat
                        /\ next (last_char prev u) v (i + String.length u)%nat = Some r)
      as Hstop.
    { destruct (Nat.eqb_spec need 0) as [->|]; [|done].
      intros H. exists EmptyString, (String x s). simpl.
      replace (i + 0)%nat with i by lia. done. }
    destruct (c x) eqn:Hx; [|exact Hstop].
    destruct (rep c next (Some x) s (S i) (Nat.pred need)) as [r'|] eqn:Hrep;
      [|exact Hstop].
    intros [= <-]. apply IH in Hrep as (u & v & -> & Hu & Hlen & Hnext).
    exists (String x u), v. rewrite str_app_cons. simpl. rewrite Hx, Hu.
    replace (i + S (String.length u))%nat with (S i + String.length u)%nat by lia.
    repeat split; [lia | exact Hnext].
Qed.

Lemma at_eol_single (s : string) :
  at_eol false s = true <-> s = EmptyString \/ s = String lf EmptyString.
Proof.
  destruct s as [|c s]; simpl; [naive_solver|].
  split.
  - intros [Hc Hs]%andb_prop. apply Ascii.eqb_eq in Hc as ->.
    apply String.eqb_eq in Hs as ->. by right.
  - intros [|[= -> ->]]; done.
Qed.

End MatcherSound.

(** ** Names *)

Section Names.
Import PyStr Re GitAgent.

(** X1.  [validate_branch_name] accepts exactly the names made of a
    non-empty word over [[A-Z_]] followed by the suffix. *)
Theorem validate_branch_name_iff (branch_name : string) :
  validate_branch_name branch_name = true
  <-> exists u, branch_name = u +:+ "_AI_Fix" /\ u <> EmptyString
                /\ all_chars upper_or_underscore u = true.
Proof.
  split.
  - unfold validate_branch_name. intros [Hm _]%andb_prop.
    apply bool_decide_eq_true in Hm. unfold re_fullmatch in Hm.
    apply fmap_is_Some in Hm as [r Hr].
    unfold BRANCH_PATTERN in Hr. cbn [app] in Hr. rewrite run_Bol_start in Hr.
    cbn [run] in Hr. apply rep_sound in Hr as (u & v & -> & Hu & Hlen & Hnext).
    destruct (eat "_AI_Fix" (last_char None u) v) as [[prev' s']|] eqn:Heat; [|done].
    apply eat_sound in Heat as [-> _].
    destruct (at_eol false s'); [|done].
    destruct s'; [|done].
    exists u. split; [reflexivity|]. split; [|exact Hu].
    intros ->. simpl in Hlen. lia.
  - intros (u & -> & Hne & Hu). unfold validate_branch_name.
    rewrite endswith_app, andb_true_r. apply bool_decide_eq_true.
    apply branch_pattern_accepts; [exact Hu|].
    destruct u; [done | simpl; lia].
Qed.

End Names.

(** ** Normalized names *)

Section Normalized.
Import PyStr Re GitAgent.

Lemma lstrip_by_head (p : ascii -> bool) (s : string) :
  match lstrip_by p s with
  | EmptyString => True
  | String c _ => p c = false
  end.
Proof.
  induction s as [|c s IH]; simpl; [done|].
  destruct (p c) eqn:Hc; [exact IH | exact Hc].
Qed.

Lemma rstrip_by_empty (p : ascii -> bool) (s : string) :
  rstrip_by p s = EmptyString <-> all_chars p s = true.
Proof.
  induction s as [|c s IH]; simpl; [done|].
  destruct (rstrip_by p s) as [|c' r].
  - destruct (p c); simpl; [tauto | split; [done | by intros ?]].
  - split; [done|]. intros [_ H]%andb_prop. apply IH in H. done.
Qed.

Lemma lstrip_by_empty (p : ascii -> bool) (s : string) :
  lstrip_by p s = EmptyString <-> all_chars p s = true.
Proof.
  induction s as [|c s IH]; simpl; [done|].
  destruct (p c); simpl; [exact IH | split; done].
Qed.

Lemma all_chars_lstrip_by_same (p : ascii -> bool) (s : string) :
  all_chars p (lstrip_by p s) = all_chars p s.
Proof.
  induction s as [|c s IH]; simpl; [done|].
  destruct (p c) eqn:Hc; simpl; [exact IH | by rewrite Hc].
Qed.

Lemma strip_by_empty (p : ascii -> bool) (s : string) :
  strip_by p s = EmptyString <-> all_chars p s = true.
Proof.
  unfold strip_by. rewrite rstrip_by_empty. by rewrite all_chars_lstrip_by_same.
Qed.

(** A right strip keeps the first character of what it leaves. *)
Lemma rstrip_by_cons (p : ascii -> bool) (c : ascii) (s : string) :
  rstrip_by p (String c s) = EmptyString
  \/ exists r, rstrip_by p (String c s) = String c r.
Proof.
  simpl. destruct (rstrip_by p s) as [|c' r].
  - destruct (p c); [by left | right; by eexists].
  - right. by eexists.
Qed.

Lemma separated_cons (last : bool) (c : ascii) (s : string) :
  separated last (String c s)
  = (if chr underscore c then
       match s with
       | EmptyString => last
       | String c2 _ => negb (chr underscore c2)
       end
     else true)
    && separated last s.
Proof. reflexivity. Qed.

Lemma separated_collapse (s : string) : separated true (collapse_underscores s) = true.
Proof.
  induction s as [|c s IH]; [done|].
  cbn [collapse_underscores].
  destruct (chr underscore c) eqn:Hc.
  - destruct s as [|c2 s]; [by simpl; rewrite Hc|].
    destruct (chr underscore c2) eqn:Hc2; [exact IH|].
    revert IH. cbn [collapse_underscores]. rewrite Hc2.
    intros IH. rewrite separated_cons, Hc, Hc2. exact IH.
  - rewrite separated_cons, Hc. exact IH.
Qed.

Lemma separated_tail (last : bool) (c : ascii) (s : string) :
  separated last (String c s) = true -> separated last s = true.
Proof. simpl. by intros [_ ?]%andb_prop. Qed.

Lemma separated_lstrip_by (p : ascii -> bool) (last : bool) (s : string) :
  separated last s = true -> separated last (lstrip_by p s) = true.
Proof.
  induction s as [|c s IH]; [done|]. intros H. simpl.
  destruct (p c); [apply IH; by eapply separated_tail | exact H].
Qed.

Lemma separated_rstrip_by (s : string) :
  separated true s = true -> separated false (rstrip_by (chr underscore) s) = true.
Proof.
  induction s as [|c s IH]; [done|]. intros H.
  pose proof (separated_tail _ _ _ H) as Hs. specialize (IH Hs).
  cbn [rstrip_by].
  destruct (rstrip_by (chr underscore) s) as [|c2 r] eqn:Hr.
  - destruct (chr underscore c) eqn:Hc; [done|]. simpl. by rewrite Hc.
  - destruct s as [|c2' s']; [done|].
    destruct (rstrip_by_cons (chr underscore) c2' s') as [He|[r' He]];
      rewrite He in Hr; [done|]. injection Hr as <- <-.
    rewrite separated_cons in H. rewrite separated_cons.
    apply andb_prop in H as [H _]. rewrite IH, andb_true_r.
    destruct (chr underscore c); [exact H | done].
Qed.

Lemma prefix_cons (a c : ascii) (p s : string) :
  String.prefix (String a p) (String c s) = Ascii.eqb c a && String.prefix p s.
Proof.
  cbn [String.prefix].
  destruct (ascii_dec a c) as [->|Hne]; [by rewrite Ascii.eqb_refl|].
  symmetry. apply andb_false_intro1, Ascii.eqb_neq. congruence.
Qed.

Lemma prefix_nil (s : string) : String.prefix EmptyString s = true.
Proof. by destruct s. Qed.

Lemma prefix_underscore (s : string) :
  startswith s "_" = match s with
                     | EmptyString => false
                     | String c _ => chr underscore c
                     end.
Proof.
  destruct s as [|c s]; [done|]. unfold startswith, chr.
  by rewrite prefix_cons, prefix_nil, andb_true_r.
Qed.

Lemma separated_no_double (last : bool) (s : string) :
  separated last s = true -> contains "__" s = false.
Proof.
  induction s as [|c s IH]; [intros _; reflexivity|].
  rewrite separated_cons. intros [Hc Hs]%andb_prop.
  cbn [contains]. rewrite (IH Hs), orb_false_r.
  rewrite prefix_cons. change (Ascii.eqb c "_") with (chr underscore c).
  destruct (chr underscore c); [|done].
  destruct s as [|c2 s]; [done|].
  rewrite prefix_cons, prefix_nil. change (Ascii.eqb c2 "_") with (chr underscore c2).
  apply negb_true_iff in Hc. by rewrite Hc.
Qed.

Lemma substring_split (a : nat) (s : string) :
  (a <= String.length s)%nat ->
  s = String.substring 0 a s +:+ String.substring a (String.length s - a) s.
Proof.
  revert s. induction a as [|a IH]; intros s Ha.
  - replace (String.length s - 0)%nat with (String.length s) by lia.
    rewrite substring_all. by destruct s.
  - destruct s as [|c s]; [simpl in Ha; lia|].
    simpl in Ha. simpl. rewrite str_app_cons. f_equal. apply IH. lia.
Qed.

Lemma endswith_inv (s p : string) : endswith s p = true -> exists u, s = u +:+ p.
Proof.
  unfold endswith. intros [Hle Heq]%andb_prop.
  apply Nat.leb_le in Hle. apply String.eqb_eq in Heq.
  exists (String.substring 0 (String.length s - String.length p) s).
  rewrite (substring_split (String.length s - String.length p) s) at 1 by lia.
  f_equal. rewrite <- Heq at 3. f_equal. lia.
Qed.

Lemma separated_no_trailing (s : string) :
  separated false s = true -> endswith s "_" = false.
Proof.
  intros Hs. destruct (endswith s "_") eqn:He; [|done].
  apply endswith_inv in He as [u ->]. exfalso.
  induction u as [|c u IH]; [done|].
  rewrite str_app_cons in Hs. by apply separated_tail, IH in Hs.
Qed.

Lemma rstrip_by_head (p : ascii -> bool) (s : string) :
  match s with
  | EmptyString => True
  | String c _ =>
      p c = false ->
      match rstrip_by p s with
      | EmptyString => False
      | String c' _ => c' = c
      end
  end.
Proof.
  destruct s as [|c s]; [done|]. intros Hc.
  destruct (rstrip_by_cons p c s) as [He|[r ->]]; [|done].
  apply rstrip_by_empty in He. simpl in He. by rewrite Hc in He.
Qed.

Lemma strip_by_head (p : ascii -> bool) (s : string) :
  match strip_by p s with
  | EmptyString => True
  | String c _ => p c = false
  end.
Proof.
  unfold strip_by. pose proof (lstrip_by_head p s) as H.
  destruct (lstrip_by p s) as [|c t] eqn:Ht; [done|].
  pose proof (rstrip_by_head p (String c t) H) as H'.
  destruct (rstrip_by p (String c t)); [done | by subst].
Qed.

Lemma normalize_normal (value : string) : normal (_normalize value) = true.
Proof.
  unfold normal. rewrite normalize_chars. cbn [andb].
  apply andb_true_intro; split.
  - rewrite prefix_underscore. unfold _normalize.
    pose proof (strip_by_head (chr underscore)
                  (collapse_underscores
                     (filter_chars upper_or_underscore
                        (spaces_to_underscores (upper value))))) as H.
    destruct (strip_by _ _); [done | by rewrite H].
  - unfold _normalize, strip_by.
    apply separated_rstrip_by, separated_lstrip_by, separated_collapse.
Qed.

(** X2.  A normalized name is a word over [[A-Z_]] that neither starts
    nor ends with an underscore and has no two underscores in a row. *)
Theorem normalize_shape (value : string) :
  let r := _normalize value in
  all_chars upper_or_underscore r = true
  /\ startswith r "_" = false
  /\ endswith r "_" = false
  /\ contains "__" r = false.
Proof.
  cbv zeta. pose proof (normalize_normal value) as H. unfold normal in H.
  apply andb_prop in H as [[H1 H2]%andb_prop H3].
  split; [exact H1|]. split; [by apply negb_true_iff in H2|].
  split; [by apply separated_no_trailing | by eapply separated_no_double].
Qed.

(** Each step of the normalization leaves a normal word as it is. *)
Lemma char_upper_fixed (c : ascii) : upper_or_underscore c = true -> char_upper c = c.
Proof. destruct c as [[] [] [] [] [] [] [] []]; by vm_compute. Qed.

Lemma char_not_space (c : ascii) : upper_or_underscore c = true -> chr " "%char c = false.
Proof. destruct c as [[] [] [] [] [] [] [] []]; by vm_compute. Qed.

Lemma map_chars_fixed (f : ascii -> ascii) (p : ascii -> bool) (s : string) :
  (forall c, p c = true -> f c = c) -> all_chars p s = true -> map_chars f s = s.
Proof.
  intros Hf. induction s as [|c s IH]; [done|].
  simpl. intros [Hc Hs]%andb_prop. by rewrite (Hf c Hc), IH.
Qed.

Lemma filter_chars_fixed (p : ascii -> bool) (s : string) :
  all_chars p s = true -> filter_chars p s = s.
Proof.
  induction s as [|c s IH]; [done|].
  simpl. intros [Hc Hs]%andb_prop. by rewrite Hc, IH.
Qed.

Lemma collapse_fixed (s : string) :
  separated false s = true -> collapse_underscores s = s.
Proof.
  induction s as [|c s IH]; [done|].
  rewrite separated_cons. intros [Hc Hs]%andb_prop.
  cbn [collapse_underscores]. rewrite (IH Hs).
  destruct (chr underscore c); [|done].
  destruct s as [|c2 s]; [done|].
  apply negb_true_iff in Hc. by rewrite Hc.
Qed.

Lemma rstrip_fixed (s : string) :
  separated false s = true -> rstrip_by (chr underscore) s = s.
Proof.
  induction s as [|c s IH]; [done|].
  rewrite separated_cons. intros [Hc Hs]%andb_prop.
  cbn [rstrip_by]. rewrite (IH Hs).
  destruct s as [|c2 s]; [|done].
  by destruct (chr underscore c).
Qed.

Lemma normalize_fixed (s : string) : normal s = true -> _normalize s = s.
Proof.
  unfold normal. intros [[H1 H2]%andb_prop H3]%andb_prop.
  unfold _normalize, upper, spaces_to_underscores.
  rewrite (map_chars_fixed char_upper upper_or_underscore) by
    (exact H1 || exact char_upper_fixed).
  rewrite (map_chars_fixed _ upper_or_underscore); [|  | exact H1].
  2:{ intros c Hc. by rewrite (char_not_space c Hc). }
  rewrite (filter_chars_fixed _ _ H1), (collapse_fixed _ H3).
  unfold strip_by.
  assert (lstrip_by (chr underscore) s = s) as ->.
  { rewrite prefix_underscore in H2. destruct s as [|c s]; [done|].
    simpl. apply negb_true_iff in H2. by rewrite H2. }
  by apply rstrip_fixed.
Qed.

(** X3.  Normalizing twice is normalizing once. *)
Theorem normalize_idempotent (value : string) :
  _normalize (_normalize value) = _normalize value.
Proof. apply normalize_fixed, normalize_normal. Qed.

(** What survives the normalization of one character. *)
Lemma kept_char_is_letter (c : ascii) :
  let c' := (if chr " "%char (char_upper c) then underscore else char_upper c) in
  (if upper_or_underscore c' then chr underscore c' else true) = negb (is_alpha c).
Proof. destruct c as [[] [] [] [] [] [] [] []]; by vm_compute. Qed.

Lemma all_chars_collapse_same (s : string) :
  all_chars (chr underscore) (collapse_underscores s) = all_chars (chr underscore) s.
Proof.
  induction s as [|c s IH]; [done|].
  cbn [collapse_underscores].
  destruct (chr underscore c) eqn:Hc.
  - destruct s as [|c2 s]; [done|].
    destruct (chr underscore c2) eqn:Hc2.
    + rewrite IH. cbn [all_chars]. by rewrite Hc, Hc2.
    + change (all_chars (chr underscore) (String c (collapse_underscores (String c2 s)))
              = all_chars (chr underscore) (String c (String c2 s))).
      cbn [all_chars] in IH |- *. by rewrite IH.
  - simpl. by rewrite Hc.
Qed.

Lemma all_underscores_filter (value : string) :
  all_chars (chr underscore)
    (filter_chars upper_or_underscore (spaces_to_underscores (upper value)))
  = all_chars (fun c => negb (is_alpha c)) value.
Proof.
  induction value as [|c value IH]; [done|].
  unfold upper, spaces_to_underscores in *. cbn [map_chars filter_chars all_chars].
  rewrite <- IH, <- (kept_char_is_letter c). cbv zeta.
  by destruct (upper_or_underscore _).
Qed.

Lemma normalize_empty_spec (value : string) :
  _normalize value = EmptyString
  <-> all_chars (fun c => negb (is_alpha c)) value = true.
Proof.
  unfold _normalize. rewrite strip_by_empty, all_chars_collapse_same.
  by rewrite all_underscores_filter.
Qed.

(** X4.  A name whose normalized form is empty has no letter of the ASCII
    alphabet; and an ASCII name without such a letter has the empty
    normalized form: its digits, blanks and other characters leave no
    trace.  (A character outside ASCII may leave one: the upper case of
    the sharp s is SS.) *)
Theorem normalize_empty_iff (value : string) :
  (_normalize value = EmptyString ->
   all_chars (fun c => negb (is_alpha c)) value = true)
  /\ (all_chars is_ascii value = true ->
      all_chars (fun c => negb (is_alpha c)) value = true ->
      _normalize value = EmptyString).
Proof.
  split; [by intros ?%normalize_empty_spec | by intros _ ?%normalize_empty_spec].
Qed.

End Normalized.

(** ** The entry point and the registry *)

Section EntryPoint.
Import PyStr Re Orchestrator Main.

Lemma name_char_lf : name_char lf = true.
Proof. reflexivity. Qed.

(** What the pattern of names accepts. *)
Lemma valid_name_spec (value : string) :
  _is_valid_name value = true
  <-> value <> EmptyString /\ all_chars name_char value = true.
Proof.
  unfold _is_valid_name, re_match, NAME_PATTERN.
  rewrite bool_decide_eq_true, fmap_is_Some, run_Bol_start.
  split.
  - intros [r Hr]. cbn [run] in Hr.
    apply rep_sound in Hr as (u & v & -> & Hu & Hlen & Hnext).
    destruct (at_eol false v) eqn:Hv; [|done].
    apply at_eol_single in Hv.
    split.
    + destruct u; [simpl in Hlen; lia | done].
    + rewrite all_chars_app, Hu. by destruct Hv as [-> | ->].
  - intros [Hne Hall]. rewrite <- (str_app_nil_r value).
    apply run_Rep; [exact Hall | destruct value; [done | simpl; lia] |].
    by eexists.
Qed.

(** X5.  [_is_valid_name] accepts every non-empty name made of ASCII
    letters, digits and white space, and among the ASCII names it accepts
    no other.  (Outside ASCII it also takes the white space of Unicode,
    such as the no-break space.) *)
Theorem is_valid_name_iff (value : string) :
  (value <> EmptyString /\ all_chars name_char value = true ->
   _is_valid_name value = true)
  /\ (all_chars is_ascii value = true ->
      _is_valid_name value = true ->
      value <> EmptyString /\ all_chars name_char value = true).
Proof.
  split; [by intros ?%valid_name_spec | by intros _ ?%valid_name_spec].
Qed.

Lemma start_run_ok (self_retry_limit : Z) (new_run_id : string)
    (payload : RunAgentRequest) :
  1 <= self_retry_limit ->
  exists run_state,
    Orchestrator.start_run self_retry_limit new_run_id payload = Ok run_state
    /\ run_id run_state = new_run_id
    /\ status run_state = RUNNING
    /\ branch_name (results run_state)
       = GitAgent.build_branch_name (req_team_name payload) (req_leader_name payload)
    /\ fixes (results run_state) = [] /\ iterations_used (results run_state) = 0
    /\ commits (results run_state) = 0.
Proof.
  unfold Orchestrator.start_run.
  assert (GitAgent.validate_branch_name
            (GitAgent.build_branch_name (req_team_name payload) (req_leader_name payload))
          = true) as ->.
  { unfold GitAgent.build_branch_name, GitAgent.validate_branch_name.
    set (t := GitAgent._normalize (req_team_name payload)).
    set (l := GitAgent._normalize (req_leader_name payload)).
    replace (t +:+ "_" +:+ l +:+ "_AI_Fix") with ((t +:+ "_" +:+ l) +:+ "_AI_Fix")
      by (by rewrite !str_app_assoc).
    rewrite endswith_app, andb_true_r.
    apply bool_decide_eq_true, branch_pattern_accepts.
    - rewrite !all_chars_app. unfold t, l. by rewrite !normalize_chars.
    - rewrite !str_length_app. simpl. lia. }
  cbn [negb]. destruct (Z.ltb_spec self_retry_limit 1); [lia|].
  eexists. by repeat split.
Qed.

Lemma start_run_refuses (self_retry_limit : Z) (new_run_id : string)
    (payload : RunAgentRequest) :
  self_retry_limit < 1 ->
  exists m,
    Orchestrator.start_run self_retry_limit new_run_id payload = Raise (ValidationError m).
Proof.
  intros Hlimit.
  destruct (start_run_ok 1 new_run_id payload) as (r & Hr & _); [lia|].
  unfold Orchestrator.start_run in *.
  destruct (negb (GitAgent.validate_branch_name _)); [done|].
  destruct (Z.ltb_spec self_retry_limit 1); [by eexists | lia].
Qed.

(** X6.  [run_agent] registers a run under the new identifier and answers
    with that identifier and the status RUNNING when no field is empty,
    both names are made of ASCII letters, digits and white space, and the
    retry limit is at least 1.  With a retry limit below 1 it refuses
    every request, and it refuses a request with an empty field or an
    ASCII name that has another character: the status is 400 and the
    registry is untouched.  The branch format is never the reason of a
    refusal. *)
Theorem run_agent_accepts_iff (self_retry_limit : Z) (new_run_id : string)
    (payload : RunAgentRequest) (store : RunStore.Store) :
  let valid :=
    repo_url payload <> EmptyString
    /\ req_team_name payload <> EmptyString /\ req_leader_name payload <> EmptyString
    /\ all_chars name_char (req_team_name payload) = true
    /\ all_chars name_char (req_leader_name payload) = true in
  (valid -> 1 <= self_retry_limit ->
   exists run_state,
     run_agent self_retry_limit new_run_id payload store
     = (RunStore.upsert store run_state,
        Answer {| resp_run_id := new_run_id; resp_status := RUNNING |})
     /\ run_id run_state = new_run_id /\ status run_state = RUNNING
     /\ get_run (RunStore.upsert store run_state) new_run_id = Some run_state)
  /\ (self_retry_limit < 1 ->
      exists detail,
        run_agent self_retry_limit new_run_id payload store
        = (store, HTTPException 400 detail))
  /\ (all_chars is_ascii (req_team_name payload) = true ->
      all_chars is_ascii (req_leader_name payload) = true ->
      ~ valid ->
      exists detail,
        run_agent self_retry_limit new_run_id payload store
        = (store, HTTPException 400 detail)).
Proof.
  cbv zeta. unfold run_agent.
  destruct (String.eqb_spec (repo_url payload) EmptyString) as [Hu|Hu]; cbn [orb].
  { split; [tauto | split; intros; by eexists]. }
  destruct (String.eqb_spec (req_team_name payload) EmptyString) as [Ht|Ht]; cbn [orb].
  { split; [tauto | split; intros; by eexists]. }
  destruct (String.eqb_spec (req_leader_name payload) EmptyString) as [Hl|Hl].
  { split; [tauto | split; intros; by eexists]. }
  destruct (_is_valid_name (req_team_name payload)) eqn:Hvt; cbn [negb].
  2:{ split; [|split; intros; by eexists].
      intros (_ & _ & _ & H & _). exfalso.
      assert (_is_valid_name (req_team_name payload) = true) as Hv
        by (by apply valid_name_spec).
      congruence. }
  destruct (_is_valid_name (req_leader_name payload)) eqn:Hvl; cbn [negb].
  2:{ split; [|split; intros; by eexists].
      intros (_ & _ & _ & _ & H). exfalso.
      assert (_is_valid_name (req_leader_name payload) = true) as Hv
        by (by apply valid_name_spec).
      congruence. }
  apply valid_name_spec in Hvt as [_ Hvt]. apply valid_name_spec in Hvl as [_ Hvl].
  unfold start_run.
  split; [intros _ Hlimit | split; [intros Hlimit | tauto]].
  - destruct (start_run_ok self_retry_limit new_run_id payload Hlimit)
      as (run_state & -> & Hid & Hst & _).
    exists run_state. rewrite Hid. repeat split; try done.
    unfold get_run, RunStore.get, RunStore.upsert. rewrite Hid. apply lookup_insert_eq.
  - destruct (start_run_refuses self_retry_limit new_run_id payload Hlimit) as [m ->].
    by eexists.
Qed.

(** X24.  [start_run] returns a run exactly when the retry limit is at
    least 1: the report checks it when it is built.  The run it returns
    has the new identifier, the status RUNNING, the branch name built
    from the two names, the retry limit, and empty counts and lists; with
    a smaller limit every call raises a validation error and registers
    nothing. *)
Theorem start_run_needs_a_retry (self_retry_limit : Z) (new_run_id : string)
    (payload : RunAgentRequest) (store : RunStore.Store) :
  (1 <= self_retry_limit ->
   exists run_state,
     start_run self_retry_limit new_run_id payload store
     = (RunStore.upsert store run_state, Ok run_state)
     /\ run_id run_state = new_run_id /\ status run_state = RUNNING
     /\ final_status (results run_state) = RUNNING
     /\ branch_name (results run_state)
        = GitAgent.build_branch_name (req_team_name payload) (req_leader_name payload)
     /\ retry_limit (results run_state) = self_retry_limit
     /\ iterations_used (results run_state) = 0 /\ commits (results run_state) = 0
     /\ total_failures (results run_state) = 0 /\ total_fixes (results run_state) = 0
     /\ fixes (results run_state) = [] /\ ci_timeline (results run_state) = [])
  /\ (self_retry_limit < 1 ->
      exists m,
        start_run self_retry_limit new_run_id payload store
        = (store, Raise (ValidationError m))).
Proof.
  unfold start_run. split; intros Hlimit.
  - destruct (start_run_ok self_retry_limit new_run_id payload Hlimit)
      as (run_state & Hrun & _).
    rewrite Hrun. exists run_state. split; [done|].
    unfold Orchestrator.start_run in Hrun.
    destruct (negb (GitAgent.validate_branch_name _)); [done|].
    destruct (self_retry_limit <? 1); [done|].
    injection Hrun as <-. by repeat split.
  - destruct (start_run_refuses self_retry_limit new_run_id payload Hlimit) as [m ->].
    by eexists.
Qed.

(** The registry keeps the last state stored under an identifier,
    answers nothing for an identifier never stored, and storing a run
    does not disturb the runs of other identifiers. *)
Lemma run_store_round_trip (store : RunStore.Store) (r r' : RunState) (id : string) :
  RunStore.get RunStore.empty id = None
  /\ RunStore.get (RunStore.upsert store r) (run_id r) = Some r
  /\ (run_id r' = run_id r ->
      RunStore.upsert (RunStore.upsert store r) r' = RunStore.upsert store r')
  /\ (id <> run_id r -> RunStore.get (RunStore.upsert store r) id = RunStore.get store id).
Proof.
  unfold RunStore.get, RunStore.upsert, RunStore.empty.
  split; [apply lookup_empty|].
  split; [apply lookup_insert_eq|].
  split; [intros ->; apply insert_insert_eq|].
  intros Hne. by apply lookup_insert_ne.
Qed.

End EntryPoint.

(** ** The descriptor grammar *)

Section Grammar.
Import PyStr Re FixAgent.

Lemma nonempty_length (s : string) : s <> EmptyString <-> (1 <= String.length s)%nat.
Proof. destruct s; simpl; split; (done || lia). Qed.

(** What the strict pattern accepts, with the digits of ASCII. *)
Lemma strict_pattern_spec (strict_output : string) :
  _validate_strict_output_format strict_output = Ok tt
  <-> exists category file digits phrase tail,
        strict_output
        = category +:+ " error in " +:+ file +:+ " line " +:+ digits +:+ " → Fix: "
            +:+ phrase +:+ tail
        /\ category <> EmptyString
        /\ all_chars GitAgent.upper_or_underscore category = true
        /\ file <> EmptyString /\ all_chars dot file = true
        /\ digits <> EmptyString /\ all_chars is_digit digits = true
        /\ phrase <> EmptyString /\ all_chars dot phrase = true
        /\ (tail = EmptyString \/ tail = String lf EmptyString).
Proof.
  unfold _validate_strict_output_format, re_match, STRICT_PATTERN.
  split.
  - destruct (run false _ None strict_output 0 []) as [r|] eqn:Hr; [intros _|done].
    rewrite run_Bol_start in Hr. cbn [run] in Hr.
    apply rep_sound in Hr as (category & v1 & -> & Hc & Hcl & Hr).
    destruct (eat " error in " _ v1) as [[p1 s1]|] eqn:He1; [|done].
    apply eat_sound in He1 as [-> ->].
    apply rep_sound in Hr as (file & v2 & -> & Hf & Hfl & Hr).
    destruct (eat " line " _ v2) as [[p2 s2]|] eqn:He2; [|done].
    apply eat_sound in He2 as [-> ->].
    apply rep_sound in Hr as (digits & v3 & -> & Hd & Hdl & Hr).
    destruct (eat " → Fix: " _ v3) as [[p3 s3]|] eqn:He3; [|done].
    apply eat_sound in He3 as [-> ->].
    apply rep_sound in Hr as (phrase & tail & -> & Hp & Hpl & Hr).
    destruct (at_eol false tail) eqn:Ht; [|done].
    apply at_eol_single in Ht.
    exists category, file, digits, phrase, tail.
    rewrite !nonempty_length. by repeat split.
  - intros (category & file & digits & phrase & tail & -> & Hcl & Hc & Hfl & Hf
            & Hdl & Hd & Hpl & Hp & Ht).
    apply nonempty_length in Hcl, Hfl, Hdl, Hpl.
    apply at_eol_single in Ht.
    assert (is_Some (run false
              [Bol; Rep GitAgent.upper_or_underscore 1; Lit " error in "; Rep dot 1;
               Lit " line "; Rep is_digit 1; Lit " → Fix: "; Rep dot 1; Eol] None
              (category +:+ " error in " +:+ file +:+ " line " +:+ digits +:+ " → Fix: "
                 +:+ phrase +:+ tail) 0 [])) as [r ->]; [|done].
    rewrite run_Bol_start.
    apply run_Rep; [exact Hc | exact Hcl |]. rewrite run_Lit.
    apply run_Rep; [exact Hf | exact Hfl |]. rewrite run_Lit.
    apply run_Rep; [exact Hd | exact Hdl |]. rewrite run_Lit.
    apply run_Rep; [exact Hp | exact Hpl |].
    cbn [run]. rewrite Ht. by eexists.
Qed.

Lemma all_chars_weaken (p q : ascii -> bool) (s : string) :
  (forall c, p c = true -> q c = true) ->
  all_chars p s = true -> all_chars q s = true.
Proof.
  intros Hpq. induction s as [|c s IH]; [done|]. cbn [all_chars].
  intros [Hc Hs]%andb_prop. by rewrite (Hpq c Hc), IH.
Qed.

(** X7.  The strict output format accepts every text made of a non-empty
    word over [[A-Z_]], " error in ", a non-empty file name without a
    line feed, " line ", a non-empty string of ASCII digits, " → Fix: "
    and a non-empty phrase without a line feed, optionally followed by
    one final line feed.  Every text it accepts has this shape, with
    digits that are ASCII digits or characters outside ASCII (the
    pattern also takes the decimal digits of other scripts); any other
    text raises an exception that quotes it. *)
Theorem strict_output_format_shape :
  (forall category file digits phrase tail : string,
     category <> EmptyString ->
     all_chars GitAgent.upper_or_underscore category = true ->
     file <> EmptyString -> all_chars dot file = true ->
     digits <> EmptyString -> all_chars is_digit digits = true ->
     phrase <> EmptyString -> all_chars dot phrase = true ->
     tail = EmptyString \/ tail = String lf EmptyString ->
     _validate_strict_output_format
       (category +:+ " error in " +:+ file +:+ " line " +:+ digits +:+ " → Fix: "
          +:+ phrase +:+ tail)
     = Ok tt)
  /\ (forall strict_output : string,
        _validate_strict_output_format strict_output = Ok tt ->
        exists category file digits phrase tail,
          strict_output
          = category +:+ " error in " +:+ file +:+ " line " +:+ digits +:+ " → Fix: "
              +:+ phrase +:+ tail
          /\ category <> EmptyString
          /\ all_chars GitAgent.upper_or_underscore category = true
          /\ file <> EmptyString /\ all_chars dot file = true
          /\ digits <> EmptyString
          /\ all_chars (fun c => is_digit c || negb (is_ascii c)) digits = true
          /\ phrase <> EmptyString /\ all_chars dot phrase = true
          /\ (tail = EmptyString \/ tail = String lf EmptyString))
  /\ (forall strict_output : string,
        _validate_strict_output_format strict_output <> Ok tt ->
        _validate_strict_output_format strict_output
        = Raise (Exception ("Strict output format violation: " +:+ strict_output))).
Proof.
  split; [|split].
  - intros category file digits phrase tail Hcl Hc Hfl Hf Hdl Hd Hpl Hp Ht.
    apply strict_pattern_spec. exists category, file, digits, phrase, tail.
    by repeat split.
  - intros strict_output
      (category & file & digits & phrase & tail & -> & Hcl & Hc & Hfl & Hf
       & Hdl & Hd & Hpl & Hp & Ht)%strict_pattern_spec.
    exists category, file, digits, phrase, tail. repeat split; try done.
    revert Hd. apply all_chars_weaken. by intros c ->.
  - intros strict_output. unfold _validate_strict_output_format.
    by destruct (re_match false STRICT_PATTERN strict_output).
Qed.

End Grammar.

(** ** More on source fixes *)

Section Heuristics.
Import PyStr Re FileSystem FixAgent.

Variable ast_parse : string -> parse_outcome.

(** X8.  [apply_fix] only ever touches its target: every file other than
    the one the target path resolves to holds what it held, whatever its
    own path is written like; no file appears or disappears, every file
    keeps its read permission, and a target the system refuses leaves the
    whole tree as it was. *)
Theorem apply_fix_frame (os : string -> resolution) (fs : FS) (repo_path file : string)
    (line_number : Z) (bug_type : BugType) (message error_type : string) :
  let fs' :=
    (apply_fix_on ast_parse os fs repo_path file line_number bug_type message
       error_type).1 in
  (forall place other,
     os (path_join repo_path file) = Resolves place ->
     other <> place -> fs' !! other = fs !! other)
  /\ (forall e, os (path_join repo_path file) = Refuses e -> fs' = fs)
  /\ dom fs' = dom fs
  /\ (forall place, readable <$> (fs' !! place) = readable <$> (fs !! place)).
Proof.
  cbv zeta. unfold apply_fix_on.
  destruct (os (path_join repo_path file)) as [target|e]; [|by repeat split].
  assert (Hsame : forall r : result bool,
    (forall place other, Resolves target = Resolves place ->
       other <> place -> (fs, r).1 !! other = fs !! other)
    /\ (forall e, Resolves target = Refuses e -> (fs, r).1 = fs)
    /\ dom (fs, r).1 = dom fs
    /\ (forall place, readable <$> ((fs, r).1 !! place) = readable <$> (fs !! place)))
    by (intros r; by repeat split).
  destruct (fs !! target) as [n|] eqn:Hn.
  2:{ rewrite apply_fix_at_missing by exact Hn. apply Hsame. }
  rewrite (apply_fix_at_existing _ _ _ _ _ _ _ _ n Hn). cbv zeta.
  destruct (negb (readable n)) eqn:Hr; [apply Hsame|].
  apply negb_false_iff in Hr.
  destruct ((line_number <? 1) || _); [apply Hsame|].
  destruct (String.eqb _ EmptyString || _); [apply Hsame|].
  destruct (ast_parse _); [|apply Hsame..].
  destruct (writable n); [|apply Hsame].
  assert (Hwritten : forall (n' : node) (r : result bool),
    readable n' = readable n ->
    (forall place other, Resolves target = Resolves place ->
       other <> place -> (<[target := n']> fs, r).1 !! other = fs !! other)
    /\ (forall e, Resolves target = Refuses e -> (<[target := n']> fs, r).1 = fs)
    /\ dom (<[target := n']> fs, r).1 = dom fs
    /\ (forall place,
          readable <$> ((<[target := n']> fs, r).1 !! place)
          = readable <$> (fs !! place))).
  { intros n' r Hr'. cbn [fst]. split; [|split; [|split]].
    - intros place other [= <-] Hne. by rewrite lookup_insert_ne.
    - done.
    - rewrite dom_insert_L. apply elem_of_dom_2 in Hn. set_solver.
    - intros place. destruct (decide (place = target)) as [->|Hne].
      + by rewrite lookup_insert_eq, Hn; cbn; rewrite Hr'.
      + by rewrite lookup_insert_ne. }
  destruct (write_fault n); by apply Hwritten.
Qed.


End Heuristics.

(** ** Lines *)

Section Lines.
Import PyStr Re FileSystem FixAgent.

Lemma concat_cons (x : string) (l : list string) :
  String.concat EmptyString (x :: l) = x +:+ String.concat EmptyString l.
Proof. destruct l; simpl; [by rewrite str_app_nil_r | reflexivity]. Qed.

Lemma str_app_snoc (cur : string) (c : ascii) (s : string) :
  (cur +:+ String c EmptyString) +:+ s = cur +:+ String c s.
Proof. by rewrite str_app_assoc. Qed.

Lemma eqb_app_nonempty (cur : string) (c : ascii) :
  String.eqb (cur +:+ String c EmptyString) EmptyString = false.
Proof. apply String.eqb_neq. by destruct cur. Qed.

Lemma splitlines_go_cons (keepends : bool) (cur : string) (c : ascii) (s' : string) :
  splitlines_go keepends cur (String c s')
  = if is_linebreak c then
      match s' with
      | String c2 s'' =>
          if Ascii.eqb c cr && Ascii.eqb c2 lf then
            (if keepends then cur +:+ String c (String c2 EmptyString) else cur)
              :: splitlines_go keepends EmptyString s''
          else
            (if keepends then cur +:+ String c EmptyString else cur)
              :: splitlines_go keepends EmptyString s'
      | EmptyString =>
          (if keepends then cur +:+ String c EmptyString else cur)
            :: splitlines_go keepends EmptyString s'
      end
    else splitlines_go keepends (cur +:+ String c EmptyString) s'.
Proof. reflexivity. Qed.

(** The two readings of the lines, with and without line ends, at once:
    joining the lines with their ends gives the text back, and both
    readings have as many lines. *)
Lemma splitlines_go_both (s : string) :
  (forall cur,
     String.concat EmptyString (splitlines_go true cur s) = cur +:+ s
     /\ List.length (splitlines_go true cur s) = List.length (splitlines_go false cur s))
  /\ (forall c cur,
        String.concat EmptyString (splitlines_go true cur (String c s))
        = cur +:+ String c s
        /\ List.length (splitlines_go true cur (String c s))
           = List.length (splitlines_go false cur (String c s))).
Proof.
  induction s as [|c2 s [IH0 IH1]].
  - assert (forall cur,
              String.concat EmptyString (splitlines_go true cur EmptyString)
              = cur +:+ EmptyString
              /\ List.length (splitlines_go true cur EmptyString)
                 = List.length (splitlines_go false cur EmptyString)) as H0.
    { intros cur. simpl. rewrite str_app_nil_r.
      destruct (String.eqb_spec cur EmptyString) as [->|]; by split. }
    split; [exact H0|].
    intros c cur. rewrite (splitlines_go_cons true), (splitlines_go_cons false).
    destruct (is_linebreak c).
    + rewrite concat_cons. cbn [List.length]. destruct (H0 EmptyString) as [-> ->].
      split; [by rewrite str_app_nil_r | reflexivity].
    + destruct (H0 (cur +:+ String c EmptyString)) as [-> ->].
      split; [by rewrite str_app_nil_r | reflexivity].
  - split; [exact (IH1 c2)|].
    intros c cur. rewrite (splitlines_go_cons true), (splitlines_go_cons false).
    destruct (is_linebreak c).
    + destruct (Ascii.eqb c cr && Ascii.eqb c2 lf).
      * rewrite concat_cons. destruct (IH0 EmptyString) as [-> Hlen].
        split; [|cbn [List.length]; by rewrite Hlen].
        rewrite str_app_nil_l. by rewrite str_app_assoc.
      * rewrite concat_cons. destruct (IH1 c2 EmptyString) as [-> Hlen].
        split; [|cbn [List.length]; by rewrite Hlen].
        rewrite str_app_nil_l. by rewrite str_app_snoc.
    + destruct (IH1 c2 (cur +:+ String c EmptyString)) as [-> ->].
      split; [by rewrite str_app_snoc | reflexivity].
Qed.

(** X10.  Joining the lines of a text kept with their line ends gives the
    text back, and there are as many of them as lines without their ends:
    a line number passes the check of [apply_fix] exactly when it is in
    range for the heuristics. *)
Theorem splitlines_round_trip (s : string) (line_number : Z) :
  String.concat EmptyString (splitlines true s) = s
  /\ List.length (splitlines true s) = List.length (splitlines false s)
  /\ in_lines line_number (splitlines true s)
     = negb ((line_number <? 1)
             || (Z.of_nat (List.length (splitlines false s)) <? line_number)).
Proof.
  unfold splitlines. destruct (splitlines_go_both s) as [H _].
  destruct (H EmptyString) as [Hc Hl].
  split; [exact Hc|]. split; [exact Hl|].
  unfold in_lines. rewrite Hl.
  destruct (Z.ltb_spec 0 line_number), (Z.ltb_spec line_number 1),
    (Z.leb_spec line_number (Z.of_nat (List.length (splitlines_go false EmptyString s)))),
    (Z.ltb_spec (Z.of_nat (List.length (splitlines_go false EmptyString s))) line_number);
    simpl; try reflexivity; lia.
Qed.

End Lines.

(** ** Brackets, indentation and commit messages *)

Section LineFixes.
Import PyStr Re FileSystem FixAgent.









Lemma prefix_app (p r : string) : String.prefix p (p +:+ r) = true.
Proof.
  induction p as [|c p IH]; [apply prefix_nil|].
  by rewrite str_app_cons, prefix_cons, Ascii.eqb_refl, IH.
Qed.

Lemma proposal_commit_prefix (file : string) (line_number : Z) (bug_type : bug_arg)
    (message : string) (p : FixProposal) :
  generate_fix file line_number bug_type message = Ok p ->
  GitAgent.enforce_commit_prefix (fp_commit_message p) = Ok tt.
Proof.
  unfold GitAgent.enforce_commit_prefix, GitAgent.validate_commit_prefix,
    GitAgent.COMMIT_PREFIX, startswith.
  destruct bug_type as [b|printed]; [|done].
  rewrite generate_fix_member. cbv zeta.
  destruct (re_match false STRICT_PATTERN _); [|done].
  intros [= <-]. cbn [fp_commit_message].
  change ("[AI-AGENT] Fix " +:+ lower (BugType_value b) +:+ " issue in " +:+ file)
    with ("[AI-AGENT]" +:+ (" Fix " +:+ lower (BugType_value b) +:+ " issue in " +:+ file)).
  by rewrite prefix_app.
Qed.

(** X13.  The commit messages the program writes itself always pass the
    prefix check of the git agent: the one of every proposal returned by
    [generate_fix], and the one of a pass that applied fixes. *)
Theorem own_commit_messages_pass :
  (forall (file : string) (line_number : Z) (bug_type : bug_arg) (message : string)
      (p : FixProposal),
      generate_fix file line_number bug_type message = Ok p ->
      GitAgent.enforce_commit_prefix (fp_commit_message p) = Ok tt)
  /\ (forall fixes_applied : Z,
        GitAgent.enforce_commit_prefix
          ("[AI-AGENT] Apply " +:+ str_of_int fixes_applied +:+ " autonomous fix(es)")
        = Ok tt)
  /\ (forall commit_message : string,
        startswith commit_message "[AI-AGENT]" = false ->
        exists e, GitAgent.enforce_commit_prefix commit_message = Raise (ValueError e)).
Proof.
  split; [exact proposal_commit_prefix|].
  unfold GitAgent.enforce_commit_prefix, GitAgent.validate_commit_prefix,
    GitAgent.COMMIT_PREFIX, startswith.
  split.
  - intros n.
    change ("[AI-AGENT] Apply " +:+ str_of_int n +:+ " autonomous fix(es)")
      with ("[AI-AGENT]" +:+ (" Apply " +:+ str_of_int n +:+ " autonomous fix(es)")).
    by rewrite prefix_app.
  - intros commit_message ->. by eexists.
Qed.



End LineFixes.

(** ** What the extraction hands on *)

Section WellFormed.
Import PyStr Re TestAgent.

Lemma all_chars_substring (p : ascii -> bool) (s : string) :
  forall n m, all_chars p s = true -> all_chars p (String.substring n m s) = true.
Proof.
  induction s as [|c s IH]; intros n m Hs.
  - by destruct n, m.
  - simpl in Hs. apply andb_prop in Hs as [Hc Hs].
    destruct n as [|n]; [|simpl; by apply IH].
    destruct m as [|m]; [done|]. simpl. by rewrite Hc, IH.
Qed.

Lemma all_chars_groups (p : ascii -> bool) (s : string) (marks : list nat) :
  all_chars p s = true -> Forall (fun g => all_chars p g = true) (groups_of s marks).
Proof.
  intros Hs. revert marks.
  fix IH 1. intros [|b [|e marks]]; simpl; [constructor | constructor |].
  constructor; [by apply all_chars_substring | apply IH].
Qed.

(** A group of a match only has characters of the subject. *)
Lemma all_chars_group (p : ascii -> bool) (ml : bool) (pat : pattern) (s : string)
    (m : Match) (k : nat) :
  re_search ml pat s = Some m -> all_chars p s = true -> all_chars p (group k m) = true.
Proof.
  unfold re_search. intros Hm Hs.
  destruct (search_from ml pat None s 0) as [r|]; [|done].
  injection Hm as <-. unfold group, mk_match. cbn [m_groups].
  pose proof (all_chars_groups p s (rev (snd (snd r))) Hs) as Hall.
  destruct (groups_of s (rev (snd (snd r))) !! Nat.pred k) as [g|] eqn:Hg; [|done].
  simpl. eapply Forall_lookup_1 in Hall; [exact Hall | exact Hg].
Qed.

Lemma all_chars_drop (p : ascii -> bool) (n : nat) (s : string) :
  all_chars p s = true -> all_chars p (drop n s) = true.
Proof.
  revert s. induction n as [|n IH]; intros s Hs; [by destruct s|].
  destruct s as [|c s]; [done|]. simpl in Hs. apply andb_prop in Hs as [_ Hs].
  simpl. by apply IH.
Qed.

Lemma all_chars_normalize_file_path (p : ascii -> bool) (file_path repo_path : string) :
  all_chars p file_path = true ->
  all_chars p (_normalize_file_path file_path repo_path) = true.
Proof.
  intros H. unfold _normalize_file_path.
  set (f1 := if startswith file_path repo_path then _ else _).
  assert (all_chars p f1 = true) as H1.
  { unfold f1. destruct (startswith file_path repo_path); [|exact H].
    by apply all_chars_lstrip_by, all_chars_drop. }
  set (f2 := if startswith f1 "/workspace/" then _ else _).
  assert (all_chars p f2 = true) as H2.
  { unfold f2. destruct (startswith f1 "/workspace/"); [|exact H1].
    by apply all_chars_drop. }
  destruct (startswith f2 "./"); [by apply all_chars_drop | exact H2].
Qed.

Lemma int_of_digits_go_nonneg (s : string) (acc : Z) :
  0 <= acc -> 0 <= int_of_digits_go acc s.
Proof.
  revert acc. induction s as [|c s IH]; intros acc Hacc; [done|].
  simpl. apply IH. unfold digit_val. lia.
Qed.

Lemma int_of_digits_nonneg (s : string) : 0 <= int_of_digits s.
Proof. by apply int_of_digits_go_nonneg. Qed.

(** The lines of [split] do not hold the separator. *)
Lemma split_lines_dot (s : string) :
  Forall (fun line => all_chars dot line = true) (split lf s).
Proof.
  induction s as [|c s IH]; [by repeat constructor|].
  simpl. destruct (Ascii.eqb c lf) eqn:Hc; [by constructor|].
  destruct (split lf s) as [|w ws]; [repeat constructor; simpl; unfold dot; by rewrite Hc|].
  apply Forall_cons in IH as [Hw Hws].
  constructor; [|exact Hws]. simpl. unfold dot at 1. by rewrite Hc, Hw.
Qed.

Lemma endswith_nonempty (s p : string) :
  p <> EmptyString -> endswith s p = true -> s <> EmptyString.
Proof.
  intros Hp He ->. unfold endswith in He. destruct p; [done|]. done.
Qed.

Lemma traceback_candidate_file (repo_path line : string) (ahead : list string) (m : Match) :
  file (traceback_candidate repo_path line ahead m)
  = _normalize_file_path (group 1 m) repo_path
  /\ line_number (traceback_candidate repo_path line ahead m) = int_of_digits (group 2 m).
Proof.
  unfold traceback_candidate.
  by destruct (look_ahead ahead "UnknownError" "Test failure" line) as [[? ?] ?].
Qed.

Lemma loop_body_candidate_ok (repo_path line : string) (ahead : list string)
    (st : parse_state) :
  all_chars dot line = true -> candidate_ok st ->
  candidate_ok (loop_body repo_path line ahead st).
Proof.
  intros Hline Hst. unfold loop_body.
  assert (candidate_ok (on_location repo_path line st)) as H1.
  { unfold on_location.
    destruct (re_search true pytest_location_pattern line) as [m|] eqn:Hm; [|exact Hst].
    split; cbn [current_file current_line].
    - apply all_chars_normalize_file_path. by eapply all_chars_group.
    - apply int_of_digits_nonneg. }
  generalize dependent (on_location repo_path line st). clear Hst st. intros st Hst.
  assert (candidate_ok (on_error line st)) as H2.
  { assert (candidate_ok (append_traceback line st)) as Happ.
    { unfold append_traceback. by destruct (current_traceback st). }
    unfold on_error.
    destruct (re_search true pytest_error_pattern line) as [m|]; [|exact Happ].
    destruct (file_truthy (current_file st) && line_truthy (current_line st));
      [|exact Happ].
    by destruct (record_once _ _ _). }
  generalize dependent (on_error line st). clear Hst st. intros st Hst.
  unfold on_traceback.
  destruct (re_search false traceback_pattern line) as [m|]; [|exact Hst].
  cbv zeta. destruct (endswith _ ".py"); [|exact Hst].
  by destruct (record_once _ _ _).
Qed.

Lemma candidates_at_well_formed (repo_path line : string) (ahead : list string)
    (st : parse_state) :
  all_chars dot line = true -> candidate_ok st ->
  Forall well_formed (candidates_at repo_path line ahead st).
Proof.
  intros Hline Hst. unfold candidates_at. cbv zeta.
  assert (candidate_ok (on_location repo_path line st)) as H1.
  { unfold on_location.
    destruct (re_search true pytest_location_pattern line) as [m|] eqn:Hm; [|exact Hst].
    split; cbn [current_file current_line].
    - apply all_chars_normalize_file_path. by eapply all_chars_group.
    - apply int_of_digits_nonneg. }
  generalize dependent (on_location repo_path line st). clear Hst st. intros st Hst.
  apply Forall_app. split.
  - destruct (re_search true pytest_error_pattern line) as [m|]; [|constructor].
    destruct (file_truthy (current_file st)) eqn:Hf; [|constructor].
    destruct (line_truthy (current_line st)) eqn:Hl; [|constructor].
    constructor; [|constructor].
    destruct Hst as [Hsf Hsl]. unfold well_formed, pytest_candidate.
    cbn [file line_number].
    destruct (current_file st) as [f|]; [|done].
    destruct (current_line st) as [n|]; [|done].
    simpl in *. split; [|by split].
    intros ->. done.
  - destruct (re_search false traceback_pattern line) as [m|] eqn:Hm; [|constructor].
    destruct (endswith _ ".py") eqn:He; [|constructor].
    constructor; [|constructor].
    destruct (traceback_candidate_file repo_path line ahead m) as [Hfile Hnum].
    unfold well_formed. rewrite Hnum.
    split; [by eapply endswith_nonempty; [|exact He]|].
    split; [|apply int_of_digits_nonneg].
    rewrite Hfile. apply all_chars_normalize_file_path. by eapply all_chars_group.
Qed.

Lemma candidates_well_formed (repo_path : string) (lines : list string) :
  forall st,
    Forall (fun line => all_chars dot line = true) lines -> candidate_ok st ->
    Forall well_formed (candidates repo_path lines st).
Proof.
  induction lines as [|line rest IH]; intros st Hlines Hst; [constructor|].
  apply Forall_cons in Hlines as [Hline Hrest].
  cbn [candidates]. apply Forall_app. split.
  - by apply candidates_at_well_formed.
  - apply IH; [exact Hrest|]. by apply loop_body_candidate_ok.
Qed.

Lemma keep_first_subset (seen : gset (string * Z)) (l : list TestFailure) (f : TestFailure) :
  f ∈ keep_first seen l -> f ∈ l.
Proof.
  revert seen. induction l as [|g l IH]; intros seen; simpl; [done|].
  destruct (bool_decide (key g ∈ seen)).
  - intros H. right. by eapply IH.
  - rewrite elem_of_cons. intros [->|H]; [left | right; by eapply IH].
Qed.

Lemma parse_output_well_formed (output repo_path : string) :
  Forall well_formed (_parse_pytest_output output repo_path).
Proof.
  unfold _parse_pytest_output. rewrite parse_loop_records.
  cbn [initial_state st_failures st_seen app].
  apply Forall_forall. intros f Hf%keep_first_subset. revert f Hf.
  apply Forall_forall, candidates_well_formed; [apply split_lines_dot | by split].
Qed.

Lemma setup_body_ok (repo_path line : string) (st : setup_state) :
  all_chars dot line = true ->
  match error_file st with Some f => all_chars dot f = true | None => True end
  /\ 0 <= error_line st ->
  let st' := setup_body repo_path line st in
  match error_file st' with Some f => all_chars dot f = true | None => True end
  /\ 0 <= error_line st'.
Proof.
  intros Hline [Hf Hl]. unfold setup_body.
  destruct (re_search false setup_location_pattern line) as [m|] eqn:Hm.
  - destruct (negb (file_truthy (error_file st))).
    + destruct (if starts_with_E line then _ else _) as [? ?]. cbn.
      split; [|apply int_of_digits_nonneg].
      apply all_chars_normalize_file_path. by eapply all_chars_group.
    + by destruct (if starts_with_E line then _ else _) as [? ?].
  - by destruct (if starts_with_E line then _ else _) as [? ?].
Qed.

Lemma parse_setup_error_well_formed (output repo_path : string) (f : TestFailure) :
  _parse_setup_error output repo_path = Some f -> well_formed f.
Proof.
  unfold _parse_setup_error.
  set (init := {| error_file := None; error_line := 1; su_error_type := "ImportError";
                  error_message := "Setup/configuration error";
                  su_full_traceback := EmptyString |}).
  assert (match error_file init with Some f => all_chars dot f = true | None => True end
          /\ 0 <= error_line init) as Hinit by (by split).
  pose proof (split_lines_dot output) as Hlines.
  revert Hinit. generalize init. clear init.
  induction Hlines as [|line rest Hline Hrest IH]; intros st Hst; cbn [foldl].
  - cbv zeta. destruct (file_truthy (error_file st)) eqn:Ht; [|done].
    intros [= <-]. destruct Hst as [Hf Hl]. unfold well_formed. cbn [file line_number].
    destruct (error_file st) as [g|]; [|done]. simpl in *.
    split; [intros ->; done | by split].
  - apply IH. by apply setup_body_ok.
Qed.

Lemma run_tests_well_formed (found : bool) (run : result CompletedProcess)
    (repo_path : string) (r : TestRunResult) :
  run_tests found run repo_path = Ok r -> Forall well_formed (failures r).
Proof.
  unfold run_tests.
  destruct found; [|done]. cbn [negb].
  destruct run as [completed|e]; [|done]. cbn [mbind result_bind]. cbv zeta.
  destruct (returncode completed =? 0); [intros [= <-]; constructor|].
  destruct (if returncode completed =? 4 then _ else None) as [f|] eqn:Hsetup.
  { intros [= <-]. constructor; [|constructor].
    destruct (returncode completed =? 4); [|done].
    by eapply parse_setup_error_well_formed. }
  pose proof (parse_output_well_formed (combined_output completed) repo_path) as Hwf.
  destruct (_parse_pytest_output _ _) as [|f l]; [done|].
  by intros [= <-].
Qed.

(** X15.  Every record the extraction hands on, from the report styles or
    from a setup error, and so every failure of a result of [run_tests],
    has a file name that is not empty and holds no line feed, and a line
    number that is not negative. *)
Theorem extracted_failures_well_formed :
  (forall output repo_path : string,
     Forall well_formed (_parse_pytest_output output repo_path))
  /\ (forall (output repo_path : string) (f : TestFailure),
        _parse_setup_error output repo_path = Some f -> well_formed f)
  /\ (forall (found : bool) (run : result CompletedProcess) (repo_path : string)
         (r : TestRunResult),
        run_tests found run repo_path = Ok r -> Forall well_formed (failures r)).
Proof.
  split; [exact parse_output_well_formed|].
  split; [exact parse_setup_error_well_formed | exact run_tests_well_formed].
Qed.

End WellFormed.

(** ** The steps after the extraction *)

Section AfterExtraction.
Import PyStr Re TestAgent FixAgent Orchestrator.

Lemma generate_fix_well_formed (f : TestFailure) (b : BugType) (message : string) :
  well_formed f ->
  exists p,
    generate_fix (file f) (line_number f) (Member b) message = Ok p
    /\ fp_file p = file f /\ fp_line_number p = line_number f /\ fp_bug_type p = b.
Proof.
  intros (Hne & Hdot & Hline). rewrite generate_fix_member. cbv zeta.
  destruct (strict_pattern_accepts b (file f) (line_number f) Hne Hdot Hline) as [m ->].
  eexists. by repeat split.
Qed.

(** X16.  For every failure of a result of [run_tests], whatever its
    category, [generate_fix] returns a proposal (the format check does
    not refuse it) for the file and line of the failure, and the record
    of the fix can be built from it. *)
Theorem extracted_failures_get_descriptors (found : bool) (run : result CompletedProcess)
    (repo_path : string) (r : TestRunResult) (f : TestFailure) (b : BugType)
    (status : FixStatus) :
  run_tests found run repo_path = Ok r ->
  f ∈ failures r ->
  exists p record,
    generate_fix (file f) (line_number f) (Member b) (message f) = Ok p
    /\ new_FixRecord (fp_file p) (fp_bug_type p) (fp_line_number p) (fp_commit_message p)
         status (fp_strict_output p) = Ok record
    /\ fr_file record = file f /\ fr_line_number record = line_number f
    /\ fr_bug_type record = b /\ fr_status record = status.
Proof.
  intros Hrun Hf.
  pose proof (run_tests_well_formed found run repo_path r Hrun) as Hwf.
  rewrite Forall_forall in Hwf. specialize (Hwf f Hf).
  destruct (generate_fix_well_formed f b (message f) Hwf) as (p & Hp & H1 & H2 & H3).
  exists p. unfold new_FixRecord. rewrite H2.
  destruct Hwf as (_ & _ & Hline).
  destruct (Z.ltb_spec (line_number f) 0); [lia|].
  eexists. split; [exact Hp|]. split; [reflexivity|]. by repeat split.
Qed.

Lemma apply_fix_returns (ast_parse : string -> parse_outcome)
    (os : string -> FileSystem.resolution) (fs : FileSystem.FS)
    (repo_path file : string) (line_number : Z) (bug_type : BugType)
    (message error_type : string) :
  (forall p e, os p <> FileSystem.Refuses e) ->
  (forall s e, ast_parse s <> ParseRaises e) ->
  exists fs' applied,
    FixAgent.apply_fix_on ast_parse os fs repo_path file line_number bug_type message
      error_type
    = (fs', Ok applied).
Proof.
  intros Hos Hparse. unfold apply_fix_on.
  destruct (os (FileSystem.path_join repo_path file)) as [place|e] eqn:Hplace;
    [|by apply Hos in Hplace].
  destruct (fs !! place) as [n|] eqn:Hn.
  2:{ rewrite apply_fix_at_missing by exact Hn. by eexists _, _. }
  rewrite (apply_fix_at_existing _ _ _ _ _ _ _ _ n Hn). cbv zeta.
  destruct (negb (FileSystem.readable n)); [by eexists _, _|].
  destruct ((line_number <? 1) || _); [by eexists _, _|].
  destruct (String.eqb _ EmptyString || _); [by eexists _, _|].
  destruct (ast_parse _) eqn:Hp; [|by eexists _, _|by apply Hparse in Hp].
  destruct (FileSystem.writable n); [|by eexists _, _].
  destruct (FileSystem.write_fault n); by eexists _, _.
Qed.

(** X17.  The loop over the failures of a pass does not abort the run
    unless the system or the parser does: when the system refuses no path
    at the existence check and the parser never ends with an exception
    other than a syntax error, processing well-formed failures (as the
    extraction gives them) returns, with one more record for each
    failure. *)
Theorem failure_loop_never_raises (env : Collaborators) (repo_path : string)
    (failures : list TestFailure) (n : Z) (w : World) :
  (forall p e, os_path env p <> FileSystem.Refuses e) ->
  (forall s e, ast_parse env s <> ParseRaises e) ->
  Forall well_formed failures ->
  exists w' m records,
    process_failures env repo_path failures n w = (w', Ok m)
    /\ fixes (results (w_run w')) = fixes (results (w_run w)) ++ records
    /\ List.length records = List.length failures.
Proof.
  intros Hos Hparse Hwf. revert n w.
  induction Hwf as [|failure failures Hf Hfs IH]; intros n w.
  - exists w, n, []. by rewrite app_nil_r.
  - cbn [process_failures]. unfold bind at 1.
    assert (exists w1 n1 record,
              process_failure env repo_path failure n w = (w1, Ok n1)
              /\ fixes (results (w_run w1)) = fixes (results (w_run w)) ++ [record])
      as (w1 & n1 & record & -> & Hw1).
    { unfold process_failure, bind, lift, ret, modify_results, Orchestrator.apply_fix.
      cbn [FailureParserAgent.pf_file FailureParserAgent.pf_line_number
           FailureParserAgent.pf_bug_type FailureParserAgent.pf_raw_message
           FailureParserAgent.pf_error_type FailureParserAgent.parse_failure].
      destruct (apply_fix_returns (ast_parse env) (os_path env) (w_fs w) repo_path
                  (file failure) (line_number failure)
                  (FailureParserAgent._classify_bug_type (error_type failure)
                     (message failure))
                  (message failure) (error_type failure) Hos Hparse)
        as (fs' & applied & ->).
      destruct (generate_fix_well_formed failure
                  (FailureParserAgent._classify_bug_type (error_type failure)
                     (message failure)) (message failure) Hf)
        as (p & Hp & H1 & H2 & H3).
      rewrite Hp, (proposal_commit_prefix _ _ _ _ _ Hp).
      unfold new_FixRecord. rewrite H2.
      destruct Hf as (_ & _ & Hline).
      destruct (Z.ltb_spec (line_number failure) 0); [lia|].
      by eexists _, _, _. }
    destruct (IH n1 w1) as (w' & m & records & -> & Hw' & Hlen).
    exists w', m, (record :: records).
    split; [reflexivity|]. rewrite Hw', Hw1, <- app_assoc.
    split; [reflexivity | simpl; by rewrite Hlen].
Qed.

End AfterExtraction.

(** ** Paths and test results *)

Section PathsAndResults.
Import PyStr Re TestAgent.

Lemma drop_app (a b : string) : drop (String.length a) (a +:+ b) = b.
Proof. induction a as [|c a IH]; [by destruct b | exact IH]. Qed.

Lemma prefix_false_head (p s : string) (c : ascii) :
  startswith s (String c EmptyString) = false -> startswith s (String c p) = false.
Proof.
  unfold startswith. destruct s as [|c' s]; [done|].
  rewrite !prefix_cons, prefix_nil, andb_true_r. by intros ->.
Qed.

Lemma startswith_app (a b : string) : startswith (a +:+ b) a = true.
Proof. apply prefix_app. Qed.

Lemma lstrip_by_app (p : ascii -> bool) (a b : string) :
  all_chars p a = true -> lstrip_by p (a +:+ b) = lstrip_by p b.
Proof.
  induction a as [|c a IH]; [done|]. cbn [all_chars]. intros [Hc Ha]%andb_prop.
  rewrite str_app_cons. cbn [lstrip_by]. rewrite Hc. by apply IH.
Qed.

Lemma lstrip_by_no_head (p : ascii -> bool) (s : string) :
  match s with EmptyString => True | String c _ => p c = false end ->
  lstrip_by p s = s.
Proof. destruct s as [|c s]; [done|]. simpl. by intros ->. Qed.

(** X18.  [_normalize_file_path] gives the path relative to the
    repository: it removes the repository root and the slashes after it,
    the mount point of the sandbox, and one leading ./ ; a relative path
    with none of those is left as it is. *)
Theorem normalize_file_path_relative (repo_path slashes rel : string) :
  startswith rel "/" = false ->
  startswith rel "./" = false ->
  all_chars (chr "/"%char) slashes = true ->
  _normalize_file_path (repo_path +:+ slashes +:+ rel) repo_path = rel
  /\ (startswith ("/workspace/" +:+ rel) repo_path = false ->
      _normalize_file_path ("/workspace/" +:+ rel) repo_path = rel)
  /\ (startswith ("./" +:+ rel) repo_path = false ->
      _normalize_file_path ("./" +:+ rel) repo_path = rel)
  /\ (startswith rel repo_path = false -> _normalize_file_path rel repo_path = rel).
Proof.
  intros Hslash Hdot Hs.
  assert (startswith rel "/workspace/" = false) as Hws by (by apply prefix_false_head).
  assert (lstrip_by (chr "/"%char) rel = rel) as Hl.
  { apply lstrip_by_no_head. unfold startswith in Hslash.
    destruct rel as [|c rel]; [done|].
    by rewrite prefix_cons, prefix_nil, andb_true_r in Hslash. }
  unfold _normalize_file_path. repeat split.
  - rewrite startswith_app, drop_app, lstrip_by_app, Hl by exact Hs.
    by rewrite Hws, Hdot.
  - intros ->. rewrite startswith_app, drop_app. by rewrite Hdot.
  - intros ->.
    assert (startswith ("./" +:+ rel) "/workspace/" = false) as -> by reflexivity.
    rewrite startswith_app. exact (drop_app "./" rel).
  - intros ->. by rewrite Hws, Hdot.
Qed.

(** X19.  What [run_tests] can answer.  Without a test file it raises
    whatever the sandbox would say; an exception of the sandbox is passed
    on; exit code 0 is a pass with no failure whatever the output holds;
    exit code 4 with a readable setup error gives that one record; and a
    result that is not a pass always carries at least one failure. *)
Theorem run_tests_outcomes (run : result CompletedProcess) (completed : CompletedProcess)
    (repo_path : string) :
  (exists m, run_tests false run repo_path = Raise (ValueError m))
  /\ (forall e, run_tests true (Raise e) repo_path = Raise e)
  /\ (returncode completed = 0 ->
      run_tests true (Ok completed) repo_path = Ok {| passed := true; failures := [] |})
  /\ (forall f,
        returncode completed = 4 ->
        _parse_setup_error (combined_output completed) repo_path = Some f ->
        run_tests true (Ok completed) repo_path
        = Ok {| passed := false; failures := [f] |})
  /\ (forall found r,
        run_tests found run repo_path = Ok r ->
        (passed r = true /\ failures r = []) \/ (passed r = false /\ failures r <> [])).
Proof.
  split; [by eexists|]. split; [done|].
  split; [intros H; unfold run_tests; cbn; by rewrite H|].
  split; [intros f H4 Hs; unfold run_tests; cbn; by rewrite H4, Hs|].
  intros found r. unfold run_tests. destruct found; [|done]. cbn [negb].
  destruct run as [c|e]; [|done]. cbn [mbind result_bind]. cbv zeta.
  destruct (returncode c =? 0); [intros [= <-]; by left|].
  destruct (if returncode c =? 4 then _ else None) as [f|].
  { intros [= <-]. by right. }
  destruct (_parse_pytest_output _ _) as [|f l]; [done|].
  intros [= <-]. by right.
Qed.

End PathsAndResults.

(** ** Setup errors *)

Section SetupErrors.
Import PyStr Re TestAgent.

Lemma setup_body_fields (repo_path line : string) (st : setup_state) :
  let st' := setup_body repo_path line st in
  (error_file st', error_line st')
  = match setup_location repo_path line with
    | Some (f, n) =>
        if file_truthy (error_file st) then (error_file st, error_line st)
        else (Some f, n)
    | None => (error_file st, error_line st)
    end
  /\ (su_error_type st', error_message st')
     = match setup_error line with
       | Some (et, msg) => (et, msg)
       | None => (su_error_type st, error_message st)
       end.
Proof.
  cbv zeta. unfold setup_body, setup_location, setup_error.
  destruct (re_search false setup_location_pattern line) as [m|];
    destruct (file_truthy (error_file st)); cbn [negb];
    destruct (starts_with_E line);
    try destruct (re_search false setup_error_pattern line); by split.
Qed.

Lemma setup_loop_app (repo_path : string) (l1 l2 : list string) (st : setup_state) :
  setup_loop repo_path (l1 ++ l2) st = setup_loop repo_path l2 (setup_loop repo_path l1 st).
Proof. apply foldl_app. Qed.

Lemma setup_loop_cons (repo_path line : string) (l : list string) (st : setup_state) :
  setup_loop repo_path (line :: l) st = setup_loop repo_path l (setup_body repo_path line st).
Proof. reflexivity. Qed.

(** Once a location is held, it stays. *)
Lemma setup_loop_location_kept (repo_path : string) (lines : list string) :
  forall st,
    file_truthy (error_file st) = true ->
    error_file (setup_loop repo_path lines st) = error_file st
    /\ error_line (setup_loop repo_path lines st) = error_line st.
Proof.
  induction lines as [|line lines IH]; intros st Ht; [done|].
  rewrite setup_loop_cons.
  destruct (setup_body_fields repo_path line st) as [Hloc _]. cbv zeta in Hloc.
  rewrite Ht in Hloc.
  assert (error_file (setup_body repo_path line st) = error_file st
          /\ error_line (setup_body repo_path line st) = error_line st) as [Hf Hl].
  { destruct (setup_location repo_path line) as [[f n]|]; by injection Hloc. }
  destruct (IH (setup_body repo_path line st)) as [-> ->]; [by rewrite Hf | done].
Qed.

(** Lines without a usable location leave the search open. *)
Lemma setup_loop_no_location (repo_path : string) (lines : list string) :
  forall st,
    file_truthy (error_file st) = false ->
    Forall (fun l => match setup_location repo_path l with
                     | Some (f, _) => f = EmptyString
                     | None => True
                     end) lines ->
    file_truthy (error_file (setup_loop repo_path lines st)) = false.
Proof.
  induction lines as [|line lines IH]; intros st Ht Hall; [done|].
  apply Forall_cons in Hall as [Hline Hall].
  rewrite setup_loop_cons. apply IH; [|exact Hall].
  destruct (setup_body_fields repo_path line st) as [Hloc _]. cbv zeta in Hloc.
  rewrite Ht in Hloc.
  destruct (setup_location repo_path line) as [[f n]|];
    injection Hloc as -> _; [by subst | exact Ht].
Qed.

(** Lines without an error report leave the type and the message. *)
Lemma setup_loop_no_error (repo_path : string) (lines : list string) :
  forall st,
    Forall (fun l => setup_error l = None) lines ->
    su_error_type (setup_loop repo_path lines st) = su_error_type st
    /\ error_message (setup_loop repo_path lines st) = error_message st.
Proof.
  induction lines as [|line lines IH]; intros st Hall; [done|].
  apply Forall_cons in Hall as [Hline Hall].
  rewrite setup_loop_cons.
  destruct (IH (setup_body repo_path line st) Hall) as [-> ->].
  destruct (setup_body_fields repo_path line st) as [_ Herr]. cbv zeta in Herr.
  rewrite Hline in Herr. by injection Herr.
Qed.

Lemma parse_setup_error_loop (output repo_path : string) :
  _parse_setup_error output repo_path
  = let st :=
      setup_loop repo_path (split lf output)
        {| error_file := None; error_line := 1; su_error_type := "ImportError";
           error_message := "Setup/configuration error";
           su_full_traceback := EmptyString |} in
    if file_truthy (error_file st) then
      Some {| file := default EmptyString (error_file st);
              line_number := error_line st;
              message := error_message st;
              error_type := su_error_type st;
              full_traceback := strip (su_full_traceback st) |}
    else None.
Proof. reflexivity. Qed.

(** X20.  A setup error is located at the first line that gives a
    non-empty normalized path, with the line number of that same line;
    its type and message are those of the last line that reports an
    error, and the defaults (an import error) when no line does.  Without
    any such location there is no record. *)
Theorem setup_error_first_location_last_report (output repo_path : string) :
  (forall pre line post f n,
     split lf output = pre ++ line :: post ->
     Forall (fun l => match setup_location repo_path l with
                      | Some (g, _) => g = EmptyString
                      | None => True
                      end) pre ->
     setup_location repo_path line = Some (f, n) ->
     f <> EmptyString ->
     exists r,
       _parse_setup_error output repo_path = Some r
       /\ file r = f /\ line_number r = n
       /\ (forall pre' eline post' et msg,
             split lf output = pre' ++ eline :: post' ->
             setup_error eline = Some (et, msg) ->
             Forall (fun l => setup_error l = None) post' ->
             error_type r = et /\ message r = msg)
       /\ (Forall (fun l => setup_error l = None) (split lf output) ->
           error_type r = "ImportError" /\ message r = "Setup/configuration error"))
  /\ (Forall (fun l => match setup_location repo_path l with
                       | Some (g, _) => g = EmptyString
                       | None => True
                       end) (split lf output) ->
      _parse_setup_error output repo_path = None).
Proof.
  rewrite parse_setup_error_loop. cbv zeta.
  set (init := {| error_file := None; error_line := 1; su_error_type := "ImportError";
                  error_message := "Setup/configuration error";
                  su_full_traceback := EmptyString |}).
  split.
  - intros pre line post f n Hsplit Hpre Hloc Hf.
    assert (error_file (setup_loop repo_path (split lf output) init) = Some f
            /\ error_line (setup_loop repo_path (split lf output) init) = n) as [Hef Hel].
    { rewrite Hsplit, setup_loop_app, setup_loop_cons.
      pose proof (setup_loop_no_location repo_path pre init eq_refl Hpre) as Hopen.
      destruct (setup_body_fields repo_path line (setup_loop repo_path pre init))
        as [Hb _]. cbv zeta in Hb. rewrite Hloc, Hopen in Hb. injection Hb as Hb1 Hb2.
      destruct (setup_loop_location_kept repo_path post
                  (setup_body repo_path line (setup_loop repo_path pre init)))
        as [-> ->]; [|done].
      rewrite Hb1. simpl. by destruct f. }
    rewrite Hef. assert (file_truthy (Some f) = true) as -> by (by destruct f).
    eexists. split; [reflexivity|]. cbn [file line_number error_type message default].
    split; [reflexivity|]. split; [exact Hel|]. split.
    + intros pre' eline post' et msg Hsplit' Herr Hpost.
      rewrite Hsplit', setup_loop_app, setup_loop_cons.
      destruct (setup_loop_no_error repo_path post'
                  (setup_body repo_path eline (setup_loop repo_path pre' init)) Hpost)
        as [-> ->].
      destruct (setup_body_fields repo_path eline (setup_loop repo_path pre' init))
        as [_ Hb]. cbv zeta in Hb. rewrite Herr in Hb. by injection Hb.
    + intros Hnone.
      by destruct (setup_loop_no_error repo_path (split lf output) init Hnone) as [-> ->].
  - intros Hall.
    by rewrite (setup_loop_no_location repo_path (split lf output) init eq_refl Hall).
Qed.

End SetupErrors.

(** ** The run as a whole *)

Section WholeRun.
Import PyStr FileSystem TestAgent Orchestrator.

Variable env : Collaborators.
Variable self_retry_limit : Z.
Variable payload : RunAgentRequest.

Lemma map_chars_length (f : ascii -> ascii) (s : string) :
  String.length (map_chars f s) = String.length s.
Proof. induction s as [|c s IH]; [done|]. cbn. by rewrite IH. Qed.

(** A name that ends with [_AI_Fix] is none of the protected names. *)
Lemma valid_branch_not_main (branch_name : string) :
  GitAgent.validate_branch_name branch_name = true ->
  GitAgent.ensure_not_main_branch branch_name = Ok tt.
Proof.
  unfold GitAgent.validate_branch_name, GitAgent.ensure_not_main_branch.
  intros [_ Hend]%andb_prop. apply endswith_inv in Hend as [u ->].
  rewrite bool_decide_eq_false_2; [done|].
  assert (Hlen : (7 <= String.length (lower (u +:+ "_AI_Fix")))%nat).
  { unfold lower. rewrite map_chars_length, str_length_app. cbn. lia. }
  unfold GitAgent.PROTECTED_BRANCHES.
  intros [Heq|[Heq|Hno]%elem_of_cons]%elem_of_cons.
  - rewrite Heq in Hlen. cbn in Hlen. lia.
  - rewrite Heq in Hlen. cbn in Hlen. lia.
  - by apply elem_of_nil in Hno.
Qed.

Lemma built_branch_valid (team_name leader_name : string) :
  GitAgent.validate_branch_name (GitAgent.build_branch_name team_name leader_name) = true.
Proof.
  destruct (start_run_ok 1 EmptyString
              {| repo_url := EmptyString; req_team_name := team_name;
                 req_leader_name := leader_name |}) as (r & H & _); [lia|].
  unfold Orchestrator.start_run in H. cbn [req_team_name req_leader_name] in H.
  by destruct (GitAgent.validate_branch_name _).
Qed.

(** X21.  For a branch name made by [build_branch_name] the two checks of
    the name never fire: [checkout_or_create_branch] returns the name
    exactly when the repository lists its branches without that name and
    the checkout succeeds, and it never changes the run or the working
    tree. *)
Theorem built_branch_checked_out_iff (repo_path team_name leader_name : string)
    (w : World) :
  let branch_name := GitAgent.build_branch_name team_name leader_name in
  let out := checkout_or_create_branch env repo_path branch_name w in
  out.1 = w
  /\ GitAgent.enforce_branch_name branch_name = Ok tt
  /\ GitAgent.ensure_not_main_branch branch_name = Ok tt
  /\ (out.2 = Ok branch_name
      <-> exists existing,
            existing_branches env repo_path = Ok existing
            /\ (branch_name ∉ existing)
            /\ git_checkout_new env repo_path branch_name = Ok tt).
Proof.
  cbv zeta. pose proof (built_branch_valid team_name leader_name) as Hvalid.
  pose proof (valid_branch_not_main _ Hvalid) as Hmain.
  assert (Henf : GitAgent.enforce_branch_name
                   (GitAgent.build_branch_name team_name leader_name) = Ok tt)
    by (unfold GitAgent.enforce_branch_name; by rewrite Hvalid).
  unfold checkout_or_create_branch, bind, lift, ret.
  rewrite Henf, Hmain.
  destruct (existing_branches env repo_path) as [existing|e].
  2:{ repeat split; try done. by intros (? & [=] & _). }
  destruct (bool_decide_reflect
              (GitAgent.build_branch_name team_name leader_name ∈ existing)) as [Hin|Hin].
  { repeat split; try done. by intros (? & [= <-] & ? & _). }
  destruct (git_checkout_new env repo_path _) as [[]|e].
  - repeat split; try done. intros _. by exists existing.
  - repeat split; try done. by intros (? & _ & _ & [=]).
Qed.

Lemma with_fixes_same (r : ResultsSchema) : with_fixes (fixes r) r = r.
Proof. by destruct r. Qed.

Lemma same_but_fixes_refl (r : RunState) : same_but_fixes r r.
Proof. unfold same_but_fixes. by rewrite with_fixes_same. Qed.

Lemma same_but_fixes_trans (r1 r2 r3 : RunState) :
  same_but_fixes r1 r2 -> same_but_fixes r2 r3 -> same_but_fixes r1 r3.
Proof.
  intros (Hi & Hs & Hr) (Hi' & Hs' & Hr'). unfold same_but_fixes.
  split; [congruence|]. split; [congruence|].
  etrans; [exact Hr'|]. rewrite Hr. reflexivity.
Qed.

Lemma count_applied_nonneg (l : list FixRecord) : 0 <= count_applied l.
Proof. unfold count_applied. lia. Qed.

Lemma count_applied_append (l1 l2 : list FixRecord) :
  count_applied (l1 ++ l2) = count_applied l1 + count_applied l2.
Proof. unfold count_applied. rewrite filter_app, length_app. lia. Qed.

(** What the handling of one failure leaves: at most one more record, and
    the count of applied fixes it hands on. *)
Lemma process_failure_frame (repo_path : string) (failure : TestFailure) (n : Z)
    (w w' : World) (r : result Z) :
  process_failure env repo_path failure n w = (w', r) ->
  same_but_fixes (w_run w) (w_run w')
  /\ exists new,
       fixes (results (w_run w')) = fixes (results (w_run w)) ++ new
       /\ (List.length new <= 1)%nat
       /\ forall m, r = Ok m -> m = n + count_applied new.
Proof.
  assert (Hnone : forall (w0 : World) (e : exn),
    same_but_fixes (w_run w0) (w_run w0)
    /\ exists new,
         fixes (results (w_run w0)) = fixes (results (w_run w0)) ++ new
         /\ (List.length new <= 1)%nat
         /\ forall m, Raise e = Ok m -> m = n + count_applied new).
  { intros w0 e. split; [apply same_but_fixes_refl|].
    exists []. rewrite app_nil_r. cbn. split; [done|]. split; [lia|done]. }
  unfold process_failure, bind, lift, ret, modify_results, Orchestrator.apply_fix.
  destruct (FixAgent.apply_fix_on _ _ _ _ _ _ _ _ _) as [fs' [applied|e]].
  2:{ intros [= <- <-]. apply (Hnone {| w_fs := fs'; w_run := w_run w |}). }
  destruct (FixAgent.generate_fix _ _ _ _) as [proposal|e].
  2:{ intros [= <- <-]. apply (Hnone {| w_fs := fs'; w_run := w_run w |}). }
  destruct (GitAgent.enforce_commit_prefix _) as [[]|e].
  2:{ intros [= <- <-]. apply (Hnone {| w_fs := fs'; w_run := w_run w |}). }
  destruct (new_FixRecord _ _ _ _ _ _) as [record|e] eqn:Hrec.
  2:{ intros [= <- <-]. apply (Hnone {| w_fs := fs'; w_run := w_run w |}). }
  intros [= <- <-]. cbn. split; [unfold same_but_fixes; cbn; by repeat split|].
  exists [record]. split; [done|]. split; [cbn; lia|].
  intros m [= <-]. unfold new_FixRecord in Hrec.
  destruct (_ <? 0); [done|]. injection Hrec as <-.
  unfold count_applied. destruct applied.
  - rewrite filter_cons_True by done. cbn. lia.
  - rewrite filter_cons_False by done. cbn. lia.
Qed.

Lemma process_failures_frame (repo_path : string) (failures : list TestFailure) :
  forall (n : Z) (w w' : World) (r : result Z),
    process_failures env repo_path failures n w = (w', r) ->
    same_but_fixes (w_run w) (w_run w')
    /\ exists new,
         fixes (results (w_run w')) = fixes (results (w_run w)) ++ new
         /\ (List.length new <= List.length failures)%nat
         /\ forall m, r = Ok m -> m = n + count_applied new.
Proof.
  induction failures as [|failure failures IH]; intros n w w' r.
  - intros [= <- <-]. split; [apply same_but_fixes_refl|].
    exists []. rewrite app_nil_r. split; [done|]. split; [done|].
    intros m [= <-]. unfold count_applied. cbn. lia.
  - cbn [process_failures]. unfold bind at 1.
    destruct (process_failure env repo_path failure n w) as [w1 [n1|e]] eqn:H1.
    + intros H2. apply process_failure_frame in H1 as (Hs1 & new1 & Hn1 & Hl1 & Hc1).
      apply IH in H2 as (Hs2 & new2 & Hn2 & Hl2 & Hc2).
      split; [by eapply same_but_fixes_trans|].
      exists (new1 ++ new2). split; [by rewrite Hn2, Hn1, app_assoc|].
      split; [rewrite length_app; cbn [List.length]; lia|].
      intros m Hm. rewrite count_applied_append, (Hc2 m Hm), (Hc1 n1 eq_refl). lia.
    + intros [= <- <-]. apply process_failure_frame in H1 as (Hs1 & new1 & Hn1 & Hl1 & _).
      split; [done|]. exists new1. split; [done|]. split; [cbn [List.length]; lia|done].
Qed.

Lemma same_but_fixes_fields (r r' : RunState) :
  same_but_fixes r r' ->
  run_id r' = run_id r /\ status r' = status r
  /\ branch_name (results r') = branch_name (results r)
  /\ iterations_used (results r') = iterations_used (results r)
  /\ commits (results r') = commits (results r)
  /\ total_failures (results r') = total_failures (results r)
  /\ final_status (results r') = final_status (results r)
  /\ ci_timeline (results r') = ci_timeline (results r).
Proof.
  intros (Hi & Hs & Hr). split; [done|]. split; [done|].
  rewrite Hr. cbn. done.
Qed.

(** A pass that adds no record and no commit. *)
Local Ltac nothing_new :=
  exists []; rewrite app_nil_r; cbn; repeat split; lia.

Lemma iteration_body_effect (repo_path : string) (iteration : Z) (w w' : World)
    (r : result control) :
  iteration_body env payload repo_path iteration w = (w', r) ->
  pass_effect iteration w w' r.
Proof.
  unfold iteration_body, bind at 1 2 3. cbn [modify_results get_fs lift].
  destruct (run_tests _ _ _) as [test_result|e].
  2:{ intros [= <- <-]. unfold pass_effect. cbn.
      repeat split; try lia. nothing_new. }
  destruct (passed test_result).
  - destruct (startswith _ _).
    + intros [= <- <-]. unfold pass_effect. cbn.
      repeat split; try lia; [nothing_new | by eexists].
    + unfold _push_and_monitor_ci, bind, get_run, lift, append_timeline, mark_passed,
        set_status, modify_results, ret. cbn.
      destruct (GitAgent.ensure_not_main_branch _) as [[]|e].
      2:{ intros [= <- <-]. unfold pass_effect. cbn.
          repeat split; try lia. nothing_new. }
      destruct (git_push _ _ _) as [[]|e].
      2:{ intros [= <- <-]. unfold pass_effect. cbn.
          repeat split; try lia. nothing_new. }
      destruct (poll_workflow_status _ _ _ _) as [ci|e].
      2:{ intros [= <- <-]. unfold pass_effect. cbn.
          repeat split; try lia. nothing_new. }
      unfold ci_run_status. destruct (String.eqb _ _).
      * intros [= <- <-]. unfold pass_effect. cbn.
        repeat split; try lia; [nothing_new | by eexists].
      * intros [= <- <-]. unfold pass_effect. cbn.
        repeat split; try lia; [nothing_new | by eexists].
  - unfold bind at 1. cbn [modify_results].
    unfold bind at 1.
    destruct (process_failures _ _ _ _ _) as [w1 [n|e]] eqn:Hpf;
      apply process_failures_frame in Hpf as (Hs & new & Hnew & Hlen & Hcount);
      apply same_but_fixes_fields in Hs as (Hi & Hst & Hb & Hu & Hc & Hf & Hfs & Ht);
      cbn in Hi, Hst, Hb, Hu, Hc, Hf, Hfs, Ht, Hnew.
    2:{ intros [= <- <-]. unfold pass_effect. cbn.
        repeat split; try lia; try congruence.
        exists new. repeat split; [done|lia|lia]. }
    specialize (Hcount n eq_refl).
    assert (Htail : forall w2 : World,
      run_id (w_run w2) = run_id (w_run w1) -> status (w_run w2) = status (w_run w1) ->
      (exists c, commits (results (w_run w1)) <= c <= commits (results (w_run w1)) + 1
         /\ (commits (results (w_run w1)) < c -> 0 < n)
         /\ results (w_run w2) = with_commits c (results (w_run w1))) ->
      (do run <- get_run;
       do ci_status <-
         _push_and_monitor_ci env payload iteration (branch_name (results run));
       modify_results
         (fun r0 => with_total_fixes (Z.of_nat (List.length (fixes r0))) r0);;
       append_timeline
         {| ci_iteration := iteration; ci_status := ci_run_status ci_status;
            ci_timestamp := cs_timestamp ci_status |};;
       if String.eqb (cs_status ci_status) "PASSED"
       then mark_passed;; ret Break
       else ret Continue) w2 = (w', r) -> pass_effect iteration w w' r).
    { intros w2 Hi2 Hst2 (c & Hc2 & Hcn & Hr2).
      assert (Hrecords : exists new0,
        fixes (results (w_run w1)) = fixes (results (w_run w)) ++ new0
        /\ total_failures (results (w_run w)) + Z.of_nat (List.length new0)
           <= total_failures (results (w_run w1))
        /\ (commits (results (w_run w)) < c -> 0 < count_applied new0)).
      { exists new. repeat split; [done|lia|lia]. }
      unfold _push_and_monitor_ci, bind, get_run, lift, append_timeline, mark_passed,
        set_status, modify_results, ret. cbn.
      destruct (GitAgent.ensure_not_main_branch _) as [[]|e].
      2:{ intros [= <- <-]. unfold pass_effect. rewrite Hr2. cbn.
          repeat split; try lia; try congruence. }
      destruct (git_push _ _ _) as [[]|e].
      2:{ intros [= <- <-]. unfold pass_effect. rewrite Hr2. cbn.
          repeat split; try lia; try congruence. }
      destruct (poll_workflow_status _ _ _ _) as [ci|e].
      2:{ intros [= <- <-]. unfold pass_effect. rewrite Hr2. cbn.
          repeat split; try lia; try congruence. }
      unfold ci_run_status. destruct (String.eqb _ _).
      - intros [= <- <-]. unfold pass_effect. rewrite Hr2. cbn.
        repeat split; try lia; try congruence.
        eexists. by rewrite Ht.
      - intros [= <- <-]. unfold pass_effect. rewrite Hr2. cbn.
        repeat split; try lia; try congruence.
        eexists. by rewrite Ht. }
    unfold bind at 1.
    destruct (Z.ltb_spec 0 n) as [Hpos|Hnpos].
    + unfold commit_all_changes, bind at 1 2 3, get_fs, lift.
      destruct (GitAgent.enforce_commit_prefix _) as [[]|e].
      2:{ intros [= <- <-]. unfold pass_effect. cbn.
          repeat split; try lia; try congruence.
          exists new. repeat split; [done|lia|lia]. }
      destruct (is_dirty _ _ _) as [[]|e].
      * cbn [modify_results]. apply Htail; cbn; try done.
        exists (commits (results (w_run w1)) + 1). repeat split; [lia|lia|done].
      * cbn [ret]. apply Htail; try done.
        exists (commits (results (w_run w1))).
        repeat split; [lia|lia|lia|by destruct (results (w_run w1))].
      * intros [= <- <-]. unfold pass_effect. cbn.
        repeat split; try lia; try congruence.
        exists new. repeat split; [done|lia|lia].
    + cbn [ret]. apply Htail; try done.
      exists (commits (results (w_run w1))).
      repeat split; [lia|lia|lia|by destruct (results (w_run w1))].
Qed.

Lemma last_cons_default (k d : Z) (l : list Z) : List.last (k :: l) d = List.last l k.
Proof.
  revert k d. induction l as [|x l IH]; intros k d; [done|].
  change (List.last (k :: x :: l) d) with (List.last (x :: l) d).
  by rewrite !IH.
Qed.

Lemma run_iterations_effect (repo_path : string) (iterations : list Z) :
  forall (w w' : World) (r : result unit),
    run_iterations env payload repo_path iterations w = (w', r) ->
    loop_effect iterations w w' r.
Proof.
  induction iterations as [|k its IH]; intros w w' r.
  - intros [= <- <-]. exists [], [], []. cbn. rewrite app_nil_r.
    repeat split; try lia; [nothing_new|]. left. by repeat split.
  - cbn [run_iterations]. unfold bind at 1.
    destruct (iteration_body env payload repo_path k w) as [w1 r1] eqn:Hbody.
    apply iteration_body_effect in Hbody.
    destruct Hbody as (Hi & Hu & Hb & Hc & (new & Hnew & Hf & Hca) & Hr).
    destruct r1 as [[]|e].
    + destruct Hr as (Hst & Hfs & t & Ht).
      intros Hrest. apply IH in Hrest.
      destruct Hrest as (done & rest & added & -> & Hi' & Hu' & Hb' & Hc'
                         & (new' & Hnew' & Hf' & Hca') & Ht' & Hcases).
      exists (k :: done), rest,
        ({| ci_iteration := k; ci_status := FAILED; ci_timestamp := t |} :: added).
      split; [done|]. split; [congruence|].
      split; [by rewrite last_cons_default, Hu', Hu|].
      split; [congruence|].
      split; [cbn [List.length]; lia|].
      split.
      { exists (new ++ new'). split; [by rewrite Hnew', Hnew, app_assoc|].
        split; [rewrite length_app; lia|].
        intros Hlt. rewrite count_applied_append.
        pose proof (count_applied_nonneg new). pose proof (count_applied_nonneg new').
        destruct (Z.lt_ge_cases (commits (results (w_run w))) (commits (results (w_run w1))));
          [specialize (Hca ltac:(done)); lia|].
        assert (commits (results (w_run w1)) < commits (results (w_run w'))) as Hlt' by lia.
        specialize (Hca' Hlt'). lia. }
      split; [by rewrite Ht', Ht, <- app_assoc|].
      destruct Hcases as [(-> & -> & Hd & Hst' & Hfs' & Hall)
                         |[(-> & Hd & Hst' & Hfs' & earlier & e & -> & He & Hall)
                          |(e & k' & -> & Hd & Hst' & Hfs' & Hall)]].
      * left. repeat split; try congruence; [by rewrite fmap_cons, Hd|].
        by constructor.
      * right; left. repeat split; try congruence; [by rewrite fmap_cons, Hd|].
        eexists (_ :: earlier), e. repeat split; try done. by constructor.
      * right; right. exists e, k'. repeat split; try congruence.
        -- by rewrite fmap_cons, Hd.
        -- by constructor.
    + destruct Hr as (Hst & Hfs & t & Ht). intros [= <- <-].
      exists [k], its, [{| ci_iteration := k; ci_status := PASSED; ci_timestamp := t |}].
      repeat split; try done; try (cbn; lia); [by exists new|].
      right; left. repeat split; try done. by eexists [], _.
    + destruct Hr as (Hst & Hfs & Ht). intros [= <- <-].
      exists [k], its, [].
      repeat split; try done; try (cbn; lia); [by exists new| by rewrite app_nil_r |].
      right; right. exists e, k. by repeat split.
Qed.

Lemma range_from_1_prefix (n : Z) (done rest : list Z) :
  range_from_1 n = done ++ rest ->
  done = Z.of_nat <$> seq 1 (List.length done)
  /\ Z.of_nat (List.length done) <= Z.max 0 n
  /\ (rest = [] -> Z.of_nat (List.length done) = Z.max 0 n).
Proof.
  unfold range_from_1. intros H.
  apply fmap_app_inv in H as (l1 & l2 & -> & -> & H).
  assert (Hlen : (List.length l1 + List.length l2 = Z.to_nat n)%nat).
  { rewrite <- length_app, <- H. apply length_seq. }
  rewrite length_fmap. split; [|split].
  - f_equal. etrans; [symmetry; apply (take_app_length l1 l2)|].
    rewrite <- H, take_seq. f_equal. lia.
  - lia.
  - intros Hnil. destruct l2; [|done]. cbn in Hlen. lia.
Qed.

Lemma last_range (m : nat) : List.last (Z.of_nat <$> seq 1 m) 0 = Z.of_nat m.
Proof.
  destruct m as [|m]; [done|].
  rewrite seq_S, fmap_app. cbn [fmap list_fmap]. by rewrite List.last_last.
Qed.

Lemma range_snoc (m : nat) (l : list Z) (k : Z) :
  Z.of_nat <$> seq 1 m = l ++ [k] ->
  l = Z.of_nat <$> seq 1 (List.length l) /\ m = S (List.length l).
Proof.
  destruct m as [|m]; [by destruct l|].
  rewrite seq_S, fmap_app. cbn [fmap list_fmap].
  intros H. apply app_inj_tail in H as [<- _].
  by rewrite length_fmap, length_seq.
Qed.

Lemma prologue_effect (w w1 : World) (r : result RepoInfo) :
  prologue env payload w = (w1, r) ->
  match r with
  | Raise _ => w1 = w
  | Ok repo_info =>
      w_fs w1 = w_fs w /\ run_id (w_run w1) = run_id (w_run w)
      /\ status (w_run w1) = status (w_run w)
      /\ results (w_run w1) = with_iterations_used 0 (results (w_run w))
      /\ analyze_repository env (repo_url payload) (run_id (w_run w)) = Ok repo_info
      /\ exists existing,
           existing_branches env (repo_path repo_info) = Ok existing
           /\ branch_name (results (w_run w)) ∉ existing
  end.
Proof.
  unfold prologue, checkout_or_create_branch, bind, get_run, lift, ret, modify_results.
  destruct (analyze_repository _ _ _) as [repo_info|e] eqn:Han; [|by intros [= <- <-]].
  destruct (GitAgent.enforce_branch_name _) as [[]|e]; [|by intros [= <- <-]].
  destruct (GitAgent.ensure_not_main_branch _) as [[]|e]; [|by intros [= <- <-]].
  destruct (existing_branches _ _) as [existing|e] eqn:Hex; [|by intros [= <- <-]].
  destruct (bool_decide_reflect (branch_name (results (w_run w)) ∈ existing)) as [Hin|Hin];
    [by intros [= <- <-]|].
  destruct (git_checkout_new _ _ _) as [[]|e]; [|by intros [= <- <-]].
  intros [= <- <-]. cbn. repeat split.
  all: try by destruct (results (w_run w)).
  by exists existing.
Qed.

Lemma start_run_fresh (new_run_id : string) (request : RunAgentRequest)
    (run_state : RunState) :
  Orchestrator.start_run self_retry_limit new_run_id request = Ok run_state ->
  run_id run_state = new_run_id /\ status run_state = RUNNING
  /\ final_status (results run_state) = RUNNING
  /\ iterations_used (results run_state) = 0 /\ commits (results run_state) = 0
  /\ total_failures (results run_state) = 0
  /\ fixes (results run_state) = [] /\ ci_timeline (results run_state) = [].
Proof.
  unfold Orchestrator.start_run. destruct (negb _); [done|].
  destruct (_ <? 1); [done|]. by intros [= <-].
Qed.

(** The report of a run made by [start_run], once [execute_run] is over. *)
Lemma execute_run_report (new_run_id : string) (request : RunAgentRequest)
    (fs : FS) (run_state : RunState) :
  Orchestrator.start_run self_retry_limit new_run_id request = Ok run_state ->
  let w := execute_run env self_retry_limit payload fs run_state in
  let b := results (w_run w) in
  run_id (w_run w) = new_run_id /\ final_status b = status (w_run w)
  /\ branch_name b = branch_name (results run_state)
  /\ exists m : nat,
       ci_iteration <$> ci_timeline b = Z.of_nat <$> seq 1 m
       /\ Z.of_nat m <= iterations_used b <= Z.of_nat m + 1
       /\ iterations_used b <= Z.max 0 self_retry_limit
       /\ 0 <= commits b <= iterations_used b
       /\ ((status (w_run w) = PASSED /\ iterations_used b = Z.of_nat m
            /\ exists earlier e,
                 ci_timeline b = earlier ++ [e] /\ ci_status e = PASSED
                 /\ Forall (fun e => ci_status e = FAILED) earlier)
           \/ (status (w_run w) = FAILED
               /\ Forall (fun e => ci_status e = FAILED) (ci_timeline b))).
Proof.
  intros Hstart. apply start_run_fresh in Hstart
    as (Hid & Hst & Hfs & Hu & Hc & Hf & Hfx & Ht).
  cbv zeta. unfold execute_run.
  destruct (try_block env self_retry_limit payload _) as [w1 r1] eqn:Htry.
  unfold try_block in Htry. unfold bind at 1 in Htry.
  destruct (prologue env payload _) as [wp [repo_info|e]] eqn:Hp;
    apply prologue_effect in Hp; cbn [w_run w_fs] in Hp.
  2:{ injection Htry as <- <-. subst wp. cbn. rewrite Ht, Hu, Hc.
      repeat split; try done.
      exists 0%nat. cbn. repeat split; try lia. right. by split. }
  destruct Hp as (_ & Hip & Hstp & Hrp & _).
  unfold bind at 1 in Htry.
  destruct (run_iterations env payload _ _ wp) as [wl rl] eqn:Hl.
  apply run_iterations_effect in Hl
    as (done & rest & added & Hrange & Hil & Hul & Hbl & Hcl
        & (new & Hnew & Hfl & Hca) & Htl & Hcases).
  rewrite Hrp in Hul, Hbl, Hcl, Htl. cbn in Hul, Hbl, Hcl, Htl.
  rewrite Ht in Htl. rewrite Hc in Hcl. cbn in Htl.
  apply range_from_1_prefix in Hrange as (Hdone & Hle & Hall).
  rewrite Hdone, last_range in Hul.
  destruct Hcases as [(-> & -> & Hd & Hst' & Hfs' & Hfa)
                     |[(-> & Hd & Hst' & Hfs' & earlier & e & -> & He & Hfa)
                      |(e & k & -> & Hd & Hst' & Hfs' & Hfa)]].
  - unfold bind at 1, get_run in Htry.
    rewrite bool_decide_eq_false_2 in Htry by congruence.
    injection Htry as <- <-. cbn.
    rewrite Htl, Hul, Hbl. repeat split; try congruence.
    exists (List.length done). rewrite Hd, <- Hdone.
    repeat split; try lia. right. by split.
  - unfold bind at 1, get_run in Htry.
    rewrite bool_decide_eq_true_2 in Htry by done.
    injection Htry as <- <-. cbn.
    rewrite Htl, Hul, Hbl, Hst', Hfs'. repeat split; try congruence.
    exists (List.length done). rewrite Hd, <- Hdone.
    repeat split; try lia. left. repeat split. by exists earlier, e.
  - injection Htry as <- <-. cbn. rewrite Htl, Hul, Hbl. repeat split; try congruence.
    assert (Hlen : List.length done = S (List.length added))
      by (rewrite Hd, length_app, length_fmap; cbn; lia).
    rewrite Hlen in Hdone, Hul, Hle, Hcl.
    rewrite Hd in Hdone. symmetry in Hdone. apply range_snoc in Hdone as [Hadd _].
    rewrite length_fmap in Hadd.
    exists (List.length added).
    repeat split; try lia; [done|]. right. by split.
Qed.

(** [execute_run] keeps the identifier of any run and leaves it PASSED or
    FAILED. *)
Lemma execute_run_terminal (fs : FS) (run_state : RunState) :
  let w := execute_run env self_retry_limit payload fs run_state in
  run_id (w_run w) = run_id run_state
  /\ (status (w_run w) = PASSED \/ status (w_run w) = FAILED).
Proof.
  cbv zeta. unfold execute_run.
  destruct (try_block env self_retry_limit payload _) as [w1 r1] eqn:Htry.
  unfold try_block in Htry. unfold bind at 1 in Htry.
  destruct (prologue env payload _) as [wp [repo_info|e]] eqn:Hp;
    apply prologue_effect in Hp; cbn [w_run w_fs] in Hp.
  2:{ injection Htry as <- <-. subst wp. cbn. by split; [|right]. }
  destruct Hp as (_ & Hip & _).
  unfold bind at 1 in Htry.
  destruct (run_iterations env payload _ _ wp) as [wl rl] eqn:Hl.
  apply run_iterations_effect in Hl as (done & rest & added & _ & Hil & _).
  destruct rl as [[]|e].
  - unfold bind at 1, get_run in Htry.
    destruct (bool_decide_reflect (status (w_run wl) = PASSED)) as [Hs|Hs];
      injection Htry as <- <-; cbn.
    + split; [congruence | by left].
    + split; [congruence | by right].
  - injection Htry as <- <-. cbn. split; [congruence | by right].
Qed.

(** What the [finally] block reports, for any run. *)
Lemma execute_run_scored (fs : FS) (run_state : RunState) :
  let b := results (w_run (execute_run env self_retry_limit payload fs run_state)) in
  let score_breakdown := ScoreAgent.calculate_score (elapsed_seconds env) (commits b) in
  execution_time_seconds b = elapsed_seconds env
  /\ total_fixes b = Z.of_nat (List.length (fixes b))
  /\ score b = ScoreAgent.final_score score_breakdown
  /\ score_base b = ScoreAgent.base_score score_breakdown
  /\ score_time_bonus b = ScoreAgent.time_bonus score_breakdown
  /\ score_commit_penalty b = ScoreAgent.commit_penalty score_breakdown.
Proof.
  cbv zeta. unfold execute_run.
  destruct (try_block env self_retry_limit payload _) as [w1 [[]|e]]; by cbn.
Qed.

(** X22.  A run made by [start_run] ends PASSED or FAILED, with the same
    final status in its report and under its own identifier.  It ends
    PASSED exactly when the last entry of its CI timeline is PASSED, and
    every entry before the last one is FAILED. *)
Theorem run_ends_passed_or_failed (new_run_id : string) (request : RunAgentRequest)
    (fs : FS) (run_state : RunState) :
  Orchestrator.start_run self_retry_limit new_run_id request = Ok run_state ->
  let w := execute_run env self_retry_limit payload fs run_state in
  let b := results (w_run w) in
  run_id (w_run w) = new_run_id
  /\ (status (w_run w) = PASSED \/ status (w_run w) = FAILED)
  /\ final_status b = status (w_run w)
  /\ (status (w_run w) = PASSED
      <-> exists earlier e, ci_timeline b = earlier ++ [e] /\ ci_status e = PASSED)
  /\ (forall earlier e, ci_timeline b = earlier ++ [e] ->
      Forall (fun e => ci_status e = FAILED) earlier).
Proof.
  intros Hstart. apply execute_run_report with (fs := fs) in Hstart.
  cbv zeta in *.
  destruct Hstart as (Hid & Hfs & _ & m & _ & _ & _ & _ & Hcases).
  split; [done|].
  destruct Hcases as [(Hst & _ & earlier & e & Ht & He & Hall)|(Hst & Hall)].
  - split; [by left|]. split; [done|]. split.
    + split; [|done]. intros _. by exists earlier, e.
    + intros earlier' e' Ht'. rewrite Ht in Ht'.
      by apply app_inj_tail in Ht' as [<- _].
  - split; [by right|]. split; [done|]. split.
    + split; [by rewrite Hst|].
      intros (earlier & e & Ht & He). rewrite Ht in Hall.
      apply Forall_app in Hall as [_ Hall]. rewrite Forall_singleton in Hall. congruence.
    + intros earlier e Ht. rewrite Ht in Hall. by apply Forall_app in Hall as [Hall _].
Qed.

(** X23.  In the report of a run made by [start_run] the CI timeline has
    one entry for each pass that ran to its end, numbered 1, 2, ... in
    order; the passes started are at most one more than the entries, and
    as many when the run PASSED; they never exceed the retry limit, and
    the commits never exceed the passes started. *)
Theorem timeline_numbers_passes (new_run_id : string) (request : RunAgentRequest)
    (fs : FS) (run_state : RunState) :
  Orchestrator.start_run self_retry_limit new_run_id request = Ok run_state ->
  let w := execute_run env self_retry_limit payload fs run_state in
  let b := results (w_run w) in
  let entries := Z.of_nat (List.length (ci_timeline b)) in
  ci_iteration <$> ci_timeline b = range_from_1 entries
  /\ entries <= iterations_used b <= entries + 1
  /\ (status (w_run w) = PASSED -> iterations_used b = entries)
  /\ iterations_used b <= Z.max 0 self_retry_limit
  /\ 0 <= commits b <= iterations_used b.
Proof.
  intros Hstart. apply execute_run_report with (fs := fs) in Hstart.
  cbv zeta in *.
  destruct Hstart as (_ & _ & _ & m & Ht & Hm & Hle & Hc & Hcases).
  assert (Hlen : List.length (ci_timeline
            (results (w_run (execute_run env self_retry_limit payload fs run_state)))) = m).
  { rewrite <- (length_fmap ci_iteration), Ht, length_fmap. apply length_seq. }
  rewrite Hlen. unfold range_from_1. rewrite Nat2Z.id.
  repeat split; try done; try lia.
  intros Hst. destruct Hcases as [(_ & Hu & _)|(Hst' & _)]; [done|congruence].
Qed.

(** X25.  When the repository already has the branch of the run, the run
    ends FAILED before any pass: the working tree and the counts, records
    and timeline of the report stay as they were. *)
Theorem existing_branch_fails_run (fs : FS) (run_state : RunState)
    (repo_info : RepoInfo) (existing : list string) :
  analyze_repository env (repo_url payload) (run_id run_state) = Ok repo_info ->
  existing_branches env (repo_path repo_info) = Ok existing ->
  branch_name (results run_state) ∈ existing ->
  let w := execute_run env self_retry_limit payload fs run_state in
  let a := results run_state in
  let b := results (w_run w) in
  w_fs w = fs /\ status (w_run w) = FAILED /\ final_status b = FAILED
  /\ iterations_used b = iterations_used a /\ total_failures b = total_failures a
  /\ commits b = commits a /\ fixes b = fixes a /\ ci_timeline b = ci_timeline a.
Proof.
  intros Han Hex Hin. cbv zeta. unfold execute_run.
  destruct (try_block env self_retry_limit payload _) as [w1 r1] eqn:Htry.
  unfold try_block in Htry. unfold bind at 1 in Htry.
  destruct (prologue env payload _) as [wp [repo_info'|e]] eqn:Hp;
    apply prologue_effect in Hp; cbn [w_run w_fs] in Hp.
  - destruct Hp as (_ & _ & _ & _ & Han' & existing' & Hex' & Hnin).
    rewrite Han in Han'. injection Han' as <-.
    rewrite Hex in Hex'. by injection Hex' as <-.
  - injection Htry as <- <-. subst wp. by cbn.
Qed.

Lemma execute_run_records (new_run_id : string) (request : RunAgentRequest)
    (fs : FS) (run_state : RunState) :
  Orchestrator.start_run self_retry_limit new_run_id request = Ok run_state ->
  let b := results (w_run (execute_run env self_retry_limit payload fs run_state)) in
  Z.of_nat (List.length (fixes b)) <= total_failures b
  /\ (0 < commits b -> 0 < count_applied (fixes b)).
Proof.
  intros Hstart. apply start_run_fresh in Hstart
    as (Hid & Hst & Hfs & Hu & Hc & Hf & Hfx & Ht).
  cbv zeta. unfold execute_run.
  destruct (try_block env self_retry_limit payload _) as [w1 r1] eqn:Htry.
  unfold try_block in Htry. unfold bind at 1 in Htry.
  destruct (prologue env payload _) as [wp [repo_info|e]] eqn:Hp;
    apply prologue_effect in Hp; cbn [w_run w_fs] in Hp.
  2:{ injection Htry as <- <-. subst wp. cbn. rewrite Hfx, Hf, Hc. cbn. lia. }
  destruct Hp as (_ & _ & _ & Hrp & _).
  unfold bind at 1 in Htry.
  destruct (run_iterations env payload _ _ wp) as [wl rl] eqn:Hl.
  apply run_iterations_effect in Hl
    as (done & rest & added & _ & _ & _ & _ & Hcl & (new & Hnew & Hfl & Hca) & _).
  rewrite Hrp in Hcl, Hnew, Hfl, Hca. cbn in Hcl, Hnew, Hfl, Hca.
  rewrite Hfx in Hnew. rewrite Hf in Hfl. rewrite Hc in Hca. cbn in Hnew.
  assert (Hend : fixes (results (w_run w1)) = fixes (results (w_run wl))
                 /\ total_failures (results (w_run w1)) = total_failures (results (w_run wl))
                 /\ commits (results (w_run w1)) = commits (results (w_run wl))).
  { destruct rl as [[]|e].
    - unfold bind at 1, get_run in Htry.
      by destruct (bool_decide _); injection Htry as <- <-.
    - by injection Htry as <- <-. }
  destruct Hend as (Hfx1 & Hf1 & Hc1).
  assert (Z.of_nat (List.length (fixes (results (w_run w1))))
          <= total_failures (results (w_run w1))
          /\ (0 < commits (results (w_run w1))
              -> 0 < count_applied (fixes (results (w_run w1))))) as Hgoal.
  { rewrite Hfx1, Hf1, Hc1, Hnew. split; [lia|done]. }
  by destruct r1 as [[]|e].
Qed.

(** X26.  For a repository given by a [file://] address whose tests pass
    in the first pass, the run ends PASSED after that pass whatever the
    push and the CI poll would answer: one PASSED timeline entry, no
    record, no commit, and the working tree untouched. *)
Theorem local_repository_passes_without_ci (new_run_id : string)
    (request : RunAgentRequest) (fs : FS) (run_state : RunState)
    (repo_info : RepoInfo) (existing : list string) (completed : CompletedProcess) :
  Orchestrator.start_run self_retry_limit new_run_id request = Ok run_state ->
  1 <= self_retry_limit ->
  startswith (repo_url payload) "file://" = true ->
  analyze_repository env (repo_url payload) new_run_id = Ok repo_info ->
  existing_branches env (repo_path repo_info) = Ok existing ->
  branch_name (results run_state) ∉ existing ->
  git_checkout_new env (repo_path repo_info) (branch_name (results run_state)) = Ok tt ->
  test_files_found env 1 fs = true ->
  run_pytest env 1 fs = Ok completed ->
  returncode completed = 0 ->
  let w := execute_run env self_retry_limit payload fs run_state in
  let b := results (w_run w) in
  w_fs w = fs /\ status (w_run w) = PASSED /\ final_status b = PASSED
  /\ iterations_used b = 1
  /\ ci_timeline b = [{| ci_iteration := 1; ci_status := PASSED;
                         ci_timestamp := utc_now env 1 |}]
  /\ fixes b = [] /\ commits b = 0 /\ total_failures b = 0.
Proof.
  intros Hstart Hlimit Hlocal Han Hex Hnin Hco Htf Hpy Hrc.
  assert (Hvalid : GitAgent.validate_branch_name (branch_name (results run_state)) = true).
  { unfold Orchestrator.start_run in Hstart.
    destruct (GitAgent.validate_branch_name _) eqn:Hv; [|done].
    cbn [negb] in Hstart. destruct (_ <? 1); [done|]. by injection Hstart as <-. }
  apply start_run_fresh in Hstart as (Hid & Hst & Hfs & Hu & Hc & Hf & Hfx & Ht).
  assert (Hrange : exists rest, range_from_1 self_retry_limit = 1 :: rest).
  { unfold range_from_1. destruct (Z.to_nat self_retry_limit) as [|n] eqn:Hn; [lia|].
    by eexists. }
  destruct Hrange as [rest Hrange].
  cbv zeta. unfold execute_run, try_block, prologue, checkout_or_create_branch.
  unfold bind, get_run, lift, ret, modify_results. cbn [w_run w_fs].
  rewrite Hid, Han.
  unfold GitAgent.enforce_branch_name. rewrite Hvalid. cbn [negb].
  rewrite (valid_branch_not_main _ Hvalid), Hex.
  rewrite bool_decide_eq_false_2 by done.
  rewrite Hco, Hrange. cbn [run_iterations].
  unfold iteration_body, bind, get_fs, lift, modify_results. cbn [w_run w_fs].
  unfold run_tests. rewrite Htf, Hpy. cbn [negb mbind result_bind mret result_ret].
  rewrite Hrc. cbn [Z.eqb passed]. rewrite Hlocal.
  cbn. rewrite bool_decide_eq_true_2 by done.
  cbn. by rewrite Ht, Hfx, Hc, Hf.
Qed.

(** X27.  The report of a run made by [start_run] never holds more fix
    records than failures counted, and no more applied fixes than
    records; a commit is counted only when some record is marked
    applied. *)
Theorem fix_records_bounded (new_run_id : string) (request : RunAgentRequest)
    (fs : FS) (run_state : RunState) :
  Orchestrator.start_run self_retry_limit new_run_id request = Ok run_state ->
  let b := results (w_run (execute_run env self_retry_limit payload fs run_state)) in
  0 <= count_applied (fixes b) <= total_fixes b
  /\ total_fixes b <= total_failures b
  /\ (0 < commits b -> 0 < count_applied (fixes b)).
Proof.
  intros Hstart. apply execute_run_records with (fs := fs) in Hstart.
  pose proof (execute_run_scored fs run_state) as (_ & Htotal & _).
  cbv zeta in *. destruct Hstart as [Hle Hcommit]. rewrite Htotal.
  repeat split; try done; [apply count_applied_nonneg|].
  unfold count_applied. apply inj_le, length_filter.
Qed.

(** X28.  With a retry limit of at most 20 a run made by [start_run] is
    never charged for its commits: the score reported is 110 when the run
    took less than 300 seconds and 100 otherwise. *)
Theorem score_without_penalty (new_run_id : string) (request : RunAgentRequest)
    (fs : FS) (run_state : RunState) :
  Orchestrator.start_run self_retry_limit new_run_id request = Ok run_state ->
  self_retry_limit <= 20 ->
  let b := results (w_run (execute_run env self_retry_limit payload fs run_state)) in
  score_base b = 100 /\ score_commit_penalty b = 0
  /\ score_time_bonus b = (if elapsed_seconds env <? 300 then 10 else 0)
  /\ score b = score_base b + score_time_bonus b.
Proof.
  intros Hstart Hlimit.
  apply execute_run_report with (fs := fs) in Hstart.
  pose proof (execute_run_scored fs run_state) as Hscore.
  cbv zeta in *.
  destruct Hstart as (_ & _ & _ & m & _ & _ & Hle & Hc & _).
  destruct Hscore as (_ & _ & -> & -> & -> & ->).
  unfold ScoreAgent.calculate_score.
  cbn [ScoreAgent.final_score ScoreAgent.base_score ScoreAgent.time_bonus
       ScoreAgent.commit_penalty].
  destruct (Z.gtb_spec
    (commits (results (w_run (execute_run env self_retry_limit payload fs run_state)))) 20);
    [lia|].
  destruct (elapsed_seconds env <? 300); repeat split; lia.
Qed.

End WholeRun.

Section Registry.
Import PyStr FileSystem Orchestrator.

(** X29.  The registry keeps every run under its own identifier through
    [run_agent] and [execute_run].  [execute_run] does nothing for an
    identifier that is not registered, leaves a registered run PASSED or
    FAILED, and leaves the runs of the other identifiers as they were. *)
Theorem registry_consistent (env : Collaborators) (self_retry_limit : Z)
    (payload : RunAgentRequest) (new_run_id id : string) (fs : FS)
    (store : RunStore.Store) :
  RunStore.consistent store ->
  let after := Main.execute_run env self_retry_limit payload id fs store in
  RunStore.consistent (Main.run_agent self_retry_limit new_run_id payload store).1
  /\ RunStore.consistent after.2
  /\ (Main.get_run store id = None -> after = (fs, store))
  /\ (is_Some (Main.get_run store id) ->
      exists r, Main.get_run after.2 id = Some r
                /\ (status r = PASSED \/ status r = FAILED))
  /\ (forall other, other <> id -> Main.get_run after.2 other = Main.get_run store other).
Proof.
  intros Hcons. cbv zeta.
  assert (Hup : forall r, RunStore.consistent (RunStore.upsert store r)).
  { intros r k r'. unfold RunStore.get, RunStore.upsert.
    destruct (decide (k = run_id r)) as [->|Hne].
    - rewrite lookup_insert_eq. by intros [= <-].
    - rewrite lookup_insert_ne by done. apply Hcons. }
  split.
  { unfold Main.run_agent, Main.start_run.
    repeat (destruct (_ || _) || destruct (negb _); [done|]).
    destruct (Orchestrator.start_run _ _ _) as [r|[]]; cbn; auto. }
  unfold Main.execute_run, Main.get_run.
  destruct (RunStore.get store id) as [run_state|] eqn:Hget.
  - pose proof (execute_run_terminal env self_retry_limit payload fs run_state) as Hterm.
    cbv zeta in Hterm. destruct Hterm as [Hid Hterm].
    apply Hcons in Hget. cbn [snd].
    split; [apply Hup|]. split; [done|]. split.
    + intros _. eexists. split; [|exact Hterm].
      unfold RunStore.get, RunStore.upsert. rewrite Hid, Hget. apply lookup_insert_eq.
    + intros other Hne. unfold RunStore.get, RunStore.upsert.
      rewrite lookup_insert_ne; [done|]. congruence.
  - cbn [snd]. split; [done|]. split; [done|]. split; [|done].
    by intros [? [=]].
Qed.

End Registry.

(** ** Instances of the further properties *)

Section FurtherInstances.
Import PyStr FileSystem FixAgent TestAgent Orchestrator.




(** The failure extracted from the undefined-name report. *)
Lemma extracted_failures_get_descriptors_witness :
  exists p record,
    generate_fix (file Scenario.failure_undefined_os)
      (line_number Scenario.failure_undefined_os) (Member IMPORT)
      (message Scenario.failure_undefined_os) = Ok p
    /\ new_FixRecord (fp_file p) (fp_bug_type p) (fp_line_number p) (fp_commit_message p)
         FIXED (fp_strict_output p) = Ok record
    /\ fr_file record = file Scenario.failure_undefined_os
    /\ fr_line_number record = line_number Scenario.failure_undefined_os
    /\ fr_bug_type record = IMPORT /\ fr_status record = FIXED.
Proof.
  apply (extracted_failures_get_descriptors true (Ok Scenario.completed_undefined_os)
           "/repo" {| passed := false; failures := [Scenario.failure_undefined_os] |}).
  - vm_compute. reflexivity.
  - simpl. left.
Defined.

(** The failure loop of a pass over the undefined-name report. *)
Lemma failure_loop_never_raises_witness :
  let env := Scenario.collaborators 1 Scenario.output_undefined_os "FAILED" in
  let w := {| w_fs := Scenario.tree; w_run := Scenario.registered 3 |} in
  exists w' m records,
    process_failures env "/repo" [Scenario.failure_undefined_os] 0 w = (w', Ok m)
    /\ fixes (results (w_run w')) = fixes (results (w_run w)) ++ records
    /\ List.length records = List.length [Scenario.failure_undefined_os].
Proof.
  intros env w. apply failure_loop_never_raises.
  - intros p e. simpl. discriminate.
  - intros s e. simpl. discriminate.
  - repeat constructor; vm_compute; congruence.
Defined.

(** A path below the repository root. *)
Lemma normalize_file_path_relative_witness :
  _normalize_file_path ("/repo" +:+ "/" +:+ "tests/test_a.py") "/repo" = "tests/test_a.py"
  /\ (startswith ("/workspace/" +:+ "tests/test_a.py") "/repo" = false ->
      _normalize_file_path ("/workspace/" +:+ "tests/test_a.py") "/repo"
      = "tests/test_a.py")
  /\ (startswith ("./" +:+ "tests/test_a.py") "/repo" = false ->
      _normalize_file_path ("./" +:+ "tests/test_a.py") "/repo" = "tests/test_a.py")
  /\ (startswith "tests/test_a.py" "/repo" = false ->
      _normalize_file_path "tests/test_a.py" "/repo" = "tests/test_a.py").
Proof. apply normalize_file_path_relative; vm_compute; reflexivity. Defined.

(** A run of three passes over the undefined-name report, with a CI that
    passes. *)
Lemma run_ends_passed_or_failed_witness :
  let env := Scenario.collaborators 1 Scenario.output_undefined_os "PASSED" in
  let w := execute_run env 3 Scenario.request Scenario.tree (Scenario.registered 3) in
  let b := results (w_run w) in
  run_id (w_run w) = "run-1"
  /\ (status (w_run w) = PASSED \/ status (w_run w) = FAILED)
  /\ final_status b = status (w_run w)
  /\ (status (w_run w) = PASSED
      <-> exists earlier e, ci_timeline b = earlier ++ [e] /\ ci_status e = PASSED)
  /\ (forall earlier e, ci_timeline b = earlier ++ [e] ->
      Forall (fun e => ci_status e = FAILED) earlier).
Proof.
  intros env.
  apply (run_ends_passed_or_failed env 3 Scenario.request "run-1" Scenario.request).
  vm_compute. reflexivity.
Defined.

(** The same run with a CI that fails every time. *)
Lemma timeline_numbers_passes_witness :
  let env := Scenario.collaborators 1 Scenario.output_undefined_os "FAILED" in
  let w := execute_run env 3 Scenario.request Scenario.tree (Scenario.registered 3) in
  let b := results (w_run w) in
  let entries := Z.of_nat (List.length (ci_timeline b)) in
  ci_iteration <$> ci_timeline b = range_from_1 entries
  /\ entries <= iterations_used b <= entries + 1
  /\ (status (w_run w) = PASSED -> iterations_used b = entries)
  /\ iterations_used b <= Z.max 0 3
  /\ 0 <= commits b <= iterations_used b.
Proof.
  intros env.
  apply (timeline_numbers_passes env 3 Scenario.request "run-1" Scenario.request).
  vm_compute. reflexivity.
Defined.

(** A second run for the same team on the same repository. *)
Lemma existing_branch_fails_run_witness :
  let env :=
    Scenario.with_existing_branches ["main"; "TEAM_A_LEAD_AI_Fix"]
      (Scenario.collaborators 0 EmptyString "PASSED") in
  let w := execute_run env 3 Scenario.request Scenario.tree (Scenario.registered 3) in
  let a := results (Scenario.registered 3) in
  let b := results (w_run w) in
  w_fs w = Scenario.tree /\ status (w_run w) = FAILED /\ final_status b = FAILED
  /\ iterations_used b = iterations_used a /\ total_failures b = total_failures a
  /\ commits b = commits a /\ fixes b = fixes a /\ ci_timeline b = ci_timeline a.
Proof.
  intros env.
  apply (existing_branch_fails_run env 3 Scenario.request Scenario.tree
           (Scenario.registered 3) {| repo_path := "/repo"; language := "python" |}
           ["main"; "TEAM_A_LEAD_AI_Fix"]).
  - reflexivity.
  - reflexivity.
  - simpl. right. left.
Defined.

(** A run over the undefined-name report with the usual limit of passes. *)
Lemma score_without_penalty_witness :
  let env := Scenario.collaborators 1 Scenario.output_undefined_os "FAILED" in
  let b :=
    results (w_run (execute_run env 5 Scenario.request Scenario.tree
                      (Scenario.registered 5))) in
  score_base b = 100 /\ score_commit_penalty b = 0
  /\ score_time_bonus b = (if elapsed_seconds env <? 300 then 10 else 0)
  /\ score b = score_base b + score_time_bonus b.
Proof.
  intros env.
  apply (score_without_penalty env 5 Scenario.request "run-1" Scenario.request);
    [vm_compute; reflexivity | lia].
Defined.

(** A local repository whose tests pass, with a CI that would fail. *)
Lemma local_repository_passes_without_ci_witness :
  let env := Scenario.collaborators 0 EmptyString "FAILED" in
  let w :=
    execute_run env 3 Scenario.local_request Scenario.tree (Scenario.registered 3) in
  let b := results (w_run w) in
  w_fs w = Scenario.tree /\ status (w_run w) = PASSED /\ final_status b = PASSED
  /\ iterations_used b = 1
  /\ ci_timeline b = [{| ci_iteration := 1; ci_status := PASSED;
                         ci_timestamp := utc_now env 1 |}]
  /\ fixes b = [] /\ commits b = 0 /\ total_failures b = 0.
Proof.
  intros env.
  apply (local_repository_passes_without_ci env 3 Scenario.local_request "run-1"
           Scenario.request Scenario.tree (Scenario.registered 3)
           {| repo_path := "/repo"; language := "python" |} []
           {| returncode := 0; stdout := EmptyString; stderr := EmptyString |}).
  - vm_compute. reflexivity.
  - lia.
  - reflexivity.
  - reflexivity.
  - reflexivity.
  - apply not_elem_of_nil.
  - reflexivity.
  - reflexivity.
  - reflexivity.
  - reflexivity.
Defined.

(** The run over the undefined-name report with a CI that fails. *)
Lemma fix_records_bounded_witness :
  let env := Scenario.collaborators 1 Scenario.output_undefined_os "FAILED" in
  let b :=
    results (w_run (execute_run env 3 Scenario.request Scenario.tree
                      (Scenario.registered 3))) in
  0 <= count_applied (fixes b) <= total_fixes b
  /\ total_fixes b <= total_failures b
  /\ (0 < commits b -> 0 < count_applied (fixes b)).
Proof.
  intros env.
  apply (fix_records_bounded env 3 Scenario.request "run-1" Scenario.request).
  vm_compute. reflexivity.
Defined.

(** A registry that holds one run. *)
Lemma registry_consistent_witness :
  let env := Scenario.collaborators 1 Scenario.output_undefined_os "PASSED" in
  let store : RunStore.Store := {[ "run-1" := Scenario.registered 3 ]} in
  let after := Main.execute_run env 3 Scenario.request "run-1" Scenario.tree store in
  RunStore.consistent (Main.run_agent 3 "run-2" Scenario.request store).1
  /\ RunStore.consistent after.2
  /\ (Main.get_run store "run-1" = None -> after = (Scenario.tree, store))
  /\ (is_Some (Main.get_run store "run-1") ->
      exists r, Main.get_run after.2 "run-1" = Some r
                /\ (status r = PASSED \/ status r = FAILED))
  /\ (forall other, other <> "run-1" ->
      Main.get_run after.2 other = Main.get_run store other).
Proof.
  intros env store.
  apply (registry_consistent env 3 Scenario.request "run-2" "run-1" Scenario.tree store).
  intros id r H. unfold RunStore.get, store in H.
  apply lookup_singleton_Some in H as [<- <-]. reflexivity.
Defined.


End FurtherInstances.
